(** * sdamgia-api: the extraction and crawling pipeline of [SdamGIA]

    A shallow embedding of [src/sdamgia/__main__.py]: Python strings as
    lists of Unicode code points, the BeautifulSoup tree as an inductive
    type whose tags are addressed by paths (so that in-place mutation of
    the shared soup is visible to every later query), exceptions as an
    error result, and the client object as explicit state. *)

From Stdlib Require Import String Ascii DecimalString.
From Stdlib Require Import List ZArith NArith Lia Bool.
From Stdlib Require Import Sorting.Permutation Sorting.Sorted.
Import ListNotations.
Open Scope string_scope.
Open Scope list_scope.

Set Implicit Arguments.
Arguments String.eqb : simpl never.

(** ** Python [str] *)

Module PyStr.

(** A [str] is a sequence of code points. *)
Definition char := N.
Definition ustring := list char.

(** Literals are written as UTF-8 text and decoded to code points. *)
Fixpoint utf8_decode (bs : list N) : ustring :=
  match bs with
  | [] => []
  | b :: r =>
    if (b <? 128)%N then b :: utf8_decode r
    else if (b <? 224)%N then
      match r with
      | b1 :: r1 => ((b - 192) * 64 + (b1 - 128))%N :: utf8_decode r1
      | [] => [b]
      end
    else if (b <? 240)%N then
      match r with
      | b1 :: b2 :: r2 =>
        ((b - 224) * 4096 + (b1 - 128) * 64 + (b2 - 128))%N :: utf8_decode r2
      | _ => [b]
      end
    else
      match r with
      | b1 :: b2 :: b3 :: r3 =>
        ((b - 240) * 262144 + (b1 - 128) * 4096 + (b2 - 128) * 64 + (b3 - 128))%N
          :: utf8_decode r3
      | _ => [b]
      end
  end.

Definition u (s : string) : ustring :=
  utf8_decode (map N_of_ascii (list_ascii_of_string s)).

Definition ustring_eqb (a b : ustring) : bool :=
  if list_eq_dec N.eq_dec a b then true else false.

(** [str.isspace] on one character (the code points CPython classifies as
    whitespace). *)
Definition isspace (c : char) : bool :=
  ((9 <=? c) && (c <=? 13) || (28 <=? c) && (c <=? 32) || (c =? 133)
   || (c =? 160) || (c =? 5760) || (8192 <=? c) && (c <=? 8202)
   || (c =? 8232) || (c =? 8233) || (c =? 8239) || (c =? 8287)
   || (c =? 12288))%N.

Definition mem (c : char) (cs : ustring) : bool := existsb (N.eqb c) cs.

(** [s.lstrip(chars)]: drops leading characters that belong to the set
    [chars]. *)
Fixpoint lstrip_chars (chars s : ustring) : ustring :=
  match s with
  | c :: r => if mem c chars then lstrip_chars chars r else s
  | [] => []
  end.

Fixpoint lstrip (s : ustring) : ustring :=
  match s with
  | c :: r => if isspace c then lstrip r else s
  | [] => []
  end.

Definition rstrip (s : ustring) : ustring := rev (lstrip (rev s)).

(** [s.strip()] *)
Definition strip (s : ustring) : ustring := rstrip (lstrip s).

Fixpoint startswith (p s : ustring) : bool :=
  match p, s with
  | [], _ => true
  | a :: p', b :: s' => (a =? b)%N && startswith p' s'
  | _ :: _, [] => false
  end.

(** [sub in s] *)
Fixpoint contains (sub s : ustring) : bool :=
  startswith sub s ||
  match s with
  | [] => false
  | _ :: r => contains sub r
  end.

(** [s.replace(old, new)] for a non-empty [old]: occurrences are replaced
    left to right without overlap; [skip] counts the characters of a
    matched occurrence that are still to be passed over. *)
Fixpoint replace_from (old new : ustring) (skip : nat) (s : ustring) : ustring :=
  match s with
  | [] => []
  | c :: r =>
    match skip with
    | S k => replace_from old new k r
    | O =>
      if startswith old s
      then new ++ replace_from old new (length old - 1) r
      else c :: replace_from old new 0 r
    end
  end.

Definition replace (old new s : ustring) : ustring := replace_from old new 0 s.

(** [s.split(sep)] for a non-empty [sep]. *)
Fixpoint split_from (sep : ustring) (skip : nat) (cur : ustring) (s : ustring)
  : list ustring :=
  match s with
  | [] => [rev cur]
  | c :: r =>
    match skip with
    | S k => split_from sep k cur r
    | O =>
      if startswith sep s
      then rev cur :: split_from sep (length sep - 1) [] r
      else split_from sep 0 (c :: cur) r
    end
  end.

Definition split (sep s : ustring) : list ustring := split_from sep 0 [] s.

(** [s.split()]: maximal runs of non-whitespace characters. *)
Fixpoint split_ws_from (cur : ustring) (s : ustring) : list ustring :=
  match s with
  | [] => match cur with [] => [] | _ => [rev cur] end
  | c :: r =>
    if isspace c
    then match cur with
         | [] => split_ws_from [] r
         | _ => rev cur :: split_ws_from [] r
         end
    else split_ws_from (c :: cur) r
  end.

Definition split_ws (s : ustring) : list ustring := split_ws_from [] s.

(** [str(n)] for an [int]. *)
Definition str_of_int (z : Z) : ustring :=
  map N_of_ascii (list_ascii_of_string (NilZero.string_of_int (Z.to_int z))).

End PyStr.
Import PyStr.

(** ** Exceptions *)

Inductive exn : Type :=
| RuntimeError | IndexError | AttributeError | ValueError | KeyError
| ClientError   (* aiohttp: transport failure or non-2xx status *)
| ImageError.   (* cairosvg / PIL failure *)

Definition exn_eqb (a b : exn) : bool :=
  match a, b with
  | RuntimeError, RuntimeError | IndexError, IndexError
  | AttributeError, AttributeError | ValueError, ValueError
  | KeyError, KeyError | ClientError, ClientError | ImageError, ImageError => true
  | _, _ => false
  end.

(** The outcome of a call: a value, a raised exception, or [OutOfFuel] when
    a [while True] loop was cut by the fuel of the model (never a Python
    outcome). *)
Inductive result (A : Type) : Type :=
| Ok (a : A)
| Raise (e : exn)
| OutOfFuel.
Arguments Raise {A} e.
Arguments OutOfFuel {A}.

Definition rbind {A B} (r : result A) (k : A -> result B) : result B :=
  match r with
  | Ok a => k a
  | Raise e => Raise e
  | OutOfFuel => OutOfFuel
  end.

(** [try: r except (handled): default] *)
Definition try_except {A} (r : result A) (handled : list exn) (default : A)
  : result A :=
  match r with
  | Raise e => if existsb (exn_eqb e) handled then Ok default else Raise e
  | _ => r
  end.

Definition of_option {A} (o : option A) (e : exn) : result A :=
  match o with Some a => Ok a | None => Raise e end.

Fixpoint rmap {A B} (f : A -> result B) (l : list A) : result (list B) :=
  match l with
  | [] => Ok []
  | a :: r => rbind (f a) (fun b => rbind (rmap f r) (fun bs => Ok (b :: bs)))
  end.


Notation "x <~ r ;; k" := (rbind r (fun x => k))
  (at level 61, r at next level, right associativity).

(** ** The BeautifulSoup tree

    A parsed document is a tree of tags and strings.  Comments, scripts
    and the other strings that [.text] skips are left out.  A tag holds its
    name, its [class] tokens (which bs4 keeps as a list) and its remaining
    attributes.  Tags are referred to by their path from the root, so that
    an in-place change is seen through every reference to the soup. *)

Unset Elimination Schemes.
Inductive node : Type :=
| Text (s : ustring)
| Elem (name : string) (classes : list string)
       (attrs : list (string * ustring)) (children : list node).
Set Elimination Schemes.

Definition path := list nat.

Definition under (i : nat) (x : path * node) : path * node :=
  (i :: fst x, snd x).

Section Descendants.

Variable descendants : node -> list (path * node).

Fixpoint descendants_from (i : nat) (l : list node) : list (path * node) :=
  match l with
  | [] => []
  | c :: r =>
    (([i], c) :: map (under i) (descendants c)) ++ descendants_from (S i) r
  end.

End Descendants.

(** The descendants of a tag in document order, each with its path. *)
Fixpoint descendants (n : node) : list (path * node) :=
  match n with
  | Text _ => []
  | Elem _ _ _ ch => descendants_from descendants 0 ch
  end.

Definition is_tag (name : string) (n : node) : bool :=
  match n with
  | Elem nm _ _ _ => String.eqb nm name
  | Text _ => false
  end.

Definition has_class (c : string) (n : node) : bool :=
  match n with
  | Elem _ cls _ _ => existsb (String.eqb c) cls
  | Text _ => false
  end.

(** The selector [(name, class_=c)]. *)
Definition tag_class (name c : string) (n : node) : bool :=
  is_tag name n && has_class c n.

(** [tag.find_all(...)] and [tag.find(...)] *)
Definition find_all (P : node -> bool) (n : node) : list (path * node) :=
  filter (fun x => P (snd x)) (descendants n).

Definition find (P : node -> bool) (n : node) : option (path * node) :=
  hd_error (find_all P n).

(** [tag.text] *)
Fixpoint strings (n : node) : list ustring :=
  match n with
  | Text s => [s]
  | Elem _ _ _ ch => flat_map strings ch
  end.

Definition text (n : node) : ustring := concat (strings n).

Definition nonempty (s : ustring) : bool :=
  match s with [] => false | _ => true end.

(** [tag.get_text(strip=True)] *)
Definition get_text_strip (n : node) : ustring :=
  concat (filter nonempty (map strip (strings n))).

Fixpoint attr_get (k : string) (attrs : list (string * ustring)) : option ustring :=
  match attrs with
  | [] => None
  | (k', v) :: r => if String.eqb k' k then Some v else attr_get k r
  end.

Fixpoint attr_set (k : string) (v : ustring) (attrs : list (string * ustring))
  : list (string * ustring) :=
  match attrs with
  | [] => [(k, v)]
  | (k', v') :: r =>
    if String.eqb k' k then (k', v) :: r else (k', v') :: attr_set k v r
  end.

(** [tag.get(k)] *)
Definition tag_get (n : node) (k : string) : option ustring :=
  match n with
  | Elem _ _ a _ => attr_get k a
  | Text _ => None
  end.

(** [tag[k]] *)
Definition tag_getitem (n : node) (k : string) : result ustring :=
  of_option (tag_get n k) KeyError.

Fixpoint get (n : node) (p : path) : option node :=
  match p with
  | [] => Some n
  | i :: q =>
    match n with
    | Elem _ _ _ ch =>
      match nth_error ch i with
      | Some c => get c q
      | None => None
      end
    | Text _ => None
    end
  end.

Fixpoint update_nth {A} (i : nat) (f : A -> A) (l : list A) : list A :=
  match l, i with
  | [], _ => []
  | a :: r, O => f a :: r
  | a :: r, S j => a :: update_nth j f r
  end.

(** The soup after the tag at [p] has been changed into [new]. *)
Fixpoint set (n : node) (p : path) (new : node) : node :=
  match p with
  | [] => new
  | i :: q =>
    match n with
    | Elem nm cls a ch => Elem nm cls a (update_nth i (fun c => set c q new) ch)
    | Text _ => n
    end
  end.

(** The tag a held reference points to.  A reference can only dangle when
    an [img] that has children was replaced, which no HTML parser
    produces. *)
Definition deref (soup : node) (p : path) : node :=
  match get soup p with
  | Some n => n
  | None => Text []
  end.

(** ** External collaborators *)

Definition image := list N.

Record Env : Type := {
  (** [session.request("GET", url, params=...)] followed by
      [raise_for_status()] and [response.text()] *)
  http_get : ustring -> list (string * ustring) -> result ustring;
  (** [bs4.BeautifulSoup(markup=html, features="lxml")] *)
  soup_of : ustring -> node;
  (** [urllib.parse.urljoin], where it returns *)
  urljoin : ustring -> ustring -> ustring;
  (** whether [urljoin] raises [ValueError]: it does on a URL that cannot
      be parsed, such as one with an unclosed bracket in its host *)
  urljoin_raises : ustring -> ustring -> bool;
  (** [svg2png] and [Image.open] *)
  svg2png : ustring -> result image;
  (** [asyncio.gather] over the fetches of the given links: which of the
      tasks that fail does so first, as an index into the failures in the
      order of the tasks; it depends on the timing of the responses *)
  first_to_fail : list (option ustring) -> nat;
  (** [pix2tex.cli.LatexOCR()], absent when the import fails *)
  LatexOCR : option (image -> result ustring);
  (** [unicodedata.normalize("NFKC", _)] *)
  nfkc : ustring -> ustring;
  (** [str.isdigit] and [int(str)], which read the Unicode database *)
  isdigit : ustring -> bool;
  int_of_str : ustring -> option Z;
}.

(** ** The client *)

(** Modelled from the spec: [types.py], which declares the enumerations
    [GitType] and [Subject], is not among the sources; an exam type or a
    subject is kept as the text it formats to in the base URL. *)
Record SdamGIA : Type := {
  gia_type : ustring;
  subject : option ustring;
  _latex_ocr_model : option (image -> result ustring);
  (** the GET requests sent through [_session], oldest first *)
  sent : list (ustring * list (string * ustring));
}.

Definition with_gia_type (g : ustring) (self : SdamGIA) : SdamGIA :=
  {| gia_type := g; subject := subject self;
     _latex_ocr_model := _latex_ocr_model self; sent := sent self |}.

Definition with_subject (s : option ustring) (self : SdamGIA) : SdamGIA :=
  {| gia_type := gia_type self; subject := s;
     _latex_ocr_model := _latex_ocr_model self; sent := sent self |}.

Definition with_model (m : option (image -> result ustring)) (self : SdamGIA)
  : SdamGIA :=
  {| gia_type := gia_type self; subject := subject self;
     _latex_ocr_model := m; sent := sent self |}.

Definition with_sent (l : list (ustring * list (string * ustring)))
  (self : SdamGIA) : SdamGIA :=
  {| gia_type := gia_type self; subject := subject self;
     _latex_ocr_model := _latex_ocr_model self; sent := l |}.

(** Coroutines of the client: state passing with exceptions. *)
Definition M (A : Type) : Type := SdamGIA -> result A * SdamGIA.

Definition ret {A} (a : A) : M A := fun self => (Ok a, self).

Definition bind {A B} (m : M A) (k : A -> M B) : M B :=
  fun self =>
    match m self with
    | (Ok a, self') => k a self'
    | (Raise e, self') => (Raise e, self')
    | (OutOfFuel, self') => (OutOfFuel, self')
    end.

Definition lift {A} (r : result A) : M A := fun self => (r, self).

Definition get_self : M SdamGIA := fun self => (Ok self, self).

Definition modify (f : SdamGIA -> SdamGIA) : M unit :=
  fun self => (Ok tt, f self).

(** [try: m except (handled): default] *)
Definition try_exceptM {A} (m : M A) (handled : list exn) (default : A) : M A :=
  fun self =>
    match m self with
    | (r, self') => (try_except r handled default, self')
    end.

Notation "x <- m ;; k" := (bind m (fun x => k))
  (at level 61, m at next level, right associativity).

Fixpoint mapM {A B} (f : A -> M B) (l : list A) : M (list B) :=
  match l with
  | [] => ret []
  | a :: r => b <- f a ;; bs <- mapM f r ;; ret (b :: bs)
  end.

(** [asyncio.create_task] for each coroutine: every task starts, and so
    sends its request, before [gather] hands anything back, whatever the
    outcome of the tasks before it.  The outcomes are kept in the order of
    the tasks. *)
Fixpoint run_tasks {A} (tasks : list (M A)) (self : SdamGIA)
  : list (result A) * SdamGIA :=
  match tasks with
  | [] => ([], self)
  | t :: r =>
    let (o, s1) := t self in
    let (os, s2) := run_tasks r s1 in
    (o :: os, s2)
  end.

Fixpoint failures {A} (outcomes : list (result A)) : list exn :=
  match outcomes with
  | [] => []
  | Raise e :: r => e :: failures r
  | _ :: r => failures r
  end.

Fixpoint all_results {A} (outcomes : list (result A)) : option (list A) :=
  match outcomes with
  | [] => Some []
  | Ok a :: r =>
    match all_results r with
    | Some l => Some (a :: l)
    | None => None
    end
  | _ :: r => None
  end.

(** What [asyncio.gather] hands to the awaiter: the results in the order
    of the tasks when they all return, and else the exception of the task
    that fails first in time, the [first]-th of those that fail. *)
Definition gathered {A} (first : nat) (outcomes : list (result A))
  : result (list A) :=
  match all_results outcomes with
  | Some results => Ok results
  | None =>
    match failures outcomes with
    | e :: es => Raise (nth first (e :: es) e)
    | [] => OutOfFuel
    end
  end.

Definition gather {A} (first : nat) (tasks : list (M A)) : M (list A) :=
  fun self =>
    let (outcomes, self') := run_tasks tasks self in
    (gathered first outcomes, self').

(** Modelled from the spec: [types.py], which declares [ProblemPart] and
    [Problem], is not among the sources; the fields are those of the data
    model, under the names [__main__.py] passes to the constructors. *)
Record ProblemPart : Type := {
  text_ : ustring;
  (** [str(tag)]: the tag that is rendered *)
  html : node;
  image_links : list (option ustring);
}.

Record Problem : Type := {
  p_gia_type : ustring;
  p_subject : option ustring;
  problem_id : Z;
  condition : option ProblemPart;
  solution : option ProblemPart;
  answer : ustring;
  topic_id : option Z;
  analogs : list Z;
}.

Record CatalogCategory : Type := {
  category_id : ustring;
  category_name : ustring;
}.

Record CatalogTopic : Type := {
  c_topic_id : ustring;
  c_topic_name : ustring;
  categories : list CatalogCategory;
}.

Definition option_eqb (a b : option ustring) : bool :=
  match a, b with
  | Some x, Some y => ustring_eqb x y
  | None, None => true
  | _, _ => false
  end.

(** [dict(zip(keys, values)).get(k)]: a later pair overrides an earlier
    one with the same key. *)
Fixpoint dict_get (k : option ustring) (d : list (option ustring * ustring))
  : option ustring :=
  match d with
  | [] => None
  | (k', v) :: r =>
    match dict_get k r with
    | Some v' => Some v'
    | None => if option_eqb k k' then Some v else None
    end
  end.

(** [sorted] on a list of [int]. *)
Fixpoint insert_sorted (x : Z) (l : list Z) : list Z :=
  match l with
  | [] => [x]
  | y :: r => if (x <=? y)%Z then x :: l else y :: insert_sorted x r
  end.

Fixpoint sorted (l : list Z) : list Z :=
  match l with
  | [] => []
  | x :: r => insert_sorted x (sorted r)
  end.

Definition BASE_DOMAIN : ustring := u "sdamgia.ru".

(** [handle_params(method)]: the keyword arguments [gia_type] and
    [subject] are popped and, when given, stored in the client before the
    wrapped coroutine runs. *)
Definition handle_params {A} (method : M A)
  (kw_gia_type : option ustring) (kw_subject : option ustring) : M A :=
  saved <- get_self ;;
  let save_gia_type := gia_type saved in
  let save_subject := subject saved in
  _ <- modify (fun self =>
         match kw_gia_type with
         | Some g => with_gia_type g self
         | None => self
         end) ;;
  _ <- modify (fun self =>
         match kw_subject with
         | Some s => with_subject (Some s) self
         | None => self
         end) ;;
  result <- method ;;
  _ <- modify (with_gia_type save_gia_type) ;;
  _ <- modify (with_subject save_subject) ;;
  ret result.

Section Client.

Variable E : Env.

Definition fmt_subject (s : option ustring) : ustring :=
  match s with
  | Some x => x
  | None => u "None"
  end.

Definition base_url (self : SdamGIA) : ustring :=
  u "https://" ++ fmt_subject (subject self) ++ u "-" ++ gia_type self
    ++ u "." ++ BASE_DOMAIN.

(** [urljoin(base, url)] on a URL that comes from a page or from a
    response. *)
Definition checked_urljoin (base url : ustring) : result ustring :=
  if urljoin_raises E base url then Raise ValueError
  else Ok (urljoin E base url).

(** [_get(path, url, **kwargs)]: [url or urljoin(self.base_url, path)];
    the paths are those the client writes itself. *)
Definition _get (path : ustring) (url : option ustring)
  (params : list (string * ustring)) : M ustring :=
  fun self =>
    let url :=
      match url with
      | Some (c :: r) => c :: r
      | _ => urljoin E (base_url self) path
      end in
    (http_get E url params, with_sent (sent self ++ [(url, params)]) self).

Definition get_image_from_url (url : option ustring) : M image :=
  byte_string <- _get [] url [] ;;
  lift (svg2png E byte_string).

Definition image_to_tex (img : image) : M ustring :=
  self <- get_self ;;
  model <- match _latex_ocr_model self with
           | Some m => ret m
           | None =>
             match LatexOCR E with
             | Some m => _ <- modify (with_model (Some m)) ;; ret m
             | None => lift (Raise RuntimeError)
             end
           end ;;
  t <- lift (model img) ;;
  ret (u "$" ++ t ++ u "$").

(** [await asyncio.gather] over [condition_image_tasks] *)
Definition gather_images (links : list (option ustring)) : M (list image) :=
  gather (first_to_fail E links) (map get_image_from_url links).

Definition get_latex_from_url_list (links : list (option ustring))
  : M (list (option ustring * ustring)) :=
  images_data <- gather_images links ;;
  string_tex_list <- mapM image_to_tex images_data ;;
  ret (combine links string_tex_list).

(** [for img_tag in tag.find_all("img", class_="tex"):
       img_tag.replace_with(recognized_texts.get(img_tag.get("src")))],
    in document order; [replace_with(None)] raises [ValueError]. *)
Fixpoint replace_tex (recognized : list (option ustring * ustring)) (n : node)
  : result node :=
  match n with
  | Text _ => Ok n
  | Elem nm cls a ch =>
    ch' <~ rmap (fun c =>
             if tag_class "img" "tex" c
             then t <~ of_option (dict_get (tag_get c "src") recognized) ValueError ;;
                  Ok (Text t)
             else replace_tex recognized c) ch ;;
    Ok (Elem nm cls a ch')
  end.

(** [text.replace("−", "-").replace("\xad", "")] then NFKC. *)
Definition normalize_text (t : ustring) : ustring :=
  nfkc E (replace [173%N] [] (replace (u "−") (u "-") t)).

Definition append_new_link (links : list (option ustring)) (img : path * node)
  : list (option ustring) :=
  match tag_get (snd img) "src" with
  | Some link =>
    if negb (existsb (option_eqb (Some link)) links)
    then links ++ [Some link]
    else links
  | None => links
  end.

(** [[img.get("src") for img in tag.find_all("img", class_="tex")]] *)
Definition tex_links (tag : node) : list (option ustring) :=
  map (fun img => tag_get (snd img) "src") (find_all (tag_class "img" "tex") tag).

(** [for img in tag.find_all("img"): ... image_links.append(link)] *)
Definition all_links (tag : node) (image_links : list (option ustring))
  : list (option ustring) :=
  fold_left append_new_link (find_all (is_tag "img") tag) image_links.

(** [_get_problem_part(tag, recognize_text)]; the tag as the call leaves it
    is returned with the part.  A [None] tag has no [find_all]. *)
Definition _get_problem_part (tag : option node) (recognize_text : bool)
  : M (ProblemPart * node) :=
  match tag with
  | None => lift (Raise AttributeError)
  | Some tag =>
    let image_links := tex_links tag in
    r <- (if recognize_text
          then
            recognized_texts <- get_latex_from_url_list image_links ;;
            tag' <- lift (replace_tex recognized_texts tag) ;;
            ret (normalize_text (get_text_strip tag'), tag')
          else ret ([], tag)) ;;
    let text := fst r in
    let tag := snd r in
    ret ({| text_ := text; html := tag;
            image_links := all_links tag image_links |}, tag)
  end.

(** [if self.BASE_DOMAIN not in img["src"]:
       img["src"] = urljoin(self.base_url, img["src"])] *)
Definition rewrite_src (base : ustring) (a : list (string * ustring))
  : result (list (string * ustring)) :=
  src <~ of_option (attr_get "src" a) KeyError ;;
  if negb (contains BASE_DOMAIN src)
  then joined <~ checked_urljoin base src ;; Ok (attr_set "src" joined a)
  else Ok a.

Fixpoint rewrite_imgs (base : ustring) (n : node) : result node :=
  match n with
  | Text _ => Ok n
  | Elem nm cls a ch =>
    a' <~ (if String.eqb nm "img" then rewrite_src base a else Ok a) ;;
    ch' <~ rmap (rewrite_imgs base) ch ;;
    Ok (Elem nm cls a' ch')
  end.

(** [for img in problem_block.find_all("img"): ...], in document order. *)
Definition rewrite_block (base : ustring) (block : node) : result node :=
  match block with
  | Text _ => Ok block
  | Elem nm cls a ch =>
    ch' <~ rmap (rewrite_imgs base) ch ;;
    Ok (Elem nm cls a ch')
  end.

(** [int(problem_block.find("span", class_="prob_nums").text.split()[1])] *)
Definition topic_id_of (problem_block : node) : result Z :=
  span <~ of_option (find (tag_class "span" "prob_nums") problem_block)
            AttributeError ;;
  tok <~ of_option (nth_error (split_ws (text (snd span))) 1) IndexError ;;
  of_option (int_of_str E tok) ValueError.

(** [problem_block.find("div", class_="answer").text.lstrip("Ответ:").strip()] *)
Definition answer_of (problem_block : node) : result ustring :=
  div <~ of_option (find (tag_class "div" "answer") problem_block)
           AttributeError ;;
  Ok (strip (lstrip_chars (u "Ответ:") (text (snd div)))).

(** The two statements that build [analogs]. *)
Definition analogs_of (problem_id : Z) (problem_block : node) : result (list Z) :=
  minor <~ of_option (find (tag_class "div" "minor") problem_block)
             AttributeError ;;
  hrefs <~ rmap (fun link => tag_getitem (snd link) "href")
             (find_all (is_tag "a") (snd minor)) ;;
  let analogs :=
    map (replace (u "/problem?id=") [])
        (filter (fun href => negb (contains (str_of_int problem_id) href)) hrefs) in
  ints <~ rmap (fun i => of_option (int_of_str E i) ValueError)
            (filter (isdigit E) analogs) ;;
  Ok (sorted ints).

(** The solution tag, as a path below the problem block. *)
Definition solution_tag_of (problem_block : node) : result (path * node) :=
  match find (tag_class "div" "solution") problem_block with
  | Some t => Ok t
  | None =>
    of_option (nth_error (find_all (tag_class "div" "pbody") problem_block) 1)
      IndexError
  end.

(** The [try] block that extracts the condition; the soup as the block
    leaves it is returned with the part. *)
Definition condition_step (soup : node) (recognize_text : bool)
  : M (option ProblemPart * node) :=
  try_exceptM
    (let condition_tag := find (tag_class "div" "pbody") soup in
     r <- _get_problem_part (option_map snd condition_tag) recognize_text ;;
     ret (Some (fst r),
          match condition_tag with
          | Some (q, _) => set soup q (snd r)
          | None => soup
          end))
    [IndexError; AttributeError] (None, soup).

(** The [try] block that extracts the solution. *)
Definition solution_step (soup : node) (block : path) (recognize_text : bool)
  : M (option ProblemPart * node) :=
  try_exceptM
    (solution_tag <- lift (solution_tag_of (deref soup block)) ;;
     r <- _get_problem_part (Some (snd solution_tag)) recognize_text ;;
     ret (Some (fst r), set soup (block ++ fst solution_tag) (snd r)))
    [IndexError; AttributeError] (None, soup).

Definition get_problem_by_id_body (problem_id : Z) (recognize_text : bool)
  : M Problem :=
  page <- _get (u "/problem?id=" ++ str_of_int problem_id) None [] ;;
  let soup := soup_of E page in
  match find (tag_class "div" "prob_maindiv") soup with
  | None => lift (Raise RuntimeError)
  | Some (block, problem_block) =>
    self <- get_self ;;
    soup <- lift (block' <~ rewrite_block (base_url self) problem_block ;;
                  Ok (set soup block block')) ;;
    topic_id <- lift (try_except
                        (t <~ topic_id_of (deref soup block) ;; Ok (Some t))
                        [IndexError; AttributeError; ValueError] None) ;;
    c <- condition_step soup recognize_text ;;
    let condition := fst c in
    let soup := snd c in
    s <- solution_step soup block recognize_text ;;
    let solution := fst s in
    let soup := snd s in
    answer <- lift (try_except (answer_of (deref soup block))
                      [IndexError; AttributeError] []) ;;
    analogs <- lift (analogs_of problem_id (deref soup block)) ;;
    self <- get_self ;;
    ret {| p_gia_type := gia_type self; p_subject := subject self;
           problem_id := problem_id; condition := condition;
           solution := solution; answer := answer; topic_id := topic_id;
           analogs := analogs |}
  end.

Definition get_problem_by_id (problem_id : Z) (recognize_text : bool)
  (kw_gia_type kw_subject : option ustring) : M Problem :=
  handle_params (get_problem_by_id_body problem_id recognize_text)
    kw_gia_type kw_subject.

Definition last_error {A} (l : list A) : option A := hd_error (rev l).

(** [int(i.text.split()[-1])] *)
Definition prob_num (i : path * node) : result Z :=
  tok <~ of_option (last_error (split_ws (text (snd i)))) IndexError ;;
  of_option (int_of_str E tok) ValueError.

(** The [while True] loop of [search]; one unit of fuel per iteration. *)
Fixpoint search_loop (fuel : nat) (query : ustring) (page : Z)
  (problem_ids : list Z) : M (list Z) :=
  match fuel with
  | O => lift OutOfFuel
  | S fuel' =>
    let params := [("search", query); ("page", str_of_int page)] in
    html_ <- _get (u "/search") None params ;;
    let soup := soup_of E html_ in
    ids <- lift (rmap prob_num (find_all (tag_class "span" "prob_nums") soup)) ;;
    match ids with
    | [] => ret problem_ids
    | _ => search_loop fuel' query (page + 1) (problem_ids ++ ids)
    end
  end.

Definition search (fuel : nat) (query : ustring)
  (kw_gia_type kw_subject : option ustring) : M (list Z) :=
  handle_params (search_loop fuel query 1 []) kw_gia_type kw_subject.

(** [i.find("a").text] *)
Definition theme_label (i : path * node) : result ustring :=
  a <~ of_option (find (is_tag "a") (snd i)) AttributeError ;;
  Ok (text (snd a)).

Fixpoint theme_loop (fuel : nat) (theme_id : Z) (page : Z)
  (problem_ids : list ustring) : M (list ustring) :=
  match fuel with
  | O => lift OutOfFuel
  | S fuel' =>
    let params := [("theme", str_of_int theme_id); ("page", str_of_int page)] in
    html_ <- _get (u "/test") None params ;;
    let soup := soup_of E html_ in
    match find_all (tag_class "span" "prob_nums") soup with
    | [] => ret problem_ids
    | ids =>
      ids <- lift (rmap theme_label ids) ;;
      theme_loop fuel' theme_id (page + 1) (problem_ids ++ ids)
    end
  end.

Definition get_theme_by_id (fuel : nat) (theme_id : Z)
  (kw_gia_type kw_subject : option ustring) : M (list ustring) :=
  handle_params (theme_loop fuel theme_id 1 []) kw_gia_type kw_subject.

(** [for i in soup.find_all("div", class_="cat_category"):
       try: i["data-id"]
       except IndexError: catalog.append(i)] *)
Fixpoint collect_topics (blocks : list (path * node)) (catalog : list node)
  : result (list node) :=
  match blocks with
  | [] => Ok catalog
  | i :: r =>
    catalog' <~ try_except (_ <~ tag_getitem (snd i) "data-id" ;; Ok catalog)
                  [IndexError] (catalog ++ [snd i]) ;;
    collect_topics r catalog'
  end.

Definition catalog_category (i : path * node) : result CatalogCategory :=
  cid <~ tag_getitem (snd i) "data-id" ;;
  a <~ of_option (find (tag_class "a" "cat_name") (snd i)) AttributeError ;;
  Ok {| category_id := cid; category_name := text (snd a) |}.

(** The body of [for topic in catalog[1:]]. *)
Definition catalog_topic (topic : node) : result CatalogTopic :=
  b <~ of_option (find (tag_class "b" "cat_name") topic) AttributeError ;;
  let topic_text := text (snd b) in
  topic_name <~ of_option (nth_error (split (u ". ") topic_text) 1) IndexError ;;
  topic_id <~ of_option (nth_error (split (u ". ") topic_text) 0) IndexError ;;
  c0 <~ of_option (hd_error topic_id) IndexError ;;
  let topic_id := if (c0 =? 32)%N then skipn 2 topic_id else topic_id in
  let topic_id :=
    if startswith (u "Задания ") topic_id
    then replace (u "Задания ") [] topic_id
    else topic_id in
  children <~ of_option (find (tag_class "div" "cat_children") topic)
                AttributeError ;;
  cats <~ rmap catalog_category
            (find_all (tag_class "div" "cat_category") (snd children)) ;;
  Ok {| c_topic_id := topic_id; c_topic_name := topic_name; categories := cats |}.

Definition get_catalog_body : M (list CatalogTopic) :=
  page <- _get (u "/prob_catalog") None [] ;;
  let soup := soup_of E page in
  catalog <- lift (collect_topics
                     (find_all (tag_class "div" "cat_category") soup) []) ;;
  lift (rmap catalog_topic (tl catalog)).

Definition get_catalog (kw_gia_type kw_subject : option ustring)
  : M (list CatalogTopic) :=
  handle_params get_catalog_body kw_gia_type kw_subject.

End Client.

(** ** Sample environment and pages *)

Module Samples.

Definition ascii_digit (c : char) : bool := ((48 <=? c) && (c <=? 57))%N.

(** [str.isdigit] on ASCII text. *)
Definition ascii_isdigit (s : ustring) : bool :=
  nonempty s && forallb ascii_digit s.

Definition digits_value (s : ustring) : Z :=
  fold_left (fun acc c => (acc * 10 + (Z.of_N c - 48))%Z) s 0%Z.

(** [int] on an optional sign followed by ASCII digits. *)
Definition ascii_int (s : ustring) : option Z :=
  match s with
  | 45%N :: d => if ascii_isdigit d then Some (- digits_value d)%Z else None
  | 43%N :: d => if ascii_isdigit d then Some (digits_value d) else None
  | _ => if ascii_isdigit s then Some (digits_value s) else None
  end.

(** NFKC on text without combining marks whose only characters with a
    compatibility mapping are the no-break space and the superscript and
    subscript minus. *)
Definition nfkc_char (c : char) : char :=
  if (c =? 8315)%N || (c =? 8331)%N then 8722%N
  else if (c =? 160)%N then 32%N
  else c.

Definition nfkc_excerpt (s : ustring) : ustring := map nfkc_char s.

(** The page number a request asks for (1 when it names none). *)
Definition page_of (params : list (string * ustring)) : ustring :=
  match attr_get "page" params with
  | Some p => p
  | None => u "1"
  end.

(** An environment that serves the given pages by number and an empty
    document beyond them; [urljoin] is the join of a host-only base with a
    path that starts with a slash, it raises on a URL with an opening
    bracket and no closing one, and every formula is recognized as x. *)
Definition serve (pages : list node) : Env :=
  {| http_get := fun _ params => Ok (page_of params);
     soup_of := fun h =>
       match ascii_int h with
       | Some k => nth (Z.to_nat k - 1) pages (Elem "[document]" [] [] [])
       | None => Elem "[document]" [] [] []
       end;
     urljoin := fun base url => base ++ url;
     urljoin_raises := fun _ url => contains (u "[") url && negb (contains (u "]") url);
     svg2png := fun b => Ok b;
     first_to_fail := fun _ => 0;
     LatexOCR := Some (fun _ => Ok (u "x"));
     nfkc := nfkc_excerpt;
     isdigit := ascii_isdigit;
     int_of_str := ascii_int |}.

Definition client : SdamGIA :=
  {| gia_type := u "ege"; subject := Some (u "math");
     _latex_ocr_model := None; sent := [] |}.

Definition document (body : list node) : node := Elem "[document]" [] [] body.
Definition div (c : string) (ch : list node) : node := Elem "div" [c] [] ch.
Definition link (href : string) : node := Elem "a" [] [("href", u href)] [].
Definition img (cls : list string) (src : string) : node :=
  Elem "img" cls [("src", u src)] [].

(** A problem page whose block has no related-links block. *)
Definition page_no_minor : node :=
  document [div "prob_maindiv" [div "pbody" [Text (u "2 + 2 = ?")]]].

(** A page without the problem block. *)
Definition page_not_found : node := document [div "content" []].

(** Problem 5 with links to problems 15, 7 and 7 again. *)
Definition page_links : node :=
  document [div "prob_maindiv"
    [div "pbody" [Text (u "2 + 2 = ?")];
     div "minor" [link "/problem?id=15"; link "/problem?id=7";
                  link "/problem?id=7"]]].

Definition page_answer : node :=
  document [div "prob_maindiv"
    [div "pbody" [Text (u "Что дует?")];
     div "answer" [Text (u "Ответ:ветер")];
     div "minor" []]].

Definition topic_block (label : string) : node :=
  div "cat_category"
    [Elem "b" ["cat_name"] [] [Text (u label)];
     div "cat_children"
       [Elem "div" ["cat_category"] [("data-id", u "14")]
          [Elem "a" ["cat_name"] [] [Text (u "Линейные уравнения")]]]].

Definition page_catalog : node :=
  document [topic_block "Каталог"; topic_block "1. Алгебраические выражения"].

(** A listing page: each problem number is a label that ends with a link. *)
Definition prob_nums (n : string) : node :=
  Elem "span" ["prob_nums"] [] [Text (u "Тип 1 № "); Elem "a" [] [] [Text (u n)]].

Definition page_list1 : node := document [prob_nums "101"; prob_nums "102"].
Definition page_list2 : node := document [prob_nums "205"].

Definition part_twice : node :=
  div "pbody" [img ["tex"] "https://ege.sdamgia.ru/formula/1.svg";
               Text (u " + ");
               img ["tex"] "https://ege.sdamgia.ru/formula/1.svg"].

End Samples.
Import Samples.

(** ** Relations on soups used by the statements *)

(** [q] is at or below [p]. *)
Definition below (p q : path) : Prop := exists r, q = p ++ r.

(** Every [img] is a void element, as the HTML parsers build it. *)
Fixpoint void_imgs (n : node) : bool :=
  match n with
  | Text _ => true
  | Elem nm _ _ ch =>
    (if String.eqb nm "img" then match ch with [] => true | _ => false end
     else true) && forallb void_imgs ch
  end.

Section Similar.

Variable similar : node -> node -> Prop.

Fixpoint similar_all (l l' : list node) : Prop :=
  match l, l' with
  | [], [] => True
  | x :: r, y :: r' => similar x y /\ similar_all r r'
  | _, _ => False
  end.

End Similar.

(** Two soups that differ only in their [img] tags: the attributes of an
    [img] may differ, and a void [img] may have become a string. *)
Fixpoint similar (n m : node) {struct n} : Prop :=
  match n, m with
  | Text s, Text s' => s = s'
  | Elem nm cls a ch, Elem nm' cls' a' ch' =>
    nm = nm' /\ cls = cls' /\ (nm <> "img" -> a = a') /\ similar_all similar ch ch'
  | Elem nm _ _ ch, Text _ => nm = "img" /\ ch = []
  | Text _, Elem _ _ _ _ => False
  end.

(** Two found tags at the same place that are similar. *)
Definition same_place (x y : path * node) : Prop :=
  fst x = fst y /\ similar (snd x) (snd y).

(** A selector that cannot tell two similar tags apart. *)
Definition stable (P : node -> bool) : Prop :=
  forall n n', similar n n' -> P n = P n'.

(** The part that [_get_problem_part] builds without recognition. *)
Definition plain_part (tag : node) : ProblemPart :=
  {| text_ := []; html := tag; image_links := all_links tag (tex_links tag) |}.

(** What a [try] block with a default leaves of an outcome. *)
Definition caught {A} (r : result (A * node)) : option A :=
  match r with
  | Ok x => Some (fst x)
  | _ => None
  end.

(** The URLs of [l] that are not yet in [seen], each at its first
    occurrence. *)
Fixpoint first_new (seen l : list (option ustring)) : list (option ustring) :=
  match l with
  | [] => []
  | None :: r => first_new seen r
  | Some x :: r =>
    if existsb (option_eqb (Some x)) seen
    then first_new seen r
    else Some x :: first_new (seen ++ [Some x]) r
  end.

(** The [src] of every image of a tag, in document order. *)
Definition img_srcs (tag : node) : list (option ustring) :=
  map (fun img => tag_get (snd img) "src") (find_all (is_tag "img") tag).

(** The value a call returned, if it returned. *)
Definition returned {A} (out : result A * SdamGIA) : option A :=
  match fst out with
  | Ok a => Some a
  | _ => None
  end.

(** The client while a call with the given keyword arguments runs. *)
Definition overridden (kw_gia_type kw_subject : option ustring) (self : SdamGIA)
  : SdamGIA :=
  let self := match kw_gia_type with
              | Some g => with_gia_type g self
              | None => self
              end in
  match kw_subject with
  | Some s => with_subject (Some s) self
  | None => self
  end.

(** The request for one page of search results, and the ids it yields. *)
Definition search_request (E : Env) (self : SdamGIA) (query : ustring) (page : Z)
  : ustring * list (string * ustring) :=
  (urljoin E (base_url self) (u "/search"),
   [("search", query); ("page", str_of_int page)]).

Definition search_page (E : Env) (self : SdamGIA) (query : ustring) (page : Z)
  : result (list Z) :=
  html_ <~ http_get E (fst (search_request E self query page))
             (snd (search_request E self query page)) ;;
  rmap (prob_num E) (find_all (tag_class "span" "prob_nums") (soup_of E html_)).

(** The same for one page of a theme listing. *)
Definition theme_request (E : Env) (self : SdamGIA) (theme_id : Z) (page : Z)
  : ustring * list (string * ustring) :=
  (urljoin E (base_url self) (u "/test"),
   [("theme", str_of_int theme_id); ("page", str_of_int page)]).

Definition theme_page (E : Env) (self : SdamGIA) (theme_id : Z) (page : Z)
  : result (list ustring) :=
  html_ <~ http_get E (fst (theme_request E self theme_id page))
             (snd (theme_request E self theme_id page)) ;;
  rmap theme_label (find_all (tag_class "span" "prob_nums") (soup_of E html_)).

(** Pages [first], [first + 1], ..., [count] of them. *)
Definition pages (first : Z) (count : nat) : list Z :=
  map (fun i => (first + Z.of_nat i)%Z) (seq 0 count).

(** The URL of a problem page. *)
Definition problem_url (E : Env) (self : SdamGIA) (problem_id : Z) : ustring :=
  urljoin E (base_url self) (u "/problem?id=" ++ str_of_int problem_id).

(** The client once the problem page has been requested. *)
Definition after_request (E : Env) (self : SdamGIA) (problem_id : Z) : SdamGIA :=
  with_sent (sent self ++ [(problem_url E self problem_id, [])]) self.

(** A fragment in which the [src] of every image that does not hold the
    base domain has been joined to the base URL, and nothing else has
    changed. *)
Fixpoint absolute_srcs (join : ustring -> ustring) (n : node) : node :=
  match n with
  | Text _ => n
  | Elem nm cls a ch =>
    Elem nm cls
      (if String.eqb nm "img"
       then match attr_get "src" a with
            | Some src =>
              if contains BASE_DOMAIN src then a
              else attr_set "src" (join src) a
            | None => a
            end
       else a)
      (map (absolute_srcs join) ch)
  end.

(** A page whose first body block is a banner outside the problem block;
    the problem block holds the condition, a second body block, the answer
    and four related links. *)
Definition page_outside : node :=
  document
    [div "pbody" [Text (u "Реклама"); img [] "/banner.png"];
     div "prob_maindiv"
       [div "pbody" [Text (u "x = "); img ["tex"] "/formula/1.svg"];
        div "pbody" [Text (u "Решение."); img [] "/pic.png";
                     img [] "https://ege.sdamgia.ru/pic.png"];
        div "answer" [Text (u "Ответ: 4")];
        div "minor" [link "/problem?id=31"; link "/problem?id=7";
                     link "/problem?id=15"; link "/problem?id=7"]]].

Definition no_problem : Problem :=
  {| p_gia_type := []; p_subject := None; problem_id := 0; condition := None;
     solution := None; answer := []; topic_id := None; analogs := [] |}.

Definition problem_of (out : result Problem * SdamGIA) : Problem :=
  match fst out with
  | Ok pr => pr
  | _ => no_problem
  end.

(** Problem 5 of that page, with and without recognition. *)
Definition recognized_outside : result Problem * SdamGIA :=
  Eval vm_compute in
    get_problem_by_id (serve [page_outside]) 5 true None None client.

Definition plain_outside : result Problem * SdamGIA :=
  Eval vm_compute in
    get_problem_by_id (serve [page_outside]) 5 false None None client.

(** The solution part of the sample problem without recognition. *)
Definition solution_outside : ProblemPart :=
  Eval vm_compute in
    match solution (problem_of plain_outside) with
    | Some part => part
    | None => plain_part (Text [])
    end.

(** ** The remaining entry points *)

(** [get_test_by_id]: one page, the extraction rule of [search]. *)
Definition get_test_by_id_body (E : Env) (test_id : Z) : M (list Z) :=
  page <- _get E (u "/test?id=" ++ str_of_int test_id) None [] ;;
  lift (rmap (prob_num E)
          (find_all (tag_class "span" "prob_nums") (soup_of E page))).

Definition get_test_by_id (E : Env) (test_id : Z)
  (kw_gia_type kw_subject : option ustring) : M (list Z) :=
  handle_params (get_test_by_id_body E test_id) kw_gia_type kw_subject.

(** [self._session.get(url, params=params, allow_redirects=False)]: the
    [Location] header of the response, if it has one. *)
Record Redirects : Type := {
  location : ustring -> list (string * ustring) -> result (option ustring);
}.

(** [(await self._session.get(...)).headers["location"]] *)
Definition get_location (R : Redirects) (url : ustring)
  (params : list (string * ustring)) : M ustring :=
  fun self =>
    (header <~ location R url params ;; of_option header KeyError,
     with_sent (sent self ++ [(url, params)]) self).

(** [problems[k]] and ["full" in problems], the keys kept as their text. *)
Fixpoint dict_find (k : string) (d : list (string * Z)) : option Z :=
  match d with
  | [] => None
  | (k', v) :: r => if String.eqb k' k then Some v else dict_find k r
  end.

(** [f"prob{i}"] *)
Definition prob_key (i : string) : string := String.append "prob" i.

Definition decimal (n : nat) : string :=
  NilZero.string_of_int (Z.to_int (Z.of_nat n)).

Definition generate_test_body (E : Env) (R : Redirects)
  (problems : option (list (string * Z))) : M ustring :=
  let problems := match problems with
                  | Some p => p
                  | None => [("full", 1%Z)]
                  end in
  params <- match dict_find "full" problems with
            | Some full =>
              catalog <- get_catalog E None None ;;
              ret (map (fun i => (prob_key (decimal i), str_of_int full))
                     (seq 1 (length catalog)))
            | None =>
              ret (map (fun kv => (prob_key (fst kv), str_of_int (snd kv)))
                     problems)
            end ;;
  self <- get_self ;;
  header <- get_location R (base_url self ++ u "/test?a=generate") params ;;
  tail_ <- lift (of_option (nth_error (split (u "id=") header) 1) IndexError) ;;
  lift (of_option (nth_error (split (u "&nt") tail_) 0) IndexError).

Definition generate_test (E : Env) (R : Redirects)
  (problems : option (list (string * Z)))
  (kw_gia_type kw_subject : option ustring) : M ustring :=
  handle_params (generate_test_body E R problems) kw_gia_type kw_subject.

(** [str(b)] for a [bool]. *)
Definition str_of_bool (b : bool) : ustring :=
  if b then u "True" else u "False".

Definition generate_pdf_body (E : Env) (R : Redirects) (test_id : Z)
  (solution nums answers key crit instruction : bool) (col tt pdf : ustring)
  : M ustring :=
  let params :=
    [("id", str_of_int test_id); ("print", u "true"); ("pdf", pdf);
     ("sol", str_of_bool solution); ("num", str_of_bool nums);
     ("ans", str_of_bool answers); ("key", str_of_bool key);
     ("crit", str_of_bool crit); ("pre", str_of_bool instruction);
     ("dcol", col); ("tt", tt)] in
  self <- get_self ;;
  let base := base_url self in
  header <- get_location R (base_url self ++ u "/test") params ;;
  lift (checked_urljoin E base header).

Definition generate_pdf (E : Env) (R : Redirects) (test_id : Z)
  (solution nums answers key crit instruction : bool) (col tt pdf : ustring)
  (kw_gia_type kw_subject : option ustring) : M ustring :=
  handle_params
    (generate_pdf_body E R test_id solution nums answers key crit instruction
       col tt pdf)
    kw_gia_type kw_subject.

(** A coroutine that leaves the exam type and the subject of the client
    as it found them, whatever its outcome. *)
Definition keeps_scope {A} (m : M A) : Prop :=
  forall self, gia_type (snd (m self)) = gia_type self /\
               subject (snd (m self)) = subject self.

(** A problem page with an image that has no [src] in the problem block. *)
Definition page_no_src : node :=
  document [div "prob_maindiv"
    [div "pbody" [Text (u "2 + 2 = ?"); Elem "img" [] [] []];
     div "minor" []]].

(** A problem page with a topic label. *)
Definition page_topic : node :=
  document [div "prob_maindiv"
    [Elem "span" ["prob_nums"] [] [Text (u "Тип 12 № 26664")];
     div "pbody" [Text (u "2 + 2 = ?"); img [] "/pic.png"];
     div "answer" [Text (u "  Ответ: 4  ")];
     div "minor" [link "/problem?id=26665"]]].

Definition plain_topic : result Problem * SdamGIA :=
  Eval vm_compute in
    get_problem_by_id (serve [page_topic]) 26664 false (Some (u "oge")) None
      client.

(** A coroutine that leaves one attribute of the client as it found it,
    whatever its outcome. *)
Definition keeps {A X} (field : SdamGIA -> X) (m : M A) : Prop :=
  forall self, field (snd (m self)) = field self.

(** The URL [get_image_from_url] requests for a link. *)
Definition image_url (E : Env) (self : SdamGIA) (link : option ustring)
  : ustring :=
  match link with
  | Some (c :: r) => c :: r
  | _ => urljoin E (base_url self) []
  end.

(** A fragment with a formula, a picture, and the formula again. *)
Definition part_mixed : node :=
  div "pbody" [img ["tex"] "https://ege.sdamgia.ru/formula/1.svg";
               Text (u " − ");
               img [] "https://ege.sdamgia.ru/pic.png";
               img ["tex"] "https://ege.sdamgia.ru/formula/1.svg"].

Definition recognized_mixed : result (ProblemPart * node) * SdamGIA :=
  Eval vm_compute in
    _get_problem_part (serve []) (Some part_mixed) true client.

Definition part_of_mixed : ProblemPart :=
  Eval vm_compute in
    match fst recognized_mixed with
    | Ok x => fst x
    | _ => plain_part (Text [])
    end.

Definition tag_of_mixed : node :=
  Eval vm_compute in
    match fst recognized_mixed with
    | Ok x => snd x
    | _ => Text []
    end.

(** A fragment without formulas. *)
Definition part_plain : node :=
  div "pbody" [Text (u " 2 − 2 "); img [] "/pic.png"].

(** The sample environment without [pix2tex]. *)
Definition serve_without_ocr (pages : list node) : Env :=
  {| http_get := http_get (serve pages); soup_of := soup_of (serve pages);
     urljoin := urljoin (serve pages);
     urljoin_raises := urljoin_raises (serve pages);
     svg2png := svg2png (serve pages);
     first_to_fail := first_to_fail (serve pages);
     LatexOCR := None; nfkc := nfkc (serve pages);
     isdigit := isdigit (serve pages); int_of_str := int_of_str (serve pages) |}.

(** An environment whose listing has an id on every page. *)
Definition serve_endless : Env :=
  {| http_get := http_get (serve []); soup_of := fun _ => page_list2;
     urljoin := urljoin (serve []);
     urljoin_raises := urljoin_raises (serve []);
     svg2png := svg2png (serve []);
     first_to_fail := first_to_fail (serve []);
     LatexOCR := LatexOCR (serve []); nfkc := nfkc (serve []);
     isdigit := isdigit (serve []); int_of_str := int_of_str (serve []) |}.

(** An environment that serves the given pages and fails beyond them. *)
Definition serve_then_fail (pages : list node) : Env :=
  {| http_get := fun url params =>
       match ascii_int (page_of params) with
       | Some k =>
         if (Z.to_nat k <=? length pages)%nat then Ok (page_of params)
         else Raise ClientError
       | None => Raise ClientError
       end;
     soup_of := soup_of (serve pages);
     urljoin := urljoin (serve pages);
     urljoin_raises := urljoin_raises (serve pages);
     svg2png := svg2png (serve pages);
     first_to_fail := first_to_fail (serve pages);
     LatexOCR := LatexOCR (serve pages); nfkc := nfkc (serve pages);
     isdigit := isdigit (serve pages); int_of_str := int_of_str (serve pages) |}.

(** The request for the listing of a test. *)
Definition test_request (E : Env) (self : SdamGIA) (test_id : Z)
  : ustring * list (string * ustring) :=
  (urljoin E (base_url self) (u "/test?id=" ++ str_of_int test_id), []).

(** A block that carries the attribute [k]. *)
Definition has_attr (k : string) (i : path * node) : bool :=
  match tag_get (snd i) k with Some _ => true | None => false end.

(** The request for the catalog page. *)
Definition catalog_request (E : Env) (self : SdamGIA)
  : ustring * list (string * ustring) :=
  (urljoin E (base_url self) (u "/prob_catalog"), []).

(** A test page with two labels, and one whose second label has no
    number. *)
Definition page_test : node := document [prob_nums "31"; prob_nums "7"].
Definition page_test_blank : node :=
  document [prob_nums "31"; Elem "span" ["prob_nums"] [] [Text (u "  ")]].

(** A catalog page on which every block carries [data-id]. *)
Definition page_categories : node :=
  document
    [Elem "div" ["cat_category"] [("data-id", u "14")] [];
     Elem "div" ["cat_category"] [("data-id", u "15")] []].

(** The code point of "i", the first character of the separator "id=". *)
Definition letter_i : char := 105%N.

(** The parameters of a generation request for an explicit choice of
    problems, and the request itself. *)
Definition count_params (problems : list (string * Z))
  : list (string * ustring) :=
  map (fun kv => (prob_key (fst kv), str_of_int (snd kv))) problems.

Definition generate_url (self : SdamGIA) : ustring :=
  base_url self ++ u "/test?a=generate".

(** The parameters of a request for the PDF version of a test. *)
Definition pdf_params (test_id : Z)
  (solution nums answers key crit instruction : bool) (col tt pdf : ustring)
  : list (string * ustring) :=
  [("id", str_of_int test_id); ("print", u "true"); ("pdf", pdf);
   ("sol", str_of_bool solution); ("num", str_of_bool nums);
   ("ans", str_of_bool answers); ("key", str_of_bool key);
   ("crit", str_of_bool crit); ("pre", str_of_bool instruction);
   ("dcol", col); ("tt", tt)].

(** A site that answers every request with the same [Location] header, or
    with none. *)
Definition redirects (header : option ustring) : Redirects :=
  {| location := fun _ _ => Ok header |}.

(** What the rewriting loop of [get_problem_by_id] raises at one image:
    [KeyError] when the image has no [src], [ValueError] when the [src]
    does not hold the base domain and [urljoin] raises on it, and
    nothing otherwise. *)
Definition src_error (E : Env) (base : ustring) (n : node) : option exn :=
  match tag_get n "src" with
  | None => Some KeyError
  | Some src =>
    if negb (contains BASE_DOMAIN src) && urljoin_raises E base src
    then Some ValueError
    else None
  end.

Definition image_error (E : Env) (base : ustring) (n : node) : option exn :=
  if is_tag "img" n then src_error E base n else None.

Fixpoint first_error (l : list (option exn)) : option exn :=
  match l with
  | [] => None
  | Some e :: _ => Some e
  | None :: r => first_error r
  end.

(** A problem page with a well-formed image, then one whose [src] cannot
    be joined, then one without [src]. *)
Definition page_bad_src : node :=
  document [div "prob_maindiv"
    [div "pbody" [img [] "/pic.png"; img [] "//["; Elem "img" [] [] []];
     div "minor" []]].

(** A condition with one formula image and one picture whose relative
    [src] holds the text of the base domain. *)
Definition page_lookalike : node :=
  document [div "prob_maindiv"
    [div "pbody" [Text (u "x = ");
                  img ["tex"] "https://ege.sdamgia.ru/formula/1.svg";
                  img [] "/files/sdamgia.ru/pic.png"];
     div "minor" []]].


(** ** The soup: paths, search and in-place change *)

Lemma node_ind (P : node -> Prop) :
  (forall s, P (Text s)) ->
  (forall nm cls a ch, Forall P ch -> P (Elem nm cls a ch)) ->
  forall n, P n.
Proof.
  intros HT HE. fix IH 1. intros [s | nm cls a ch].
  - apply HT.
  - apply HE. induction ch as [| c r IHr]; constructor; [apply IH | exact IHr].
Qed.

Lemma descendants_from_In (i : nat) (ch : list node) (p : path) (n : node) :
  In (p, n) (descendants_from descendants i ch) ->
  exists j c, nth_error ch j = Some c /\
    (p = [i + j] /\ n = c \/
     exists q, p = (i + j) :: q /\ In (q, n) (descendants c)).
Proof.
  revert i. induction ch as [| c r IH]; intros i H; simpl in H.
  - contradiction.
  - destruct H as [H | H].
    + inversion H; subst. exists 0, n. simpl. split; [reflexivity |].
      left. rewrite Nat.add_0_r. auto.
    + apply in_app_or in H. destruct H as [H | H].
      * apply in_map_iff in H. destruct H as [[q m] [Hq Hin]].
        unfold under in Hq. simpl in Hq. inversion Hq; subst.
        exists 0, c. simpl. split; [reflexivity |]. right. exists q.
        rewrite Nat.add_0_r. auto.
      * apply IH in H. destruct H as [j [c' [Hn Hc]]].
        exists (S j), c'. simpl. split; [exact Hn |].
        replace (i + S j) with (S i + j) by lia. exact Hc.
Qed.

Lemma descendants_get (t : node) :
  forall p n, In (p, n) (descendants t) -> get t p = Some n.
Proof.
  induction t as [s | nm cls a ch IH] using node_ind; intros p n H.
  - contradiction.
  - simpl in H. apply descendants_from_In in H.
    destruct H as [j [c [Hn [[Hp Hc] | [q [Hp Hin]]]]]]; subst; simpl in *;
      rewrite Hn.
    + reflexivity.
    + rewrite Forall_forall in IH. apply IH; [| exact Hin].
      eapply nth_error_In; eauto.
Qed.

Lemma find_all_get (P : node -> bool) (t : node) (p : path) (n : node) :
  In (p, n) (find_all P t) -> get t p = Some n /\ P n = true.
Proof.
  unfold find_all. intros H. apply filter_In in H. destruct H as [H HP].
  split; [apply descendants_get; exact H | exact HP].
Qed.

Lemma find_get (P : node -> bool) (t : node) (p : path) (n : node) :
  find P t = Some (p, n) -> get t p = Some n /\ P n = true.
Proof.
  unfold find. intros H. apply find_all_get.
  destruct (find_all P t); [discriminate | inversion H; subst; left; reflexivity].
Qed.

Lemma get_app (t : node) (p q : path) :
  get t (p ++ q) = match get t p with Some n => get n q | None => None end.
Proof.
  revert t. induction p as [| i p IH]; intros t; simpl.
  - reflexivity.
  - destruct t as [s | nm cls a ch]; [reflexivity |].
    destruct (nth_error ch i); [apply IH | reflexivity].
Qed.

Lemma nth_error_update_nth {A} (f : A -> A) (l : list A) (i : nat) :
  nth_error (update_nth i f l) i = option_map f (nth_error l i).
Proof.
  revert i. induction l as [| a r IH]; intros [| i]; simpl; auto.
Qed.


Lemma update_nth_same {A} (f : A -> A) (l : list A) (i : nat) (a : A) :
  nth_error l i = Some a -> f a = a -> update_nth i f l = l.
Proof.
  revert i. induction l as [| b r IH]; intros [| i] H Hf; simpl in *; auto.
  - inversion H; subst. rewrite Hf. reflexivity.
  - f_equal. eapply IH; eauto.
Qed.

Lemma get_set_same (t : node) (p : path) (n m : node) :
  get t p = Some n -> get (set t p m) p = Some m.
Proof.
  revert t. induction p as [| i p IH]; intros t H; simpl in *.
  - reflexivity.
  - destruct t as [s | nm cls a ch]; [discriminate |].
    rewrite nth_error_update_nth.
    destruct (nth_error ch i) as [c |]; [| discriminate]. simpl.
    apply IH. exact H.
Qed.

Lemma set_same (t : node) (p : path) (n : node) :
  get t p = Some n -> set t p n = t.
Proof.
  revert t. induction p as [| i p IH]; intros t H; simpl in *.
  - inversion H. reflexivity.
  - destruct t as [s | nm cls a ch]; [discriminate |].
    destruct (nth_error ch i) as [c |] eqn:Hc; [| discriminate].
    f_equal. eapply update_nth_same; eauto.
Qed.

Lemma get_set_below (t : node) (p q : path) (n m : node) :
  get t p = Some n -> get (set t p m) (p ++ q) = get m q.
Proof.
  intros H. rewrite get_app. erewrite get_set_same; eauto.
Qed.


Lemma similar_all_Forall2 (l l' : list node) :
  similar_all similar l l' <-> Forall2 similar l l'.
Proof.
  revert l'. induction l as [| x r IH]; intros [| y r']; simpl.
  - split; intros _; constructor.
  - split; [contradiction | intros H; inversion H].
  - split; [contradiction | intros H; inversion H].
  - split.
    + intros [Hx Hr]. constructor; [exact Hx | apply IH; exact Hr].
    + intros H. inversion H; subst. split; [assumption | apply IH; assumption].
Qed.

Lemma similar_refl (n : node) : similar n n.
Proof.
  induction n as [s | nm cls a ch IH] using node_ind; simpl.
  - reflexivity.
  - repeat split; auto. apply similar_all_Forall2.
    induction IH; constructor; auto.
Qed.

Lemma similar_all_nil_r (l : list node) : similar_all similar l [] -> l = [].
Proof. destruct l; simpl; [reflexivity | contradiction]. Qed.

Lemma similar_trans (a : node) :
  forall b c, similar a b -> similar b c -> similar a c.
Proof.
  induction a as [s | nm cls at_ ch IH] using node_ind; intros b c Hab Hbc.
  - destruct b; simpl in Hab; [subst | contradiction]. exact Hbc.
  - destruct b as [s | nm' cls' at' ch']; simpl in Hab.
    + destruct c; simpl in Hbc; [| contradiction]. exact Hab.
    + destruct Hab as [-> [-> [Hat Hch]]].
      destruct c as [s | nm'' cls'' at'' ch'']; simpl in Hbc.
      * destruct Hbc as [-> ->]. simpl. split; [reflexivity |].
        apply similar_all_nil_r. exact Hch.
      * destruct Hbc as [-> [-> [Hat' Hch']]]. simpl.
        repeat split; auto.
        -- intros Hn. rewrite Hat by exact Hn. apply Hat'. exact Hn.
        -- apply similar_all_Forall2. apply similar_all_Forall2 in Hch, Hch'.
           clear Hat Hat'. revert ch'' Hch'.
           induction Hch as [| x y r r' Hxy Hr IHr]; intros ch'' Hch';
             inversion Hch'; subst; constructor.
           ++ inversion IH; subst. eauto.
           ++ inversion IH; subst. eauto.
Qed.

Lemma Forall2_filter {A} (R : A -> A -> Prop) (f g : A -> bool) (l l' : list A) :
  (forall x y, R x y -> f x = g y) ->
  Forall2 R l l' -> Forall2 R (filter f l) (filter g l').
Proof.
  intros Hfg H. induction H as [| x y r r' Hxy Hr IH]; simpl.
  - constructor.
  - rewrite (Hfg _ _ Hxy). destruct (g y); [constructor |]; assumption.
Qed.

Lemma Forall2_map_under (i : nat) (l l' : list (path * node)) :
  Forall2 same_place l l' -> Forall2 same_place (map (under i) l) (map (under i) l').
Proof.
  intros H. induction H as [| x y r r' [Hp Hs] Hr IH]; simpl; constructor; auto.
  split; simpl; [rewrite Hp; reflexivity | exact Hs].
Qed.

Lemma similar_descendants (t : node) :
  forall t', similar t t' -> Forall2 same_place (descendants t) (descendants t').
Proof.
  induction t as [s | nm cls a ch IH] using node_ind; intros t' H.
  - destruct t'; simpl in H; [constructor | contradiction].
  - destruct t' as [s | nm' cls' a' ch']; simpl in H.
    + destruct H as [_ ->]. constructor.
    + destruct H as [_ [_ [_ Hch]]]. simpl.
      apply similar_all_Forall2 in Hch. generalize 0 as i.
      induction Hch as [| x y r r' Hxy Hr IHr]; intros i; simpl.
      * constructor.
      * inversion IH; subst. constructor; [split; [reflexivity | exact Hxy] |].
        apply Forall2_app; [apply Forall2_map_under; auto | apply IHr; assumption].
Qed.

Lemma similar_find_all (P : node -> bool) (t t' : node) :
  stable P -> similar t t' -> Forall2 same_place (find_all P t) (find_all P t').
Proof.
  intros HP H. unfold find_all. apply Forall2_filter.
  - intros x y [_ Hs]. apply HP. exact Hs.
  - apply similar_descendants. exact H.
Qed.

Lemma similar_find (P : node -> bool) (t t' : node) :
  stable P -> similar t t' ->
  match find P t, find P t' with
  | Some x, Some y => same_place x y
  | None, None => True
  | _, _ => False
  end.
Proof.
  intros HP H. unfold find.
  destruct (@similar_find_all P t t' HP H); simpl; auto.
Qed.

Lemma stable_tag_class (name c : string) : name <> "img" -> stable (tag_class name c).
Proof.
  intros Hn [s | nm cls a ch] [s' | nm' cls' a' ch'] H; simpl in H;
    try reflexivity; try contradiction.
  - destruct H as [-> _]. unfold tag_class. simpl.
    destruct (String.eqb_spec "img" name); [congruence | reflexivity].
  - destruct H as [-> [-> _]]. reflexivity.
Qed.

Lemma stable_is_tag (name : string) : name <> "img" -> stable (is_tag name).
Proof.
  intros Hn [s | nm cls a ch] [s' | nm' cls' a' ch'] H; simpl in H;
    try reflexivity; try contradiction.
  - destruct H as [-> _]. simpl.
    destruct (String.eqb_spec "img" name); [congruence | reflexivity].
  - destruct H as [-> _]. reflexivity.
Qed.

Lemma similar_get (p : path) :
  forall t t' n, similar t t' -> get t p = Some n ->
  exists n', get t' p = Some n' /\ similar n n'.
Proof.
  induction p as [| i q IH]; intros t t' n H Hg; simpl in *.
  - inversion Hg; subst. eauto.
  - destruct t as [s | nm cls a ch]; [discriminate |].
    destruct (nth_error ch i) as [c |] eqn:Hc; [| discriminate].
    destruct t' as [s | nm' cls' a' ch']; simpl in H.
    + destruct H as [_ ->]. destruct i; discriminate.
    + destruct H as [_ [_ [_ Hch]]]. apply similar_all_Forall2 in Hch.
      revert i Hc. induction Hch as [| x y r r' Hxy Hr IHr]; intros i Hc.
      * destruct i; discriminate.
      * destruct i; simpl in *.
        -- inversion Hc; subst. eapply IH; eauto.
        -- apply IHr. exact Hc.
Qed.

Lemma similar_set (p : path) :
  forall t n n', get t p = Some n -> similar n n' -> similar t (set t p n').
Proof.
  induction p as [| i q IH]; intros t n n' Hg H; simpl in *.
  - inversion Hg; subst. exact H.
  - destruct t as [s | nm cls a ch]; [discriminate |].
    destruct (nth_error ch i) as [c |] eqn:Hc; [| discriminate]. simpl.
    repeat split; auto. apply similar_all_Forall2.
    revert i Hc. induction ch as [| x r IHr]; intros i Hc.
    + destruct i; discriminate.
    + destruct i; simpl in *.
      * inversion Hc; subst. constructor; [eapply IH; eauto |].
        apply similar_all_Forall2, (similar_refl (Elem nm cls a r)).
      * constructor; [apply similar_refl | apply IHr; exact Hc].
Qed.

Lemma similar_void (t : node) :
  forall t', similar t t' -> void_imgs t = true -> void_imgs t' = true.
Proof.
  induction t as [s | nm cls a ch IH] using node_ind; intros t' H Hv.
  - destruct t'; simpl in H; [reflexivity | contradiction].
  - destruct t' as [s | nm' cls' a' ch']; [reflexivity |]. simpl in H.
    destruct H as [<- [_ [_ Hch]]]. apply similar_all_Forall2 in Hch.
    simpl in *. apply andb_true_iff in Hv. destruct Hv as [Hi Hv].
    apply andb_true_iff. split.
    + destruct (String.eqb nm "img"); [| reflexivity].
      destruct ch; [| discriminate]. inversion Hch. reflexivity.
    + clear Hi. induction Hch as [| x y r r' Hxy Hr IHr]; [reflexivity |].
      simpl in *. apply andb_true_iff in Hv. destruct Hv as [Hx Hv].
      inversion IH; subst. apply andb_true_iff. split; auto.
Qed.

Lemma void_get (p : path) :
  forall t n, void_imgs t = true -> get t p = Some n -> void_imgs n = true.
Proof.
  induction p as [| i q IH]; intros t n Hv Hg; simpl in *.
  - inversion Hg; subst. exact Hv.
  - destruct t as [s | nm cls a ch]; [discriminate |].
    destruct (nth_error ch i) as [c |] eqn:Hc; [| discriminate].
    simpl in Hv. apply andb_true_iff in Hv. destruct Hv as [_ Hv].
    rewrite forallb_forall in Hv. eapply IH; eauto.
    apply Hv. eapply nth_error_In; eauto.
Qed.

(** ** Outcomes *)

Lemma rbind_Ok {A B} (r : result A) (k : A -> result B) (b : B) :
  rbind r k = Ok b -> exists a, r = Ok a /\ k a = Ok b.
Proof. destruct r; simpl; intros H; try discriminate. eauto. Qed.

Lemma rmap_Ok {A B} (f : A -> result B) (l : list A) :
  forall l', rmap f l = Ok l' -> Forall2 (fun x y => f x = Ok y) l l'.
Proof.
  induction l as [| a r IH]; intros l' H; simpl in H.
  - inversion H. constructor.
  - apply rbind_Ok in H. destruct H as [b [Hb H]].
    apply rbind_Ok in H. destruct H as [bs [Hbs H]]. inversion H; subst.
    constructor; auto.
Qed.

Lemma rmap_ext_Forall2 {A B} (R : A -> A -> Prop) (f g : A -> result B)
  (l l' : list A) :
  (forall x y, R x y -> f x = g y) -> Forall2 R l l' -> rmap f l = rmap g l'.
Proof.
  intros Hfg H. induction H as [| x y r r' Hxy Hr IH]; simpl.
  - reflexivity.
  - rewrite (Hfg _ _ Hxy), IH. reflexivity.
Qed.

Lemma bind_Ok {A B} (m : M A) (k : A -> M B) (self self' : SdamGIA) (b : B) :
  bind m k self = (Ok b, self') ->
  exists a s1, m self = (Ok a, s1) /\ k a s1 = (Ok b, self').
Proof.
  unfold bind. destruct (m self) as [[a | e |] s1]; intros H; try discriminate.
  eauto.
Qed.

Lemma lift_Ok {A} (r : result A) (self self' : SdamGIA) (a : A) :
  lift r self = (Ok a, self') -> r = Ok a /\ self' = self.
Proof. unfold lift. intros H. inversion H. auto. Qed.

Lemma ret_Ok {A} (x a : A) (self self' : SdamGIA) :
  ret x self = (Ok a, self') -> a = x /\ self' = self.
Proof. unfold ret. intros H. inversion H. auto. Qed.

(** ** The two in-place changes keep the soup similar *)

Section Changes.

Variable E : Env.

Lemma rewrite_imgs_similar (base : ustring) (n : node) :
  forall n', rewrite_imgs E base n = Ok n' -> similar n n'.
Proof.
  induction n as [s | nm cls a ch IH] using node_ind; intros n' H; simpl in H.
  - inversion H. reflexivity.
  - apply rbind_Ok in H. destruct H as [a' [Ha H]].
    apply rbind_Ok in H. destruct H as [ch' [Hch H]]. inversion H; subst.
    simpl. repeat split; auto.
    + intros Hn. destruct (String.eqb_spec nm "img"); [contradiction |].
      inversion Ha. reflexivity.
    + apply similar_all_Forall2. apply rmap_Ok in Hch.
      induction Hch; inversion IH; subst; constructor; auto.
Qed.

Lemma rewrite_block_similar (base : ustring) (b b' : node) :
  rewrite_block E base b = Ok b' -> similar b b'.
Proof.
  destruct b as [s | nm cls a ch]; simpl; intros H.
  - inversion H. reflexivity.
  - apply rbind_Ok in H. destruct H as [ch' [Hch H]]. inversion H; subst.
    simpl. repeat split; auto. apply similar_all_Forall2. apply rmap_Ok in Hch.
    induction Hch; constructor; auto. eapply rewrite_imgs_similar; eauto.
Qed.

Lemma replace_tex_similar (d : list (option ustring * ustring)) (n : node) :
  forall n', void_imgs n = true -> replace_tex d n = Ok n' -> similar n n'.
Proof.
  induction n as [s | nm cls a ch IH] using node_ind; intros n' Hv H; simpl in H.
  - inversion H. reflexivity.
  - apply rbind_Ok in H. destruct H as [ch' [Hch H]]. inversion H; subst.
    simpl. repeat split; auto. apply similar_all_Forall2. apply rmap_Ok in Hch.
    simpl in Hv. apply andb_true_iff in Hv. destruct Hv as [_ Hv].
    induction Hch as [| x y r r' Hxy Hr IHr]; constructor.
    + simpl in Hv. apply andb_true_iff in Hv. destruct Hv as [Hx _].
      inversion IH; subst.
      destruct (tag_class "img" "tex" x) eqn:Hx'; [| auto].
      apply rbind_Ok in Hxy. destruct Hxy as [t [_ Ht]]. inversion Ht; subst.
      destruct x as [s | nm' cls' a' ch'']; [discriminate |].
      unfold tag_class, is_tag in Hx'. apply andb_true_iff in Hx'.
      destruct Hx' as [Hn _]. apply String.eqb_eq in Hn. subst nm'.
      simpl in Hx. destruct ch''; [simpl; auto | discriminate].
    + simpl in Hv. apply andb_true_iff in Hv. destruct Hv as [_ Hv].
      inversion IH; subst. apply IHr; auto.
Qed.

End Changes.

(** ** The scope override of [handle_params] *)

Lemma handle_params_returns {A} (method : M A) (kg ks : option ustring)
  (self s2 : SdamGIA) (r : A) :
  method (overridden kg ks self) = (Ok r, s2) ->
  handle_params method kg ks self
  = (Ok r, with_subject (subject self) (with_gia_type (gia_type self) s2)).
Proof.
  intros H. unfold handle_params, bind, get_self, modify, ret, overridden in *.
  rewrite H. reflexivity.
Qed.

Lemma handle_params_raises {A} (method : M A) (kg ks : option ustring)
  (self s2 : SdamGIA) (e : exn) :
  method (overridden kg ks self) = (Raise e, s2) ->
  handle_params method kg ks self = (Raise e, s2).
Proof.
  intros H. unfold handle_params, bind, get_self, modify, ret, overridden in *.
  rewrite H. reflexivity.
Qed.

Lemma handle_params_Ok {A} (method : M A) (kg ks : option ustring)
  (self self' : SdamGIA) (r : A) :
  handle_params method kg ks self = (Ok r, self') ->
  exists s2, method (overridden kg ks self) = (Ok r, s2) /\
    self' = with_subject (subject self) (with_gia_type (gia_type self) s2).
Proof.
  unfold handle_params, bind, get_self, modify, ret, overridden.
  destruct (method _) as [[a | e |] s2]; intros H; inversion H; eauto.
Qed.

(** The scope is restored when the wrapped call returns. *)
Lemma handle_params_restores {A} (method : M A) (kg ks : option ustring)
  (self self' : SdamGIA) (r : A) :
  handle_params method kg ks self = (Ok r, self') ->
  gia_type self' = gia_type self /\ subject self' = subject self.
Proof.
  intros H. apply handle_params_Ok in H. destruct H as [s2 [_ ->]]. auto.
Qed.

(** C3, at the failing input: the call for a page without the problem block
    raises with [gia_type="oge"] given; the client, which was scoped to
    "ege", is left scoped to "oge". *)
Theorem handle_params_keeps_override_on_raise :
  fst (get_problem_by_id (serve [page_not_found]) 1 false (Some (u "oge")) None
         client) = Raise RuntimeError /\
  gia_type (snd (get_problem_by_id (serve [page_not_found]) 1 false
                   (Some (u "oge")) None client)) = u "oge" /\
  gia_type client = u "ege".
Proof. vm_compute. repeat split. Qed.

(** ** The catalog *)

Lemma collect_topics_Ok (blocks : list (path * node)) :
  forall catalog catalog', collect_topics blocks catalog = Ok catalog' ->
  catalog' = catalog.
Proof.
  induction blocks as [| i r IH]; intros catalog catalog' H; simpl in H.
  - inversion H. reflexivity.
  - apply rbind_Ok in H. destruct H as [c [Hc H]]. apply IH in H. subst.
    unfold tag_getitem in Hc.
    destruct (tag_get (snd i) "data-id"); simpl in Hc; inversion Hc.
    reflexivity.
Qed.

(** Whatever the page, a catalog that is returned is empty: a block
    without [data-id] raises [KeyError], which [except IndexError] lets
    through. *)
Lemma get_catalog_returns_nothing (E : Env) (kg ks : option ustring)
  (self self' : SdamGIA) (r : list CatalogTopic) :
  get_catalog E kg ks self = (Ok r, self') -> r = [].
Proof.
  intros H. apply handle_params_Ok in H. destruct H as [s2 [H _]].
  unfold get_catalog_body in H.
  apply bind_Ok in H. destruct H as [page [s1 [_ H]]].
  apply bind_Ok in H. destruct H as [catalog [s3 [Hc H]]].
  apply lift_Ok in Hc. destruct Hc as [Hc _]. apply collect_topics_Ok in Hc.
  subst. apply lift_Ok in H. destruct H as [H _]. simpl in H.
  inversion H. reflexivity.
Qed.

(** C7, at the failing input: on a catalog page whose first block is the
    page pseudo-entry and whose second block is the topic
    "1. Алгебраические выражения", [get_catalog] raises [KeyError]. *)
Theorem get_catalog_raises_on_topic_blocks :
  fst (get_catalog (serve [page_catalog]) None None client) = Raise KeyError.
Proof. vm_compute. reflexivity. Qed.

(** ** The problem page *)

(** C1, at the failing input: the problem block is there and the
    related-links block is not; the call raises [AttributeError]. *)
Theorem get_problem_by_id_raises_without_related_block :
  fst (get_problem_by_id (serve [page_no_minor]) 1 false None None client)
  = Raise AttributeError.
Proof. vm_compute. reflexivity. Qed.

(** Where the answer block is missing the answer is empty, and a label
    that is followed by a character outside "Ответ:" is dropped as a
    prefix. *)
Lemma answer_absent (b : node) :
  find (tag_class "div" "answer") b = None ->
  try_except (answer_of b) [IndexError; AttributeError] [] = Ok [].
Proof. intros H. unfold answer_of. rewrite H. reflexivity. Qed.

Lemma lstrip_label (c : char) (rest : ustring) :
  mem c (u "Ответ:") = false ->
  lstrip_chars (u "Ответ:") (u "Ответ:" ++ c :: rest) = c :: rest.
Proof.
  intros H. change (u "Ответ:") with [1054; 1090; 1074; 1077; 1090; 58]%N in *.
  cbn - [mem]. rewrite H. reflexivity.
Qed.

(** C6, at the failing input: the answer block reads "Ответ:ветер" and the
    answer is "р", since [lstrip] drops every leading character that occurs
    in "Ответ:". *)
Theorem answer_strips_a_character_set :
  option_map answer
    (returned (get_problem_by_id (serve [page_answer]) 5 false None None client))
  = Some (u "р") /\
  u "р" <> u "ветер".
Proof. vm_compute. split; [reflexivity | discriminate]. Qed.

(** ** Paginated collections *)

Lemma pages_S (first : Z) (n : nat) :
  pages first (S n) = first :: pages (first + 1) n.
Proof.
  unfold pages. rewrite <- cons_seq, <- seq_shift. simpl. rewrite map_map.
  f_equal; [lia |]. apply map_ext. intros i. lia.
Qed.

Lemma concat_map_seq_S {A} (f : nat -> list A) (n : nat) :
  concat (map f (seq 0 (S n))) = f 0 ++ concat (map (fun i => f (S i)) (seq 0 n)).
Proof.
  rewrite <- cons_seq, <- seq_shift. simpl. rewrite map_map. reflexivity.
Qed.

Lemma restore_with_sent (kg ks : option ustring) (self : SdamGIA)
  (l : list (ustring * list (string * ustring))) :
  with_subject (subject self)
    (with_gia_type (gia_type self) (with_sent l (overridden kg ks self)))
  = with_sent l self.
Proof. destruct kg, ks; reflexivity. Qed.

Section Pagination.

Variable E : Env.

Lemma search_loop_collects (query : ustring) (k : nat) :
  forall (ids : nat -> list Z) (fuel : nat) (first : Z) (acc : list Z)
         (self : SdamGIA),
  k < fuel ->
  (forall i, i < k ->
     search_page E self query (first + Z.of_nat i) = Ok (ids i) /\ ids i <> []) ->
  search_page E self query (first + Z.of_nat k) = Ok [] ->
  search_loop E fuel query first acc self
  = (Ok (acc ++ concat (map ids (seq 0 k))),
     with_sent (sent self ++ map (search_request E self query) (pages first (S k)))
       self).
Proof.
  induction k as [| k IH]; intros ids fuel first acc self Hfuel Hids Hlast;
    (destruct fuel as [| fuel]; [lia |]).
  - simpl in Hlast. rewrite Z.add_0_r in Hlast. unfold search_page in Hlast.
    apply rbind_Ok in Hlast. destruct Hlast as [h [Hh Hl]]. simpl in Hh.
    simpl. unfold bind, _get, lift. rewrite Hh, Hl.
    rewrite app_nil_r, Z.add_0_r. reflexivity.
  - destruct (Hids 0 ltac:(lia)) as [H0 Hne]. simpl in H0.
    rewrite Z.add_0_r in H0. unfold search_page in H0.
    apply rbind_Ok in H0. destruct H0 as [h [Hh Hl]]. simpl in Hh.
    rewrite pages_S, concat_map_seq_S. cbn [search_loop].
    unfold bind at 1. unfold _get at 1. rewrite Hh.
    unfold bind at 1. unfold lift at 1. rewrite Hl.
    destruct (ids 0) as [| x r] eqn:Hi; [congruence |].
    rewrite (IH (fun i => ids (S i))).
    + rewrite <- Hi. simpl. rewrite <- !app_assoc. reflexivity.
    + lia.
    + intros i Hlt. replace (first + 1 + Z.of_nat i)%Z
        with (first + Z.of_nat (S i))%Z by lia.
      apply (Hids (S i)). lia.
    + replace (first + 1 + Z.of_nat k)%Z with (first + Z.of_nat (S k))%Z by lia.
      exact Hlast.
Qed.

Lemma rmap_nil {A B} (f : A -> result B) (l : list A) :
  rmap f l = Ok [] -> l = [].
Proof.
  destruct l as [| a r]; [reflexivity |]. simpl. intros H.
  apply rbind_Ok in H. destruct H as [b [_ H]].
  apply rbind_Ok in H. destruct H as [bs [_ H]]. discriminate.
Qed.

Lemma theme_loop_collects (theme_id : Z) (k : nat) :
  forall (ids : nat -> list ustring) (fuel : nat) (first : Z)
         (acc : list ustring) (self : SdamGIA),
  k < fuel ->
  (forall i, i < k ->
     theme_page E self theme_id (first + Z.of_nat i) = Ok (ids i) /\ ids i <> []) ->
  theme_page E self theme_id (first + Z.of_nat k) = Ok [] ->
  theme_loop E fuel theme_id first acc self
  = (Ok (acc ++ concat (map ids (seq 0 k))),
     with_sent (sent self ++ map (theme_request E self theme_id) (pages first (S k)))
       self).
Proof.
  induction k as [| k IH]; intros ids fuel first acc self Hfuel Hids Hlast;
    (destruct fuel as [| fuel]; [lia |]).
  - simpl in Hlast. rewrite Z.add_0_r in Hlast. unfold theme_page in Hlast.
    apply rbind_Ok in Hlast. destruct Hlast as [h [Hh Hl]]. simpl in Hh.
    apply rmap_nil in Hl.
    simpl. unfold bind, _get. rewrite Hh, Hl.
    rewrite app_nil_r, Z.add_0_r. reflexivity.
  - destruct (Hids 0 ltac:(lia)) as [H0 Hne]. simpl in H0.
    rewrite Z.add_0_r in H0. unfold theme_page in H0.
    apply rbind_Ok in H0. destruct H0 as [h [Hh Hl]]. simpl in Hh.
    rewrite pages_S, concat_map_seq_S. cbn [theme_loop].
    unfold bind at 1. unfold _get at 1. rewrite Hh.
    destruct (find_all (tag_class "span" "prob_nums") (soup_of E h))
      as [| x r] eqn:Hf.
    + simpl in Hl. inversion Hl. congruence.
    + unfold bind at 1. unfold lift at 1. rewrite Hl.
      rewrite (IH (fun i => ids (S i))).
      * simpl. rewrite <- !app_assoc. reflexivity.
      * lia.
      * intros i Hlt. replace (first + 1 + Z.of_nat i)%Z
          with (first + Z.of_nat (S i))%Z by lia.
        apply (Hids (S i)). lia.
      * replace (first + 1 + Z.of_nat k)%Z with (first + Z.of_nat (S k))%Z by lia.
        exact Hlast.
Qed.

End Pagination.

(** C2: when pages 1 to k of a search or of a theme listing each yield at
    least one id and page k+1 yields none, the call returns the ids of
    pages 1 to k in page order, and the requests it has sent are those for
    pages 1, 2, ..., k+1 in this order (with k = 0: page 1 only).  Any
    fuel above k is enough. *)
Theorem paginated_collection_stops_at_first_empty_page
  (E : Env) (kg ks : option ustring) (self : SdamGIA) (k fuel : nat)
  (Hfuel : k < fuel) :
  (forall (query : ustring) (ids : nat -> list Z),
     (forall i, i < k ->
        search_page E (overridden kg ks self) query (1 + Z.of_nat i) = Ok (ids i)
        /\ ids i <> []) ->
     search_page E (overridden kg ks self) query (1 + Z.of_nat k) = Ok [] ->
     search E fuel query kg ks self
     = (Ok (concat (map ids (seq 0 k))),
        with_sent
          (sent self ++
           map (search_request E (overridden kg ks self) query) (pages 1 (S k)))
          self)) /\
  (forall (theme_id : Z) (ids : nat -> list ustring),
     (forall i, i < k ->
        theme_page E (overridden kg ks self) theme_id (1 + Z.of_nat i) = Ok (ids i)
        /\ ids i <> []) ->
     theme_page E (overridden kg ks self) theme_id (1 + Z.of_nat k) = Ok [] ->
     get_theme_by_id E fuel theme_id kg ks self
     = (Ok (concat (map ids (seq 0 k))),
        with_sent
          (sent self ++
           map (theme_request E (overridden kg ks self) theme_id) (pages 1 (S k)))
          self)).
Proof.
  split.
  - intros query ids Hids Hlast. unfold search.
    erewrite handle_params_returns.
    2: { apply search_loop_collects with (ids := ids); eassumption. }
    simpl. rewrite restore_with_sent.
    replace (sent (overridden kg ks self)) with (sent self)
      by (destruct kg, ks; reflexivity).
    reflexivity.
  - intros theme_id ids Hids Hlast. unfold get_theme_by_id.
    erewrite handle_params_returns.
    2: { apply theme_loop_collects with (ids := ids); eassumption. }
    simpl. rewrite restore_with_sent.
    replace (sent (overridden kg ks self)) with (sent self)
      by (destruct kg, ks; reflexivity).
    reflexivity.
Qed.

Lemma paginated_collection_witness :
  fst (search (serve [page_list1; page_list2]) 3 (u "x") None None client)
  = Ok [101; 102; 205]%Z /\
  fst (get_theme_by_id (serve [page_list1; page_list2]) 3 7 None None client)
  = Ok [u "101"; u "102"; u "205"].
Proof.
  pose proof (@paginated_collection_stops_at_first_empty_page
                (serve [page_list1; page_list2]) None None client 2 3
                ltac:(lia)) as [Hs Ht].
  split.
  - rewrite (Hs (u "x")
               (fun i => match i with
                         | 0 => [101; 102]%Z
                         | 1 => [205]%Z
                         | _ => []
                         end)).
    + reflexivity.
    + intros [| [| i]] Hi;
        [vm_compute; split; [reflexivity | discriminate] .. | lia].
    + vm_compute. reflexivity.
  - rewrite (Ht 7%Z
               (fun i => match i with
                         | 0 => [u "101"; u "102"]
                         | 1 => [u "205"]
                         | _ => []
                         end)).
    + reflexivity.
    + intros [| [| i]] Hi;
        [vm_compute; split; [reflexivity | discriminate] .. | lia].
    + vm_compute. reflexivity.
Defined.

(** ** Text normalization *)

Lemma replace_absent (c : N) (new s : ustring) :
  ~ In c s -> replace [c] new s = s.
Proof.
  unfold replace. induction s as [| x r IH]; intros H; simpl.
  - reflexivity.
  - destruct (N.eqb_spec c x) as [-> | Hne].
    + exfalso. apply H. left. reflexivity.
    + simpl. rewrite IH; [reflexivity |]. intros Hin. apply H. right. exact Hin.
Qed.

Lemma nfkc_excerpt_idempotent (s : ustring) :
  nfkc_excerpt (nfkc_excerpt s) = nfkc_excerpt s.
Proof.
  unfold nfkc_excerpt. rewrite map_map. apply map_ext. intros c.
  unfold nfkc_char.
  destruct (N.eqb_spec c 8315) as [-> | H1]; [reflexivity |].
  destruct (N.eqb_spec c 8331) as [-> | H2]; [reflexivity |].
  destruct (N.eqb_spec c 160) as [-> | H3]; [reflexivity |]. simpl.
  destruct (N.eqb_spec c 8315); [contradiction |].
  destruct (N.eqb_spec c 8331); [contradiction |].
  destruct (N.eqb_spec c 160); [contradiction |]. reflexivity.
Qed.

(** Whatever the rest of NFKC, its mapping of the superscript minus to the
    typographic minus is enough for a second pass to change the text. *)
Lemma normalize_text_superscript_minus (E : Env) :
  nfkc E [8315%N] = [8722%N] -> nfkc E [45%N] = [45%N] ->
  normalize_text E [8315%N] = [8722%N] /\
  normalize_text E (normalize_text E [8315%N]) = [45%N].
Proof.
  intros H1 H2. unfold normalize_text.
  change (replace [173%N] [] (replace (u "−") (u "-") [8315%N])) with [8315%N].
  rewrite H1.
  change (replace [173%N] [] (replace (u "−") (u "-") [8722%N])) with [45%N].
  rewrite H2. auto.
Qed.

(** C9, counterexample: the superscript minus U+207B is normalized to the
    typographic minus U+2212, which a second normalization rewrites to
    the hyphen-minus. *)
Lemma normalize_text_not_idempotent :
  normalize_text (serve []) (normalize_text (serve []) [8315%N])
  <> normalize_text (serve []) [8315%N].
Proof. vm_compute. discriminate. Qed.

(** C9, amended: normalization is idempotent on every text whose normalized
    form holds no typographic minus and no soft hyphen (NFKC being
    idempotent). *)
Theorem normalize_text_idempotent (E : Env) (t : ustring)
  (Hnfkc : forall s, nfkc E (nfkc E s) = nfkc E s)
  (Hminus : ~ In 8722%N (normalize_text E t))
  (Hshy : ~ In 173%N (normalize_text E t)) :
  normalize_text E (normalize_text E t) = normalize_text E t.
Proof.
  set (n := normalize_text E t) in *.
  unfold normalize_text. change (u "−") with [8722%N].
  rewrite (@replace_absent 8722%N (u "-") n Hminus).
  rewrite (@replace_absent 173%N [] n Hshy).
  subst n. unfold normalize_text. apply Hnfkc.
Qed.

Lemma normalize_text_idempotent_witness :
  normalize_text (serve [])
    (normalize_text (serve []) [97; 8722; 173; 98; 160]%N)
  = normalize_text (serve []) [97; 8722; 173; 98; 160]%N.
Proof.
  apply (@normalize_text_idempotent (serve []) [97; 8722; 173; 98; 160]%N
           nfkc_excerpt_idempotent).
  - vm_compute. intuition lia.
  - vm_compute. intuition lia.
Defined.

(** ** Image links *)

Lemma ustring_eqb_eq (a b : ustring) : ustring_eqb a b = true <-> a = b.
Proof.
  unfold ustring_eqb. destruct (list_eq_dec N.eq_dec a b); split; auto.
  discriminate.
Qed.

Lemma option_eqb_eq (a b : option ustring) : option_eqb a b = true <-> a = b.
Proof.
  destruct a, b; simpl; try rewrite ustring_eqb_eq; split; intros H;
    try discriminate; try reflexivity; congruence.
Qed.

Lemma existsb_option_eqb (x : option ustring) (l : list (option ustring)) :
  existsb (option_eqb x) l = true <-> In x l.
Proof.
  rewrite existsb_exists. split.
  - intros [y [Hy H]]. apply option_eqb_eq in H. subst. exact Hy.
  - intros H. exists x. split; [exact H | apply option_eqb_eq; reflexivity].
Qed.

Lemma first_new_In (l : list (option ustring)) :
  forall seen x,
  In x (first_new seen l) <-> (exists y, x = Some y) /\ In x l /\ ~ In x seen.
Proof.
  induction l as [| [a |] r IH]; intros seen x; simpl.
  - tauto.
  - destruct (existsb (option_eqb (Some a)) seen) eqn:Hs.
    + apply existsb_option_eqb in Hs. rewrite IH. split.
      * intros [Hy [Hr Hn]]. auto.
      * intros [Hy [[Hx | Hr] Hn]]; [subst; contradiction | auto].
    + assert (Hn : ~ In (Some a) seen).
      { intros Hin. apply existsb_option_eqb in Hin. congruence. }
      simpl. rewrite IH. split.
      * intros [Hx | [Hy [Hr Hns]]].
        -- subst. split; [eauto | auto].
        -- split; [exact Hy |]. split; [auto |].
           intros Hin. apply Hns. apply in_or_app. auto.
      * intros [Hy [[Hx | Hr] Hns]]; [auto |].
        destruct (option_eqb (Some a) x) eqn:Hax.
        -- apply option_eqb_eq in Hax. auto.
        -- right. split; [exact Hy |]. split; [exact Hr |].
           intros Hin. apply in_app_or in Hin. destruct Hin as [Hin | [Hin | []]].
           ++ contradiction.
           ++ subst. rewrite (proj2 (option_eqb_eq (Some a) (Some a)) eq_refl) in Hax.
              discriminate.
  - rewrite IH. split.
    + intros [Hy [Hr Hn]]. auto.
    + intros [[y Hy] [[Hx | Hr] Hn]]; [congruence | eauto].
Qed.

Lemma first_new_NoDup (l : list (option ustring)) :
  forall seen, NoDup (first_new seen l).
Proof.
  induction l as [| [a |] r IH]; intros seen; simpl.
  - constructor.
  - destruct (existsb (option_eqb (Some a)) seen); [apply IH |].
    constructor; [| apply IH].
    intros Hin. apply first_new_In in Hin. destruct Hin as [_ [_ Hn]].
    apply Hn. apply in_or_app. right. left. reflexivity.
  - apply IH.
Qed.

Lemma fold_append_new_link (imgs : list (path * node)) :
  forall links,
  fold_left append_new_link imgs links
  = links ++ first_new links (map (fun img => tag_get (snd img) "src") imgs).
Proof.
  induction imgs as [| i r IH]; intros links; simpl.
  - rewrite app_nil_r. reflexivity.
  - unfold append_new_link at 2. destruct (tag_get (snd i) "src") as [a |].
    + destruct (existsb (option_eqb (Some a)) links); simpl.
      * apply IH.
      * rewrite IH, <- app_assoc. reflexivity.
    + apply IH.
Qed.

Lemma all_links_first_new (tag : node) (links : list (option ustring)) :
  all_links tag links = links ++ first_new links (img_srcs tag).
Proof. apply fold_append_new_link. Qed.

Lemma get_problem_part_Ok (E : Env) (tag : node) (r : bool)
  (self self' : SdamGIA) (part : ProblemPart) (tag' : node) :
  _get_problem_part E (Some tag) r self = (Ok (part, tag'), self') ->
  html part = tag' /\
  image_links part = all_links tag' (tex_links tag) /\
  (r = false -> tag' = tag /\ text_ part = [] /\ self' = self) /\
  (r = true -> exists d, replace_tex d tag = Ok tag').
Proof.
  unfold _get_problem_part. intros H.
  apply bind_Ok in H. destruct H as [x [s1 [Hx H]]].
  apply ret_Ok in H. destruct H as [H ->]. inversion H; subst. clear H.
  simpl. split; [reflexivity |]. split; [reflexivity |]. split.
  - intros ->. apply ret_Ok in Hx. destruct Hx as [-> ->]. simpl. auto.
  - intros ->. apply bind_Ok in Hx. destruct Hx as [d [s2 [_ Hx]]].
    apply bind_Ok in Hx. destruct Hx as [t [s3 [Ht Hx]]].
    apply lift_Ok in Ht. destruct Ht as [Ht _].
    apply ret_Ok in Hx. destruct Hx as [-> _]. simpl. eauto.
Qed.

(** C8, counterexample: a fragment in which one formula image occurs twice
    has its URL twice in [image_links]. *)
Lemma image_links_repeat_formula :
  option_map (fun x => image_links (fst x))
    (returned (_get_problem_part (serve []) (Some part_twice) false client))
  = Some [Some (u "https://ege.sdamgia.ru/formula/1.svg");
          Some (u "https://ege.sdamgia.ru/formula/1.svg")] /\
  ~ NoDup [Some (u "https://ege.sdamgia.ru/formula/1.svg");
           Some (u "https://ege.sdamgia.ru/formula/1.svg")].
Proof.
  split; [vm_compute; reflexivity |].
  intros H. inversion H as [| x l Hn Hd]; subst. apply Hn. left. reflexivity.
Qed.

(** C8, amended: [image_links] lists the [src] of every formula image of
    the fragment in document order, one entry per image (so a formula that
    occurs twice is listed twice), followed by the URLs of the images of
    the rendered fragment that are not among them, in first-occurrence
    order, each exactly once. *)
Theorem image_links_formulas_then_new (E : Env) (tag : node) (r : bool)
  (self self' : SdamGIA) (part : ProblemPart) (tag' : node)
  (Hcall : _get_problem_part E (Some tag) r self = (Ok (part, tag'), self')) :
  image_links part
  = tex_links tag ++ first_new (tex_links tag) (img_srcs (html part)) /\
  NoDup (first_new (tex_links tag) (img_srcs (html part))) /\
  (forall l, In l (first_new (tex_links tag) (img_srcs (html part))) <->
     (exists x, l = Some x) /\ In l (img_srcs (html part)) /\
     ~ In l (tex_links tag)).
Proof.
  apply get_problem_part_Ok in Hcall. destruct Hcall as [Hh [Hl _]].
  rewrite Hl, Hh. split; [apply all_links_first_new |].
  split; [apply first_new_NoDup | intros l; apply first_new_In].
Qed.

Lemma image_links_formulas_then_new_witness :
  image_links (plain_part part_twice)
  = tex_links part_twice
    ++ first_new (tex_links part_twice) (img_srcs (html (plain_part part_twice))).
Proof.
  assert (Hcall : _get_problem_part (serve []) (Some part_twice) false client
                  = (Ok (plain_part part_twice, part_twice), client))
    by (vm_compute; reflexivity).
  exact (proj1 (image_links_formulas_then_new _ _ _ _ Hcall)).
Defined.

(** ** The steps of [get_problem_by_id] *)

Section Steps.

Variable E : Env.

Lemma try_exceptM_Ok {A} (m : M A) (handled : list exn) (default a : A)
  (self self' : SdamGIA) :
  try_exceptM m handled default self = (Ok a, self') ->
  m self = (Ok a, self') \/
  (exists e, m self = (Raise e, self') /\ a = default).
Proof.
  unfold try_exceptM. destruct (m self) as [[x | e |] s1]; simpl; intros H.
  - left. exact H.
  - right. destruct (existsb (exn_eqb e) handled); inversion H; subst. eauto.
  - discriminate.
Qed.

Lemma get_problem_by_id_body_Ok (problem_id : Z) (r : bool)
  (self self' : SdamGIA) (pr : Problem) :
  get_problem_by_id_body E problem_id r self = (Ok pr, self') ->
  exists page block b b' soup2 s2 soup3,
    http_get E (problem_url E self problem_id) [] = Ok page /\
    find (tag_class "div" "prob_maindiv") (soup_of E page) = Some (block, b) /\
    rewrite_block E (base_url self) b = Ok b' /\
    condition_step E (set (soup_of E page) block b') r
      (after_request E self problem_id) = (Ok (condition pr, soup2), s2) /\
    solution_step E soup2 block r s2 = (Ok (solution pr, soup3), self') /\
    analogs_of E problem_id (deref soup3 block) = Ok (analogs pr).
Proof.
  unfold get_problem_by_id_body. intros H.
  apply bind_Ok in H. destruct H as [page [s1 [Hpage H]]].
  unfold _get in Hpage. inversion Hpage as [[Hget Hs1]]. clear Hpage.
  destruct (find (tag_class "div" "prob_maindiv") (soup_of E page))
    as [[block b] |] eqn:Hblock; [| discriminate].
  apply bind_Ok in H. destruct H as [s1' [s1'' [Hself H]]].
  inversion Hself; subst s1' s1''. clear Hself.
  apply bind_Ok in H. destruct H as [soup1 [s1' [Hsoup H]]].
  apply lift_Ok in Hsoup. destruct Hsoup as [Hsoup ->].
  apply rbind_Ok in Hsoup. destruct Hsoup as [b' [Hb' Hsoup]].
  inversion Hsoup; subst soup1. clear Hsoup.
  apply bind_Ok in H. destruct H as [topic [s1' [Htopic H]]].
  apply lift_Ok in Htopic. destruct Htopic as [_ ->].
  apply bind_Ok in H. destruct H as [[c soup2] [s2 [Hc H]]].
  apply bind_Ok in H. destruct H as [[sl soup3] [s3 [Hsl H]]].
  apply bind_Ok in H. destruct H as [ans [s3' [Hans H]]].
  apply lift_Ok in Hans. destruct Hans as [_ ->].
  apply bind_Ok in H. destruct H as [an [s3' [Han H]]].
  apply lift_Ok in Han. destruct Han as [Han ->].
  apply bind_Ok in H. destruct H as [s4 [s4' [Hself H]]].
  inversion Hself; subst s4 s4'. clear Hself.
  apply ret_Ok in H. destruct H as [-> ->]. simpl in *.
  exists page, block, b, b', soup2, s2, soup3. subst s1.
  repeat split; assumption.
Qed.

Lemma solution_tag_of_outcome (b : node) :
  (exists t, solution_tag_of b = Ok t) \/ solution_tag_of b = Raise IndexError.
Proof.
  unfold solution_tag_of. destruct (find _ b); [eauto |].
  destruct (nth_error _ 1); simpl; eauto.
Qed.

Lemma solution_tag_of_get (b : node) (p : path) (t : node) :
  solution_tag_of b = Ok (p, t) -> get b p = Some t.
Proof.
  unfold solution_tag_of.
  destruct (find (tag_class "div" "solution") b) as [x |] eqn:Hf.
  - intros H. inversion H; subst. apply find_get in Hf. apply Hf.
  - destruct (nth_error _ 1) as [x |] eqn:Hn; simpl; intros H; inversion H; subst.
    apply nth_error_In in Hn. apply find_all_get in Hn. apply Hn.
Qed.

(** Without recognition the two [try] blocks leave the soup and the client
    as they are. *)
Lemma condition_step_plain (soup : node) (self : SdamGIA) :
  condition_step E soup false self
  = (Ok (option_map (fun x => plain_part (snd x))
           (find (tag_class "div" "pbody") soup), soup), self).
Proof.
  unfold condition_step, try_exceptM.
  destruct (find (tag_class "div" "pbody") soup) as [[q t] |] eqn:Hf; simpl.
  - apply find_get in Hf. destruct Hf as [Hg _].
    unfold bind, ret. simpl. rewrite (set_same _ _ Hg). reflexivity.
  - reflexivity.
Qed.

Lemma solution_step_plain (soup : node) (block : path) (self : SdamGIA) :
  solution_step E soup block false self
  = (Ok (match solution_tag_of (deref soup block) with
         | Ok t => Some (plain_part (snd t))
         | _ => None
         end, soup), self).
Proof.
  unfold solution_step, try_exceptM, bind, lift.
  destruct (solution_tag_of_outcome (deref soup block)) as [[[p t] Ht] | Ht];
    rewrite Ht; simpl; [| reflexivity].
  unfold ret. apply solution_tag_of_get in Ht.
  unfold deref in Ht. destruct (get soup block) as [b |] eqn:Hb.
  - rewrite set_same; [reflexivity |]. rewrite get_app, Hb. exact Ht.
  - destruct p; simpl in Ht; [| discriminate]. inversion Ht; subst.
    rewrite app_nil_r.
    assert (Hset : forall (p : path) (n m : node), get n p = None -> set n p m = n).
    { clear. induction p as [| i p IH]; intros n m H; simpl in *; [discriminate |].
      destruct n as [s | nm cls a ch]; [reflexivity |]. f_equal.
      revert i H. induction ch as [| c r IHr]; intros [| i] H; simpl in *; auto.
      - rewrite IH; auto.
      - f_equal. apply IHr. exact H. }
    rewrite Hset; [reflexivity | exact Hb].
Qed.

(** With recognition they keep it similar, provided images are void. *)
Lemma get_problem_part_similar (t t' : node) (r : bool) (self self' : SdamGIA)
  (part : ProblemPart) :
  (r = true -> void_imgs t = true) ->
  _get_problem_part E (Some t) r self = (Ok (part, t'), self') ->
  similar t t'.
Proof.
  intros Hv H. apply get_problem_part_Ok in H.
  destruct H as [_ [_ [Hf Ht]]]. destruct r.
  - destruct (Ht eq_refl) as [d Hd]. eapply replace_tex_similar; eauto.
  - destruct (Hf eq_refl) as [-> _]. apply similar_refl.
Qed.

Lemma condition_step_Ok (soup soup2 : node) (r : bool) (self s2 : SdamGIA)
  (c : option ProblemPart) :
  condition_step E soup r self = (Ok (c, soup2), s2) ->
  c = caught (fst (_get_problem_part E
                     (option_map snd (find (tag_class "div" "pbody") soup)) r self))
  /\ ((r = true -> void_imgs soup = true) -> similar soup soup2).
Proof.
  unfold condition_step. intros H. apply try_exceptM_Ok in H.
  destruct H as [H | [e [H Hd]]].
  - apply bind_Ok in H. destruct H as [[part t'] [s1 [Hp H]]].
    apply ret_Ok in H. destruct H as [H ->]. inversion H; subst. clear H.
    rewrite Hp. simpl. split; [reflexivity |]. intros Hv.
    destruct (find (tag_class "div" "pbody") soup) as [[q t] |] eqn:Hf;
      [| apply similar_refl].
    apply find_get in Hf. destruct Hf as [Hg _]. simpl in Hp.
    eapply similar_set; [exact Hg |].
    eapply get_problem_part_similar; [| exact Hp].
    intros Hr. eapply void_get; eauto.
  - inversion Hd; subst. unfold bind in H.
    destruct (_get_problem_part E _ r self) as [[x | e' |] s1];
      simpl in *; try discriminate.
    split; [reflexivity | intros _; apply similar_refl].
Qed.

Lemma solution_step_Ok (soup soup3 : node) (block : path) (r : bool)
  (self s3 : SdamGIA) (sl : option ProblemPart) :
  solution_step E soup block r self = (Ok (sl, soup3), s3) ->
  (forall part, sl = Some part ->
     exists p t, solution_tag_of (deref soup block) = Ok (p, t) /\
       _get_problem_part E (Some t) r self = (Ok (part, html part), s3)) /\
  ((r = true -> void_imgs soup = true) -> similar soup soup3).
Proof.
  unfold solution_step. intros H. apply try_exceptM_Ok in H.
  destruct H as [H | [e [H Hd]]].
  - apply bind_Ok in H. destruct H as [[p t] [s1 [Ht H]]].
    apply lift_Ok in Ht. destruct Ht as [Ht ->].
    apply bind_Ok in H. destruct H as [[part t'] [s1 [Hp H]]].
    apply ret_Ok in H. destruct H as [H ->]. inversion H; subst. clear H.
    simpl in *. split.
    + intros part' Hpart. inversion Hpart; subst. exists p, t.
      split; [exact Ht |].
      destruct (get_problem_part_Ok _ _ _ _ Hp) as [-> _]. exact Hp.
    + intros Hv. pose proof (solution_tag_of_get _ Ht) as Hg.
      unfold deref in Hg, Ht. destruct (get soup block) as [b |] eqn:Hb.
      * eapply similar_set; [rewrite get_app, Hb; exact Hg |].
        eapply get_problem_part_similar; [| exact Hp].
        intros Hr. eapply void_get; [| exact Hg]. eapply void_get; eauto.
      * destruct p; simpl in Hg; [| discriminate]. inversion Hg; subst.
        unfold solution_tag_of in Ht. simpl in Ht. discriminate.
  - inversion Hd; subst. split; [discriminate | intros _; apply similar_refl].
Qed.



End Steps.

(** ** The problem block through the call *)

Section Block.

Variable E : Env.

Lemma Forall2_nth_error {A} (R : A -> A -> Prop) (l l' : list A) (k : nat) :
  Forall2 R l l' ->
  match nth_error l k, nth_error l' k with
  | Some x, Some y => R x y
  | None, None => True
  | _, _ => False
  end.
Proof.
  intros H. revert k. induction H as [| x y r r' Hxy Hr IH]; intros [| k]; simpl;
    auto. apply IH.
Qed.

Lemma solution_tag_of_similar (b b' : node) :
  similar b b' ->
  match solution_tag_of b, solution_tag_of b' with
  | Ok x, Ok y => same_place x y
  | Raise e, Raise e' => e = e'
  | _, _ => False
  end.
Proof.
  intros H. unfold solution_tag_of.
  assert (Hd : "div" <> "img") by discriminate.
  pose proof (@similar_find _ b b' (stable_tag_class "solution" Hd) H) as Hs.
  destruct (find (tag_class "div" "solution") b),
           (find (tag_class "div" "solution") b'); try contradiction; auto.
  pose proof (@similar_find_all _ b b' (stable_tag_class "pbody" Hd) H) as Hp.
  apply Forall2_nth_error with (k := 1) in Hp.
  destruct (nth_error (find_all (tag_class "div" "pbody") b) 1),
           (nth_error (find_all (tag_class "div" "pbody") b') 1);
    simpl; auto.
Qed.

Lemma similar_link_href (n n' : node) :
  similar n n' -> is_tag "a" n = true ->
  tag_getitem n' "href" = tag_getitem n "href".
Proof.
  destruct n as [s | nm cls a ch]; simpl; [discriminate |]. intros H Hn.
  apply String.eqb_eq in Hn. subst nm.
  destruct n' as [s | nm' cls' a' ch']; simpl in H.
  - destruct H as [H _]. discriminate.
  - destruct H as [_ [_ [Ha _]]]. rewrite <- Ha; [reflexivity | discriminate].
Qed.

Lemma find_all_Forall (P : node -> bool) (t : node) :
  Forall (fun x => P (snd x) = true) (find_all P t).
Proof.
  apply Forall_forall. intros [p n] H. apply find_all_get in H. apply H.
Qed.

Lemma analogs_of_similar (problem_id : Z) (b b' : node) :
  similar b b' -> analogs_of E problem_id b' = analogs_of E problem_id b.
Proof.
  intros H. unfold analogs_of.
  assert (Hd : "div" <> "img") by discriminate.
  assert (Ha : "a" <> "img") by discriminate.
  pose proof (@similar_find _ b b' (stable_tag_class "minor" Hd) H) as Hs.
  destruct (find (tag_class "div" "minor") b) as [[p m] |],
           (find (tag_class "div" "minor") b') as [[p' m'] |];
    try contradiction; [| reflexivity].
  destruct Hs as [_ Hs]. simpl in Hs. simpl.
  pose proof (@similar_find_all _ m m' (stable_is_tag Ha) Hs) as Hl.
  pose proof (find_all_Forall (is_tag "a") m) as Hf.
  replace (rmap (fun link => tag_getitem (snd link) "href")
             (find_all (is_tag "a") m'))
    with (rmap (fun link => tag_getitem (snd link) "href")
            (find_all (is_tag "a") m)); [reflexivity |].
  induction Hl as [| x y r r' [_ Hxy] Hr IH]; [reflexivity |].
  inversion Hf; subst. simpl.
  rewrite (similar_link_href _ _ Hxy) by assumption.
  rewrite IH by assumption. reflexivity.
Qed.

(** The problem block after the page has been processed is the block of
    the fetched page up to its images. *)
Lemma problem_block_similar (soup : node) (block : path) (b b' : node) (r : bool)
  (base : ustring) (s1 s2 s3 : SdamGIA) (c sl : option ProblemPart)
  (soup2 soup3 : node) :
  (r = true -> void_imgs soup = true) ->
  find (tag_class "div" "prob_maindiv") soup = Some (block, b) ->
  rewrite_block E base b = Ok b' ->
  condition_step E (set soup block b') r s1 = (Ok (c, soup2), s2) ->
  solution_step E soup2 block r s2 = (Ok (sl, soup3), s3) ->
  similar soup (set soup block b') /\
  similar soup soup2 /\ similar soup soup3 /\
  (exists b2, get soup2 block = Some b2 /\ similar b b2) /\
  (exists b3, get soup3 block = Some b3 /\ similar b b3).
Proof.
  intros Hv Hf Hb Hc Hs. apply find_get in Hf. destruct Hf as [Hg _].
  assert (H1 : similar soup (set soup block b')).
  { eapply similar_set; [exact Hg |]. eapply rewrite_block_similar; eauto. }
  apply condition_step_Ok in Hc. destruct Hc as [_ Hc].
  assert (H12 : similar (set soup block b') soup2).
  { apply Hc. intros Hr. eapply similar_void; eauto. }
  assert (H2 : similar soup soup2) by (eapply similar_trans; eauto).
  apply solution_step_Ok in Hs. destruct Hs as [_ Hs].
  assert (H23 : similar soup2 soup3).
  { apply Hs. intros Hr. eapply similar_void; eauto. }
  assert (H3 : similar soup soup3) by (eapply similar_trans; eauto).
  repeat split; auto; eapply similar_get; eauto.
Qed.

End Block.

(** ** Analogs *)

Lemma insert_sorted_Permutation (x : Z) (l : list Z) :
  Permutation (insert_sorted x l) (x :: l).
Proof.
  induction l as [| y r IH]; simpl.
  - apply Permutation_refl.
  - destruct (x <=? y)%Z; [apply Permutation_refl |].
    eapply perm_trans; [apply perm_skip, IH | apply perm_swap].
Qed.

Lemma sorted_Permutation (l : list Z) : Permutation (sorted l) l.
Proof.
  induction l as [| x r IH]; simpl; [constructor |].
  eapply perm_trans; [apply insert_sorted_Permutation | apply perm_skip, IH].
Qed.

Lemma insert_sorted_Sorted (x : Z) (l : list Z) :
  Sorted Z.le l -> Sorted Z.le (insert_sorted x l).
Proof.
  induction l as [| y r IH]; intros H; simpl.
  - repeat constructor.
  - destruct (Z.leb_spec x y).
    + constructor; [exact H | constructor; assumption].
    + inversion H as [| ? ? Hr Hy]; subst. constructor; [apply IH; exact Hr |].
      destruct r as [| z r]; simpl.
      * constructor. lia.
      * destruct (Z.leb_spec x z); constructor; try lia.
        inversion Hy. assumption.
Qed.

Lemma sorted_Sorted (l : list Z) : Sorted Z.le (sorted l).
Proof.
  induction l as [| x r IH]; simpl; [constructor |].
  apply insert_sorted_Sorted. exact IH.
Qed.

Lemma rmap_In {A B} (f : A -> result B) (l : list A) (l' : list B) (y : B) :
  rmap f l = Ok l' -> (In y l' <-> exists x, In x l /\ f x = Ok y).
Proof.
  intros H. apply rmap_Ok in H. induction H as [| a b r r' Hab Hr IH]; simpl.
  - split; [contradiction | intros [x [[] _]]].
  - rewrite IH. split.
    + intros [-> | [x [Hx Hf]]]; eauto.
    + intros [x [[-> | Hx] Hf]]; [left; congruence | eauto].
Qed.

(** C4, at the failing input: problem 5 with related links to 15, 7 and 7
    again has analogs 7, 7, which is not strictly ascending and misses 15,
    the id of a link whose target differs from the queried problem. *)
Lemma analogs_repeat_and_miss :
  option_map analogs
    (returned (get_problem_by_id (serve [page_links]) 5 false None None client))
  = Some [7; 7]%Z /\
  ~ StronglySorted Z.lt [7; 7]%Z /\ ~ In 15%Z [7; 7]%Z.
Proof.
  split; [vm_compute; reflexivity |]. split.
  - intros H. inversion H as [| x l _ Hf]; subst. inversion Hf; subst. lia.
  - simpl. lia.
Qed.

(** When the call returns, [analogs] is the ascending rearrangement,
    repetitions kept, of the numbers [int(i)], [i] being the [href] without
    "/problem?id=", of the links of the related block of the fetched page,
    in document order, whose [href] does not hold the decimal text of
    [problem_id] and whose [i] is all digits; neither the rewriting of the
    images nor recognition changes it. *)
Theorem analogs_ascending_from_related_links
  (E : Env) (problem_id : Z) (r : bool) (kg ks : option ustring)
  (self self' : SdamGIA) (pr : Problem) (page : ustring) (block : path) (b : node)
  (Hvoid : r = true -> void_imgs (soup_of E page) = true)
  (Hpage : http_get E (problem_url E (overridden kg ks self) problem_id) []
           = Ok page)
  (Hblock : find (tag_class "div" "prob_maindiv") (soup_of E page)
            = Some (block, b))
  (Hcall : get_problem_by_id E problem_id r kg ks self = (Ok pr, self')) :
  Sorted Z.le (analogs pr) /\
  exists minor hrefs ids,
    find (tag_class "div" "minor") b = Some minor /\
    rmap (fun link => tag_getitem (snd link) "href")
      (find_all (is_tag "a") (snd minor)) = Ok hrefs /\
    Forall2 (fun i n => int_of_str E i = Some n)
      (filter (isdigit E)
         (map (replace (u "/problem?id=") [])
            (filter (fun href => negb (contains (str_of_int problem_id) href))
               hrefs)))
      ids /\
    Permutation ids (analogs pr).
Proof.
  apply handle_params_Ok in Hcall. destruct Hcall as [s2 [Hcall _]].
  apply get_problem_by_id_body_Ok in Hcall.
  destruct Hcall as [page' [block' [b0 [b' [soup2 [s2' [soup3 H]]]]]]].
  destruct H as [Hp [Hb [Hrw [Hc [Hs Ha]]]]].
  unfold problem_url in Hpage. unfold problem_url in Hp.
  rewrite Hpage in Hp. inversion Hp; subst page'. clear Hp.
  rewrite Hblock in Hb. inversion Hb; subst block' b0. clear Hb.
  destruct (@problem_block_similar E _ _ _ _ _ _ _ _ _ _ _ _ _ Hvoid Hblock Hrw Hc Hs)
    as [_ [_ [_ [_ [b3 [Hg3 Hb3]]]]]].
  unfold deref in Ha. rewrite Hg3 in Ha.
  rewrite (analogs_of_similar E problem_id _ _ Hb3) in Ha.
  unfold analogs_of in Ha.
  apply rbind_Ok in Ha. destruct Ha as [minor [Hm Ha]].
  apply rbind_Ok in Ha. destruct Ha as [hrefs [Hh Ha]].
  apply rbind_Ok in Ha. destruct Ha as [ints [Hi Ha]].
  inversion Ha as [Han]. split; [apply sorted_Sorted |].
  exists minor, hrefs, ints.
  destruct (find (tag_class "div" "minor") b); [| discriminate].
  inversion Hm; subst. split; [reflexivity |]. split; [exact Hh |].
  split; [| apply Permutation_sym; apply sorted_Permutation].
  apply rmap_Ok in Hi. clear - Hi.
  induction Hi as [| x y l l' Hxy Hl IH]; constructor; [| exact IH].
  destruct (int_of_str E x); simpl in Hxy; inversion Hxy; reflexivity.
Qed.

(** ** The rendered fragments *)

Section Fragments.

Variable E : Env.

Lemma rewrite_imgs_absolute (base : ustring) (n : node) :
  forall n', rewrite_imgs E base n = Ok n' ->
  n' = absolute_srcs (urljoin E base) n.
Proof.
  induction n as [s | nm cls a ch IH] using node_ind; intros n' H; simpl in H.
  - inversion H. reflexivity.
  - apply rbind_Ok in H. destruct H as [a' [Ha H]].
    apply rbind_Ok in H. destruct H as [ch' [Hch H]]. inversion H; subst.
    simpl. f_equal.
    + destruct (String.eqb nm "img"); [| inversion Ha; reflexivity].
      unfold rewrite_src in Ha. destruct (attr_get "src" a) as [src |];
        simpl in Ha; [| discriminate].
      destruct (contains BASE_DOMAIN src); simpl in Ha;
        [inversion Ha; reflexivity |].
      unfold checked_urljoin in Ha.
      destruct (urljoin_raises E base src); simpl in Ha; inversion Ha;
        reflexivity.
    + apply rmap_Ok in Hch. induction Hch; inversion IH; subst; simpl;
        [reflexivity |]. f_equal; auto.
Qed.

Lemma rewrite_block_absolute (base : ustring) (b b' : node) :
  is_tag "img" b = false -> rewrite_block E base b = Ok b' ->
  b' = absolute_srcs (urljoin E base) b.
Proof.
  destruct b as [s | nm cls a ch]; simpl; intros Hn H.
  - inversion H. reflexivity.
  - apply rbind_Ok in H. destruct H as [ch' [Hch H]]. inversion H; subst.
    rewrite Hn. f_equal. apply rmap_Ok in Hch. clear H.
    induction Hch as [| x y r r' Hxy Hr IHr]; simpl; [reflexivity |].
    f_equal; [eapply rewrite_imgs_absolute; eauto | exact IHr].
Qed.

Lemma first_error_app (l1 l2 : list (option exn)) :
  first_error (l1 ++ l2)
  = match first_error l1 with Some e => Some e | None => first_error l2 end.
Proof.
  induction l1 as [| [e |] r IH]; simpl; auto.
Qed.

Lemma first_error_none {X} (g : X -> option exn) (l : list X) :
  Forall (fun x => g x = None) l -> first_error (map g l) = None.
Proof.
  intros H. induction H as [| x r Hx Hr IH]; simpl; [reflexivity |].
  rewrite Hx. exact IH.
Qed.

Lemma first_error_images {X} (g : X -> node) (base : ustring) (l : list X) :
  first_error (map (fun x => image_error E base (g x)) l)
  = first_error
      (map (fun x => src_error E base (g x))
         (filter (fun x => is_tag "img" (g x)) l)).
Proof.
  induction l as [| x r IH]; simpl; [reflexivity |]. unfold image_error at 1.
  destruct (is_tag "img" (g x)); simpl; [| exact IH].
  destruct (src_error E base (g x)); [reflexivity | exact IH].
Qed.

Lemma rewrite_children_exact (base : ustring) (ch : list node) :
  Forall
    (fun n =>
       rewrite_imgs E base n
       = match first_error
                 (image_error E base n
                  :: map (fun x => image_error E base (snd x)) (descendants n))
         with
         | Some e => Raise e
         | None => Ok (absolute_srcs (urljoin E base) n)
         end) ch ->
  forall i,
  rmap (rewrite_imgs E base) ch
  = match first_error
            (map (fun x => image_error E base (snd x))
               (descendants_from descendants i ch))
    with
    | Some e => Raise e
    | None => Ok (map (absolute_srcs (urljoin E base)) ch)
    end.
Proof.
  intros H. induction H as [| c r Hc Hr IH]; intros i; [reflexivity |].
  cbn [rmap descendants_from]. rewrite Hc, (IH (S i)).
  rewrite map_app. cbn [map]. rewrite map_map. cbn [under snd].
  change (image_error E base c
          :: map (fun x => image_error E base (snd x)) (descendants c)
             ++ map (fun x => image_error E base (snd x))
                  (descendants_from descendants (S i) r))
    with ((image_error E base c
           :: map (fun x => image_error E base (snd x)) (descendants c))
          ++ map (fun x => image_error E base (snd x))
               (descendants_from descendants (S i) r)).
  rewrite first_error_app.
  destruct (first_error
              (image_error E base c
               :: map (fun x => image_error E base (snd x)) (descendants c)))
    as [e |]; [reflexivity |].
  cbn [rbind].
  match goal with
  | |- rbind (match ?t' with _ => _ end) _ = match ?t with _ => _ end =>
    change t' with t; destruct t
  end; reflexivity.
Qed.

Lemma rewrite_imgs_exact (base : ustring) (n : node) :
  rewrite_imgs E base n
  = match first_error
            (image_error E base n
             :: map (fun x => image_error E base (snd x)) (descendants n))
    with
    | Some e => Raise e
    | None => Ok (absolute_srcs (urljoin E base) n)
    end.
Proof.
  induction n as [s | nm cls a ch IH] using node_ind; [reflexivity |].
  change (descendants (Elem nm cls a ch))
    with (descendants_from descendants 0 ch).
  cbn [rewrite_imgs absolute_srcs].
  rewrite (@rewrite_children_exact base ch IH 0).
  remember (map (fun x => image_error E base (snd x))
              (descendants_from descendants 0 ch)) as rest eqn:Hrest.
  clear Hrest. unfold image_error at 1. cbn [is_tag].
  destruct (String.eqb nm "img");
    [| cbn [first_error rbind]; destruct (first_error rest); reflexivity].
  unfold src_error, rewrite_src, checked_urljoin. cbn [tag_get].
  destruct (attr_get "src" a) as [src |]; [| reflexivity].
  cbn [of_option rbind].
  destruct (contains BASE_DOMAIN src); cbn [negb andb];
    [cbn [first_error rbind]; destruct (first_error rest); reflexivity |].
  destruct (urljoin_raises E base src); [reflexivity |].
  cbn [first_error rbind]. destruct (first_error rest); reflexivity.
Qed.

Lemma rewrite_block_exact (base : ustring) (b : node) :
  is_tag "img" b = false ->
  rewrite_block E base b
  = match first_error
            (map (fun x => src_error E base (snd x))
               (find_all (is_tag "img") b))
    with
    | Some e => Raise e
    | None => Ok (absolute_srcs (urljoin E base) b)
    end.
Proof.
  intros Hb. unfold find_all. rewrite <- first_error_images.
  destruct b as [s | nm cls a ch]; [reflexivity |].
  change (descendants (Elem nm cls a ch))
    with (descendants_from descendants 0 ch).
  cbn [rewrite_block absolute_srcs].
  simpl in Hb. rewrite Hb.
  rewrite (@rewrite_children_exact base ch) with (i := 0).
  - destruct (first_error _); reflexivity.
  - apply Forall_forall. intros n _. apply rewrite_imgs_exact.
Qed.

Lemma absolute_srcs_get (join : ustring -> ustring) (p : path) :
  forall n x, get n p = Some x ->
  get (absolute_srcs join n) p = Some (absolute_srcs join x).
Proof.
  induction p as [| i q IH]; intros n x H; simpl in *.
  - inversion H. reflexivity.
  - destruct n as [s | nm cls a ch]; [discriminate |]. simpl.
    rewrite nth_error_map.
    destruct (nth_error ch i) as [c |]; [| discriminate]. simpl.
    apply IH. exact H.
Qed.

Lemma tag_class_div_not_img (c : string) (n : node) :
  tag_class "div" c n = true -> is_tag "img" n = false.
Proof.
  destruct n as [s | nm cls a ch]; simpl; [reflexivity |].
  unfold tag_class. simpl. intros H. apply andb_true_iff in H.
  destruct H as [H _]. apply String.eqb_eq in H. subst. reflexivity.
Qed.

End Fragments.

(** C5, at the failing input: the condition of the page holds a formula
    image and a picture whose relative [src] is "/files/sdamgia.ru/pic.png".
    With recognition the rendered fragment has lost the formula image (its
    recognized text stands in its place), and the [src] of the picture is
    left relative, since it holds the text of the base domain. *)
Theorem html_loses_formula_and_keeps_relative_src :
  option_map (fun pr => option_map html (condition pr))
    (returned (get_problem_by_id (serve [page_lookalike]) 5 true None None
                 client))
  = Some (Some (div "pbody" [Text (u "x = "); Text (u "$x$");
                             img [] "/files/sdamgia.ru/pic.png"])) /\
  find_all (tag_class "img" "tex")
    (div "pbody" [Text (u "x = "); Text (u "$x$");
                  img [] "/files/sdamgia.ru/pic.png"]) = [] /\
  startswith (u "https://") (u "/files/sdamgia.ru/pic.png") = false.
Proof.
  split; [vm_compute; reflexivity |]. split; vm_compute; reflexivity.
Qed.

(** Without recognition, the solution part, and the condition part when
    the first body block of the page lies in the problem block, render the
    fragment of the fetched page with exactly one change: every image
    [src] that does not hold "sdamgia.ru" is replaced by its join with the
    base URL.  Images are kept. *)
Theorem html_is_fragment_with_joined_srcs
  (E : Env) (problem_id : Z) (kg ks : option ustring)
  (self self' : SdamGIA) (pr : Problem) (page : ustring) (block : path) (b : node)
  (Hpage : http_get E (problem_url E (overridden kg ks self) problem_id) []
           = Ok page)
  (Hblock : find (tag_class "div" "prob_maindiv") (soup_of E page)
            = Some (block, b))
  (Hcall : get_problem_by_id E problem_id false kg ks self = (Ok pr, self')) :
  (forall part, solution pr = Some part ->
     exists p frag, solution_tag_of b = Ok (p, frag) /\
       html part
       = absolute_srcs (urljoin E (base_url (overridden kg ks self))) frag) /\
  (forall q frag,
     find (tag_class "div" "pbody") (soup_of E page) = Some (q, frag) ->
     below block q ->
     exists part, condition pr = Some part /\
       html part
       = absolute_srcs (urljoin E (base_url (overridden kg ks self))) frag).
Proof.
  apply handle_params_Ok in Hcall. destruct Hcall as [s2 [Hcall _]].
  apply get_problem_by_id_body_Ok in Hcall.
  destruct Hcall as [page' [block' [b0 [b' [soup2 [s2' [soup3 H]]]]]]].
  destruct H as [Hp [Hb [Hrw [Hc [Hs _]]]]].
  unfold problem_url in Hpage. unfold problem_url in Hp.
  rewrite Hpage in Hp. inversion Hp; subst page'. clear Hp.
  rewrite Hblock in Hb. inversion Hb; subst block' b0. clear Hb.
  rewrite condition_step_plain in Hc. injection Hc as Hcd Hc2 Hc3.
  subst soup2 s2'.
  rewrite solution_step_plain in Hs. injection Hs as Hsl Hs3 Hs'.
  pose proof (find_get _ _ Hblock) as [Hg Hdiv].
  pose proof (rewrite_block_similar _ _ _ Hrw) as Hbb'.
  apply tag_class_div_not_img in Hdiv.
  pose proof (rewrite_block_absolute _ _ _ Hdiv Hrw) as Hb'.
  set (join := urljoin E (base_url (overridden kg ks self))) in *.
  assert (Hd : "div" <> "img") by discriminate.
  split.
  - intros part Hpart. rewrite <- Hsl in Hpart. clear Hsl.
    unfold deref in Hpart. rewrite (@get_set_same _ _ b b' Hg) in Hpart.
    pose proof (@solution_tag_of_similar b b' Hbb') as Hsim.
    destruct (solution_tag_of b') as [[p t'] | |] eqn:Ht'; try discriminate.
    destruct (solution_tag_of b) as [[p0 t] | |] eqn:Ht; try contradiction.
    destruct Hsim as [Hpp _]. simpl in Hpp. subst p0.
    exists p, t. split; [reflexivity |]. inversion Hpart; subst part. simpl.
    apply solution_tag_of_get in Ht, Ht'.
    apply (absolute_srcs_get join) in Ht. rewrite <- Hb' in Ht. congruence.
  - intros q frag Hq [rel ->].
    pose proof (@similar_set _ _ _ _ Hg Hbb') as Hsoup.
    pose proof (@similar_find _ _ _ (stable_tag_class "pbody" Hd) Hsoup) as Hf.
    rewrite Hq in Hf.
    destruct (find (tag_class "div" "pbody") (set (soup_of E page) block b'))
      as [[q' t'] |] eqn:Hq'; [| contradiction].
    destruct Hf as [Hqq _]. simpl in Hqq. subst q'.
    simpl in Hcd. exists (plain_part t'). split; [symmetry; exact Hcd |]. simpl.
    apply find_get in Hq, Hq'. destruct Hq as [Hq _]. destruct Hq' as [Hq' _].
    rewrite (@get_set_below _ _ rel _ b' Hg) in Hq'.
    rewrite get_app, Hg in Hq.
    apply (absolute_srcs_get join) in Hq. rewrite <- Hb' in Hq. congruence.
Qed.


(** ** What fails the call and what does not *)

Section Guards.

Variable E : Env.

(** No problem block: [RuntimeError], and no record. *)
Lemma get_problem_by_id_without_block (problem_id : Z) (r : bool)
  (kg ks : option ustring) (self : SdamGIA) (page : ustring) :
  http_get E (problem_url E (overridden kg ks self) problem_id) [] = Ok page ->
  find (tag_class "div" "prob_maindiv") (soup_of E page) = None ->
  get_problem_by_id E problem_id r kg ks self
  = (Raise RuntimeError, after_request E (overridden kg ks self) problem_id).
Proof.
  intros Hpage Hnone. apply handle_params_raises.
  unfold get_problem_by_id_body, bind, _get. unfold problem_url in Hpage.
  rewrite Hpage, Hnone. reflexivity.
Qed.

Lemma topic_id_guarded (b : node) :
  exists v, try_except (t <~ topic_id_of E b ;; Ok (Some t))
              [IndexError; AttributeError; ValueError] None = Ok v.
Proof.
  unfold topic_id_of.
  destruct (find (tag_class "span" "prob_nums") b) as [x |];
    [| eexists; reflexivity].
  cbn [of_option rbind].
  destruct (nth_error (split_ws (text (snd x))) 1) as [tok |];
    [| eexists; reflexivity].
  cbn [of_option rbind].
  destruct (int_of_str E tok); eexists; reflexivity.
Qed.

Lemma answer_guarded (b : node) :
  exists v, try_except (answer_of b) [IndexError; AttributeError] [] = Ok v.
Proof.
  unfold answer_of.
  destruct (find (tag_class "div" "answer") b); eexists; reflexivity.
Qed.

(** Without recognition, once the block is found, the rewriting loop
    raises at none of its images and the analogs can be read, the call
    returns: a missing topic id, condition, solution or answer never fails
    it. *)
Lemma guarded_fields_never_fail (problem_id : Z) (kg ks : option ustring)
  (self : SdamGIA) (page : ustring) (block : path) (b : node) (l : list Z) :
  http_get E (problem_url E (overridden kg ks self) problem_id) [] = Ok page ->
  find (tag_class "div" "prob_maindiv") (soup_of E page) = Some (block, b) ->
  Forall (fun img => src_error E (base_url (overridden kg ks self)) (snd img)
                     = None)
    (find_all (is_tag "img") b) ->
  analogs_of E problem_id b = Ok l ->
  exists pr self',
    get_problem_by_id E problem_id false kg ks self = (Ok pr, self') /\
    analogs pr = l.
Proof.
  intros Hpage Hblock Himgs Han.
  pose proof (find_get _ _ Hblock) as [Hg Hdiv].
  assert (Hrw : exists b',
            rewrite_block E (base_url (overridden kg ks self)) b = Ok b').
  { rewrite rewrite_block_exact
      by (eapply tag_class_div_not_img; exact Hdiv).
    rewrite first_error_none by exact Himgs. eauto. }
  destruct Hrw as [b' Hrw].
  assert (Hderef : deref (set (soup_of E page) block b') block = b').
  { unfold deref. rewrite (@get_set_same _ _ b b' Hg). reflexivity. }
  assert (Han' : analogs_of E problem_id b' = Ok l).
  { rewrite (@analogs_of_similar E problem_id b b'); [exact Han |].
    eapply rewrite_block_similar; eauto. }
  destruct (topic_id_guarded b') as [topic Htopic].
  destruct (answer_guarded b') as [ans Hans].
  eexists. eexists. split.
  - apply handle_params_returns.
    unfold get_problem_by_id_body, bind, _get, get_self, lift.
    unfold problem_url in Hpage. rewrite Hpage, Hblock.
    change (base_url (with_sent _ (overridden kg ks self)))
      with (base_url (overridden kg ks self)).
    rewrite Hrw. cbn [rbind]. rewrite Hderef, Htopic.
    rewrite condition_step_plain. cbn [fst snd].
    rewrite solution_step_plain. cbn [fst snd].
    rewrite Hderef, Hans, Han'. unfold ret. reflexivity.
  - reflexivity.
Qed.

End Guards.

(** ** The theorems on the sample page *)

Lemma analogs_ascending_from_related_links_witness :
  Sorted Z.le (analogs (problem_of recognized_outside)) /\
  Permutation [31; 7; 7]%Z (analogs (problem_of recognized_outside)).
Proof.
  assert (Hvoid : true = true ->
                  void_imgs (soup_of (serve [page_outside]) (u "1")) = true)
    by (intros _; vm_compute; reflexivity).
  assert (Hpage : http_get (serve [page_outside])
                    (problem_url (serve [page_outside])
                       (overridden None None client) 5) [] = Ok (u "1"))
    by (vm_compute; reflexivity).
  assert (Hblock : find (tag_class "div" "prob_maindiv")
                     (soup_of (serve [page_outside]) (u "1"))
                   = Some ([1], deref page_outside [1]))
    by (vm_compute; reflexivity).
  assert (Hcall : get_problem_by_id (serve [page_outside]) 5 true None None client
                  = (Ok (problem_of recognized_outside), snd recognized_outside))
    by (vm_compute; reflexivity).
  destruct (analogs_ascending_from_related_links _ _ _ _ _ Hvoid Hpage
              Hblock Hcall)
    as [Hsorted [minor [hrefs [ids [Hm [Hh [Hids Hperm]]]]]]].
  split; [exact Hsorted |].
  vm_compute in Hm. injection Hm as <-.
  vm_compute in Hh. injection Hh as <-.
  assert (Hl : filter (isdigit (serve [page_outside]))
                 (map (replace (u "/problem?id=") [])
                    (filter (fun href => negb (contains (str_of_int 5) href))
                       [u "/problem?id=31"; u "/problem?id=7";
                        u "/problem?id=15"; u "/problem?id=7"]))
               = [u "31"; u "7"; u "7"]) by (vm_compute; reflexivity).
  change (filter _ _) with
    (filter (isdigit (serve [page_outside]))
       (map (replace (u "/problem?id=") [])
          (filter (fun href => negb (contains (str_of_int 5) href))
             [u "/problem?id=31"; u "/problem?id=7";
              u "/problem?id=15"; u "/problem?id=7"]))) in Hids.
  rewrite Hl in Hids.
  inversion Hids as [| x1 n1 l1 r1 H1 Hr1]; subst.
  inversion Hr1 as [| x2 n2 l2 r2 H2 Hr2]; subst.
  inversion Hr2 as [| x3 n3 l3 r3 H3 Hr3]; subst.
  inversion Hr3; subst.
  vm_compute in H1, H2, H3.
  injection H1 as <-. injection H2 as <-. injection H3 as <-.
  exact Hperm.
Defined.

Lemma html_is_fragment_with_joined_srcs_witness :
  exists p frag,
    solution_tag_of (deref page_outside [1]) = Ok (p, frag) /\
    html solution_outside
    = absolute_srcs
        (urljoin (serve [page_outside]) (base_url (overridden None None client)))
        frag.
Proof.
  assert (Hpage : http_get (serve [page_outside])
                    (problem_url (serve [page_outside])
                       (overridden None None client) 5) [] = Ok (u "1"))
    by (vm_compute; reflexivity).
  assert (Hblock : find (tag_class "div" "prob_maindiv")
                     (soup_of (serve [page_outside]) (u "1"))
                   = Some ([1], deref page_outside [1]))
    by (vm_compute; reflexivity).
  assert (Hcall : get_problem_by_id (serve [page_outside]) 5 false None None client
                  = (Ok (problem_of plain_outside), snd plain_outside))
    by (vm_compute; reflexivity).
  assert (Hsol : solution (problem_of plain_outside) = Some solution_outside)
    by (vm_compute; reflexivity).
  exact (proj1 (html_is_fragment_with_joined_srcs _ _ _ _ _ Hpage Hblock Hcall)
           solution_outside Hsol).
Defined.


(** ** Coroutines that keep the scope *)

Lemma keeps_scope_ret {A} (a : A) : keeps_scope (ret a).
Proof. intros self. auto. Qed.

Lemma keeps_scope_lift {A} (r : result A) : keeps_scope (lift r).
Proof. intros self. auto. Qed.

Lemma keeps_scope_get_self : keeps_scope get_self.
Proof. intros self. auto. Qed.

Lemma keeps_scope_bind {A B} (m : M A) (k : A -> M B) :
  keeps_scope m -> (forall a, keeps_scope (k a)) -> keeps_scope (bind m k).
Proof.
  intros Hm Hk self. unfold bind. specialize (Hm self).
  destruct (m self) as [[a | e |] s1]; simpl in *; auto.
  destruct (Hk a s1) as [H1 H2]. destruct Hm as [H3 H4].
  rewrite H1, H2. auto.
Qed.

Lemma keeps_scope_try {A} (m : M A) (handled : list exn) (default : A) :
  keeps_scope m -> keeps_scope (try_exceptM m handled default).
Proof.
  intros Hm self. unfold try_exceptM. specialize (Hm self).
  destruct (m self) as [r s1]. exact Hm.
Qed.

Lemma keeps_scope_mapM {A B} (f : A -> M B) (l : list A) :
  (forall a, keeps_scope (f a)) -> keeps_scope (mapM f l).
Proof.
  intros Hf. induction l as [| a r IH]; simpl.
  - apply keeps_scope_ret.
  - apply keeps_scope_bind; [apply Hf |]. intros b.
    apply keeps_scope_bind; [exact IH |]. intros bs. apply keeps_scope_ret.
Qed.

Lemma keeps_scope_run_tasks {A} (tasks : list (M A)) :
  Forall keeps_scope tasks ->
  forall self, gia_type (snd (run_tasks tasks self)) = gia_type self /\
               subject (snd (run_tasks tasks self)) = subject self.
Proof.
  intros H. induction H as [| t r Ht Hr IH]; intros self; simpl; [auto |].
  specialize (Ht self). destruct (t self) as [o s1]. specialize (IH s1).
  destruct (run_tasks r s1) as [os s2]. simpl in *.
  destruct IH as [-> ->]. exact Ht.
Qed.

Lemma keeps_scope_gather {A} (first : nat) (tasks : list (M A)) :
  Forall keeps_scope tasks -> keeps_scope (gather first tasks).
Proof.
  intros H self. unfold gather.
  pose proof (keeps_scope_run_tasks H self) as Hk.
  destruct (run_tasks tasks self) as [os s1]. exact Hk.
Qed.

Section Scope.

Variable E : Env.

Lemma keeps_scope_get (path : ustring) (url : option ustring)
  (params : list (string * ustring)) : keeps_scope (_get E path url params).
Proof. intros self. auto. Qed.

Lemma keeps_scope_image_to_tex (i : image) : keeps_scope (image_to_tex E i).
Proof.
  unfold image_to_tex. apply keeps_scope_bind; [apply keeps_scope_get_self |].
  intros self. apply keeps_scope_bind.
  - destruct (_latex_ocr_model self); [apply keeps_scope_ret |].
    destruct (LatexOCR E); [| apply keeps_scope_lift].
    apply keeps_scope_bind; [intros s; auto | intros; apply keeps_scope_ret].
  - intros m. apply keeps_scope_bind; [apply keeps_scope_lift |].
    intros t. apply keeps_scope_ret.
Qed.

Lemma keeps_scope_get_latex (links : list (option ustring)) :
  keeps_scope (get_latex_from_url_list E links).
Proof.
  unfold get_latex_from_url_list. apply keeps_scope_bind.
  - unfold gather_images. apply keeps_scope_gather. apply Forall_forall.
    intros t Ht. apply in_map_iff in Ht. destruct Ht as [url [<- _]].
    unfold get_image_from_url.
    apply keeps_scope_bind; [apply keeps_scope_get |].
    intros b. apply keeps_scope_lift.
  - intros imgs. apply keeps_scope_bind.
    + apply keeps_scope_mapM. apply keeps_scope_image_to_tex.
    + intros l. apply keeps_scope_ret.
Qed.

Lemma keeps_scope_get_problem_part (tag : option node) (r : bool) :
  keeps_scope (_get_problem_part E tag r).
Proof.
  unfold _get_problem_part. destruct tag as [tag |]; [| apply keeps_scope_lift].
  apply keeps_scope_bind.
  - destruct r; [| apply keeps_scope_ret].
    apply keeps_scope_bind; [apply keeps_scope_get_latex |]. intros d.
    apply keeps_scope_bind; [apply keeps_scope_lift |]. intros t.
    apply keeps_scope_ret.
  - intros x. apply keeps_scope_ret.
Qed.

Lemma keeps_scope_condition_step (soup : node) (r : bool) :
  keeps_scope (condition_step E soup r).
Proof.
  unfold condition_step. apply keeps_scope_try.
  apply keeps_scope_bind; [apply keeps_scope_get_problem_part |].
  intros x. apply keeps_scope_ret.
Qed.

Lemma keeps_scope_solution_step (soup : node) (block : path) (r : bool) :
  keeps_scope (solution_step E soup block r).
Proof.
  unfold solution_step. apply keeps_scope_try.
  apply keeps_scope_bind; [apply keeps_scope_lift |]. intros t.
  apply keeps_scope_bind; [apply keeps_scope_get_problem_part |].
  intros x. apply keeps_scope_ret.
Qed.

Lemma keeps_scope_get_problem_by_id_body (problem_id : Z) (r : bool) :
  keeps_scope (get_problem_by_id_body E problem_id r).
Proof.
  unfold get_problem_by_id_body.
  apply keeps_scope_bind; [apply keeps_scope_get |]. intros page.
  destruct (find (tag_class "div" "prob_maindiv") (soup_of E page))
    as [[block b] |]; [| apply keeps_scope_lift].
  apply keeps_scope_bind; [apply keeps_scope_get_self |]. intros self.
  apply keeps_scope_bind; [apply keeps_scope_lift |]. intros soup.
  apply keeps_scope_bind; [apply keeps_scope_lift |]. intros topic.
  apply keeps_scope_bind; [apply keeps_scope_condition_step |]. intros c.
  apply keeps_scope_bind; [apply keeps_scope_solution_step |]. intros sl.
  apply keeps_scope_bind; [apply keeps_scope_lift |]. intros ans.
  apply keeps_scope_bind; [apply keeps_scope_lift |]. intros an.
  apply keeps_scope_bind; [apply keeps_scope_get_self |]. intros self2.
  apply keeps_scope_ret.
Qed.

(** The fields of the record that [get_problem_by_id_body_Ok] leaves
    out. *)
Lemma get_problem_by_id_body_fields (pid : Z) (r : bool)
  (self self' : SdamGIA) (pr : Problem) :
  get_problem_by_id_body E pid r self = (Ok pr, self') ->
  exists page block b b' soup2 s2 soup3,
    http_get E (problem_url E self pid) [] = Ok page /\
    find (tag_class "div" "prob_maindiv") (soup_of E page) = Some (block, b) /\
    rewrite_block E (base_url self) b = Ok b' /\
    condition_step E (set (soup_of E page) block b') r
      (after_request E self pid) = (Ok (condition pr, soup2), s2) /\
    solution_step E soup2 block r s2 = (Ok (solution pr, soup3), self') /\
    try_except (t <~ topic_id_of E (deref (set (soup_of E page) block b') block) ;;
                Ok (Some t))
      [IndexError; AttributeError; ValueError] None = Ok (topic_id pr) /\
    try_except (answer_of (deref soup3 block)) [IndexError; AttributeError] []
    = Ok (answer pr) /\
    p_gia_type pr = gia_type self' /\ p_subject pr = subject self' /\
    problem_id pr = pid.
Proof.
  unfold get_problem_by_id_body. intros H.
  apply bind_Ok in H. destruct H as [page [s1 [Hpage H]]].
  unfold _get in Hpage. inversion Hpage as [[Hget Hs1]]. clear Hpage.
  destruct (find (tag_class "div" "prob_maindiv") (soup_of E page))
    as [[block b] |] eqn:Hblock; [| discriminate].
  apply bind_Ok in H. destruct H as [s1' [s1'' [Hself H]]].
  inversion Hself; subst s1' s1''. clear Hself.
  apply bind_Ok in H. destruct H as [soup1 [s1' [Hsoup H]]].
  apply lift_Ok in Hsoup. destruct Hsoup as [Hsoup ->].
  apply rbind_Ok in Hsoup. destruct Hsoup as [b' [Hb' Hsoup]].
  inversion Hsoup; subst soup1. clear Hsoup.
  apply bind_Ok in H. destruct H as [topic [s1' [Htopic H]]].
  apply lift_Ok in Htopic. destruct Htopic as [Htopic ->].
  apply bind_Ok in H. destruct H as [[c soup2] [s2 [Hc H]]].
  apply bind_Ok in H. destruct H as [[sl soup3] [s3 [Hsl H]]].
  apply bind_Ok in H. destruct H as [ans [s3' [Hans H]]].
  apply lift_Ok in Hans. destruct Hans as [Hans ->].
  apply bind_Ok in H. destruct H as [an [s3' [Han H]]].
  apply lift_Ok in Han. destruct Han as [Han ->].
  apply bind_Ok in H. destruct H as [s4 [s4' [Hself H]]].
  inversion Hself; subst s4 s4'. clear Hself.
  apply ret_Ok in H. destruct H as [-> ->]. simpl in *.
  exists page, block, b, b', soup2, s2, soup3. subst s1.
  repeat split; assumption.
Qed.

End Scope.

(** ** More on the problem page *)

Section ProblemPage.

Variable E : Env.

(** The call fails at the first image of the problem block, in document
    order, at which the rewriting loop raises, with the exception of that
    image: [KeyError] for an image without [src], [ValueError] for a [src]
    that [urljoin] cannot join; no field is read. *)
Theorem first_bad_image_fails_the_call
  (pid : Z) (r : bool) (kg ks : option ustring) (self : SdamGIA)
  (page : ustring) (block p : path) (b x : node)
  (before after : list (path * node)) (e : exn)
  (Hpage : http_get E (problem_url E (overridden kg ks self) pid) [] = Ok page)
  (Hblock : find (tag_class "div" "prob_maindiv") (soup_of E page)
            = Some (block, b))
  (Himgs : find_all (is_tag "img") b = before ++ (p, x) :: after)
  (Hbefore : Forall
               (fun y => src_error E (base_url (overridden kg ks self)) (snd y)
                         = None) before)
  (Hbad : src_error E (base_url (overridden kg ks self)) x = Some e) :
  get_problem_by_id E pid r kg ks self
  = (Raise e, after_request E (overridden kg ks self) pid).
Proof.
  apply handle_params_raises.
  assert (Hb : rewrite_block E (base_url (overridden kg ks self)) b = Raise e).
  { rewrite rewrite_block_exact.
    - rewrite Himgs, map_app, first_error_app.
      replace (first_error (map _ before)) with (@None exn).
      + simpl. rewrite Hbad. reflexivity.
      + clear - Hbefore. induction Hbefore as [| y l Hy Hl IH]; simpl;
          [reflexivity |]. rewrite Hy. exact IH.
    - apply find_get in Hblock. destruct Hblock as [_ Hc].
      eapply tag_class_div_not_img; eauto. }
  unfold get_problem_by_id_body, bind, _get, get_self, lift.
  unfold problem_url in Hpage. rewrite Hpage, Hblock.
  change (base_url (with_sent _ (overridden kg ks self)))
    with (base_url (overridden kg ks self)).
  rewrite Hb. reflexivity.
Qed.

(** Without recognition a call that returns has sent the page request
    and nothing else, has left the recognition model alone, and gives parts
    with an empty text. *)
Theorem plain_call_sends_one_request
  (pid : Z) (kg ks : option ustring) (self self' : SdamGIA) (pr : Problem)
  (Hcall : get_problem_by_id E pid false kg ks self = (Ok pr, self')) :
  self' = with_sent
            (sent self ++ [(problem_url E (overridden kg ks self) pid, [])]) self
  /\ (forall part, condition pr = Some part -> text_ part = [])
  /\ (forall part, solution pr = Some part -> text_ part = []).
Proof.
  apply handle_params_Ok in Hcall. destruct Hcall as [s2 [Hcall ->]].
  apply get_problem_by_id_body_Ok in Hcall.
  destruct Hcall as [page [block [b [b' [soup2 [s2' [soup3 H]]]]]]].
  destruct H as [_ [_ [_ [Hc [Hs _]]]]].
  rewrite condition_step_plain in Hc. injection Hc as Hcd Hc2 Hc3.
  subst soup2 s2'.
  rewrite solution_step_plain in Hs. injection Hs as Hsl Hs3 Hs'.
  subst s2. split; [| split].
  - unfold after_request. rewrite restore_with_sent.
    replace (sent (overridden kg ks self)) with (sent self)
      by (destruct kg, ks; reflexivity).
    reflexivity.
  - intros part Hp. rewrite Hp in Hcd.
    destruct (find (tag_class "div" "pbody") _) as [x |]; simpl in Hcd;
      inversion Hcd. reflexivity.
  - intros part Hp. rewrite Hp in Hsl.
    destruct (solution_tag_of _) as [x | e |]; inversion Hsl. reflexivity.
Qed.

(** The record names the exam type and the subject the call ran under,
    that is the keyword arguments where they are given, and the client is
    back to its own scope. *)
Theorem problem_records_scope_of_call
  (pid : Z) (r : bool) (kg ks : option ustring) (self self' : SdamGIA)
  (pr : Problem)
  (Hcall : get_problem_by_id E pid r kg ks self = (Ok pr, self')) :
  p_gia_type pr = match kg with Some g => g | None => gia_type self end /\
  p_subject pr = match ks with Some s => Some s | None => subject self end /\
  problem_id pr = pid /\
  gia_type self' = gia_type self /\ subject self' = subject self.
Proof.
  pose proof (handle_params_restores _ _ _ _ Hcall) as [Hg Hs].
  apply handle_params_Ok in Hcall. destruct Hcall as [s2 [Hcall _]].
  pose proof (keeps_scope_get_problem_by_id_body E pid r (overridden kg ks self))
    as [Hkg Hks].
  rewrite Hcall in Hkg, Hks. simpl in Hkg, Hks.
  apply get_problem_by_id_body_fields in Hcall.
  destruct Hcall as [page [block [b [b' [soup2 [s2' [soup3 H]]]]]]].
  destruct H as [_ [_ [_ [_ [_ [_ [_ [H1 [H2 H3]]]]]]]]].
  rewrite H1, H2, Hkg, Hks. repeat split; auto; destruct kg, ks; reflexivity.
Qed.

End ProblemPage.

(** ** Fields read from the problem block *)

Lemma lstrip_hd (s : ustring) (c : char) :
  hd_error (lstrip s) = Some c -> isspace c = false.
Proof.
  induction s as [| x r IH]; simpl; [discriminate |].
  destruct (isspace x) eqn:Hx; [exact IH |]. simpl. intros H.
  inversion H; subst. exact Hx.
Qed.

Lemma lstrip_suffix (s : ustring) : exists w, s = w ++ lstrip s.
Proof.
  induction s as [| x r [w IH]]; simpl; [exists []; reflexivity |].
  destruct (isspace x).
  - exists (x :: w). simpl. rewrite <- IH. reflexivity.
  - exists []. reflexivity.
Qed.

Lemma strip_hd (s : ustring) (c : char) :
  hd_error (strip s) = Some c -> isspace c = false.
Proof.
  unfold strip, rstrip. intros H. apply (lstrip_hd s).
  destruct (lstrip_suffix (rev (lstrip s))) as [w Hw].
  apply (f_equal (@rev char)) in Hw. rewrite rev_involutive, rev_app_distr in Hw.
  rewrite Hw. destruct (rev (lstrip (rev (lstrip s)))); [discriminate |].
  exact H.
Qed.

Lemma strip_last (s : ustring) (c : char) :
  last_error (strip s) = Some c -> isspace c = false.
Proof.
  unfold last_error, strip, rstrip. rewrite rev_involutive. apply lstrip_hd.
Qed.

Lemma descendants_from_absolute (join : ustring -> ustring) (ch : list node) :
  Forall (fun c => descendants (absolute_srcs join c)
                   = map (fun x => (fst x, absolute_srcs join (snd x)))
                       (descendants c)) ch ->
  forall i,
  descendants_from descendants i (map (absolute_srcs join) ch)
  = map (fun x => (fst x, absolute_srcs join (snd x)))
      (descendants_from descendants i ch).
Proof.
  intros H. induction H as [| c r Hc Hr IH]; intros i; simpl; [reflexivity |].
  rewrite map_app, IH, Hc, !map_map. reflexivity.
Qed.

Lemma descendants_absolute (join : ustring -> ustring) (n : node) :
  descendants (absolute_srcs join n)
  = map (fun x => (fst x, absolute_srcs join (snd x))) (descendants n).
Proof.
  induction n as [s | nm cls a ch IH] using node_ind; simpl; [reflexivity |].
  apply descendants_from_absolute. exact IH.
Qed.

Lemma tag_class_absolute (join : ustring -> ustring) (name c : string) (n : node) :
  tag_class name c (absolute_srcs join n) = tag_class name c n.
Proof. destruct n; reflexivity. Qed.

Lemma filter_map_comm {A B} (f : A -> B) (P : B -> bool) (l : list A) :
  filter P (map f l) = map f (filter (fun x => P (f x)) l).
Proof.
  induction l as [| a r IH]; simpl; [reflexivity |].
  destruct (P (f a)); simpl; rewrite IH; reflexivity.
Qed.

Lemma find_absolute (join : ustring -> ustring) (name c : string) (n : node) :
  find (tag_class name c) (absolute_srcs join n)
  = option_map (fun x => (fst x, absolute_srcs join (snd x)))
      (find (tag_class name c) n).
Proof.
  unfold find, find_all. rewrite descendants_absolute, filter_map_comm.
  simpl. erewrite filter_ext.
  2: { intros x. apply tag_class_absolute. }
  destruct (filter _ (descendants n)); reflexivity.
Qed.

Lemma strings_absolute (join : ustring -> ustring) (n : node) :
  strings (absolute_srcs join n) = strings n.
Proof.
  induction n as [s | nm cls a ch IH] using node_ind; simpl; [reflexivity |].
  induction IH as [| c r Hc Hr IHr]; simpl; [reflexivity |].
  rewrite Hc, IHr. reflexivity.
Qed.

Lemma text_absolute (join : ustring -> ustring) (n : node) :
  text (absolute_srcs join n) = text n.
Proof. unfold text. rewrite strings_absolute. reflexivity. Qed.

Section Fields.

Variable E : Env.

Lemma topic_id_of_absolute (join : ustring -> ustring) (b : node) :
  topic_id_of E (absolute_srcs join b) = topic_id_of E b.
Proof.
  unfold topic_id_of. rewrite find_absolute.
  destruct (find (tag_class "span" "prob_nums") b) as [x |]; simpl;
    [| reflexivity].
  rewrite text_absolute. reflexivity.
Qed.

Lemma answer_of_absolute (join : ustring -> ustring) (b : node) :
  answer_of (absolute_srcs join b) = answer_of b.
Proof.
  unfold answer_of. rewrite find_absolute.
  destruct (find (tag_class "div" "answer") b) as [x |]; simpl; [| reflexivity].
  rewrite text_absolute. reflexivity.
Qed.

(** The answer has no white space at either end. *)
Theorem answer_is_trimmed
  (pid : Z) (r : bool) (kg ks : option ustring) (self self' : SdamGIA)
  (pr : Problem)
  (Hcall : get_problem_by_id E pid r kg ks self = (Ok pr, self')) :
  (forall c, hd_error (answer pr) = Some c -> isspace c = false) /\
  (forall c, last_error (answer pr) = Some c -> isspace c = false).
Proof.
  apply handle_params_Ok in Hcall. destruct Hcall as [s2 [Hcall _]].
  apply get_problem_by_id_body_fields in Hcall.
  destruct Hcall as [page [block [b [b' [soup2 [s2' [soup3 H]]]]]]].
  destruct H as [_ [_ [_ [_ [_ [_ [Ha _]]]]]]].
  unfold answer_of in Ha.
  destruct (find (tag_class "div" "answer") (deref soup3 block)) as [x |];
    simpl in Ha; inversion Ha as [Hans].
  - split; intros c; [apply strip_hd | apply strip_last].
  - split; intros c; discriminate.
Qed.

(** The topic id is the integer of the second white-space separated
    token of the first number label of the fetched problem block, and is
    absent when there is no label, no second token, or no integer in it;
    recognition does not change it. *)
Theorem topic_id_is_second_token_of_label
  (pid : Z) (r : bool) (kg ks : option ustring) (self self' : SdamGIA)
  (pr : Problem) (page : ustring) (block : path) (b : node)
  (Hpage : http_get E (problem_url E (overridden kg ks self) pid) [] = Ok page)
  (Hblock : find (tag_class "div" "prob_maindiv") (soup_of E page)
            = Some (block, b))
  (Hcall : get_problem_by_id E pid r kg ks self = (Ok pr, self')) :
  topic_id pr
  = match find (tag_class "span" "prob_nums") b with
    | None => None
    | Some span =>
      match nth_error (split_ws (text (snd span))) 1 with
      | None => None
      | Some tok => int_of_str E tok
      end
    end.
Proof.
  apply handle_params_Ok in Hcall. destruct Hcall as [s2 [Hcall _]].
  apply get_problem_by_id_body_fields in Hcall.
  destruct Hcall as [page' [block' [b0 [b' [soup2 [s2' [soup3 H]]]]]]].
  destruct H as [Hp [Hb [Hrw [_ [_ [Ht _]]]]]].
  unfold problem_url in Hpage. unfold problem_url in Hp.
  rewrite Hpage in Hp. inversion Hp; subst page'. clear Hp.
  rewrite Hblock in Hb. inversion Hb; subst block' b0. clear Hb.
  pose proof (find_get _ _ Hblock) as [Hg Hdiv].
  apply tag_class_div_not_img in Hdiv.
  pose proof (@rewrite_block_absolute E _ _ _ Hdiv Hrw) as Hb'.
  unfold deref in Ht. rewrite (@get_set_same _ _ b b' Hg) in Ht.
  rewrite Hb', topic_id_of_absolute in Ht. unfold topic_id_of in Ht.
  destruct (find (tag_class "span" "prob_nums") b) as [span |];
    [| simpl in Ht; inversion Ht; reflexivity].
  cbn [of_option rbind] in Ht.
  destruct (nth_error (split_ws (text (snd span))) 1) as [tok |];
    [| simpl in Ht; inversion Ht; reflexivity].
  cbn [of_option rbind] in Ht.
  destruct (int_of_str E tok); simpl in Ht; inversion Ht; reflexivity.
Qed.

(** Without recognition the answer is read from the fetched block: the
    text of the first answer block, stripped of its leading characters
    that occur in "Ответ:" and then of white space, and empty when the
    block is not there. *)
Theorem plain_answer_from_fetched_block
  (pid : Z) (kg ks : option ustring) (self self' : SdamGIA)
  (pr : Problem) (page : ustring) (block : path) (b : node)
  (Hpage : http_get E (problem_url E (overridden kg ks self) pid) [] = Ok page)
  (Hblock : find (tag_class "div" "prob_maindiv") (soup_of E page)
            = Some (block, b))
  (Hcall : get_problem_by_id E pid false kg ks self = (Ok pr, self')) :
  answer pr
  = match find (tag_class "div" "answer") b with
    | None => []
    | Some d => strip (lstrip_chars (u "Ответ:") (text (snd d)))
    end.
Proof.
  apply handle_params_Ok in Hcall. destruct Hcall as [s2 [Hcall _]].
  apply get_problem_by_id_body_fields in Hcall.
  destruct Hcall as [page' [block' [b0 [b' [soup2 [s2' [soup3 H]]]]]]].
  destruct H as [Hp [Hb [Hrw [Hc [Hs [_ [Ha _]]]]]]].
  unfold problem_url in Hpage. unfold problem_url in Hp.
  rewrite Hpage in Hp. inversion Hp; subst page'. clear Hp.
  rewrite Hblock in Hb. inversion Hb; subst block' b0. clear Hb.
  rewrite condition_step_plain in Hc. injection Hc as _ Hc2 _. subst soup2.
  rewrite solution_step_plain in Hs. injection Hs as _ Hs3 _. subst soup3.
  pose proof (find_get _ _ Hblock) as [Hg Hdiv].
  apply tag_class_div_not_img in Hdiv.
  pose proof (@rewrite_block_absolute E _ _ _ Hdiv Hrw) as Hb'.
  unfold deref in Ha. rewrite (@get_set_same _ _ b b' Hg) in Ha.
  rewrite Hb', answer_of_absolute in Ha. unfold answer_of in Ha.
  destruct (find (tag_class "div" "answer") b) as [d |]; simpl in Ha;
    inversion Ha; reflexivity.
Qed.

End Fields.

(** ** The sample pages again *)

Lemma get_problem_by_id_without_block_witness :
  get_problem_by_id (serve [page_not_found]) 1 false (Some (u "oge")) None client
  = (Raise RuntimeError,
     after_request (serve [page_not_found])
       (overridden (Some (u "oge")) None client) 1).
Proof.
  assert (Hpage : http_get (serve [page_not_found])
                    (problem_url (serve [page_not_found])
                       (overridden (Some (u "oge")) None client) 1) []
                  = Ok (u "1"))
    by (vm_compute; reflexivity).
  assert (Hnone : find (tag_class "div" "prob_maindiv")
                    (soup_of (serve [page_not_found]) (u "1")) = None)
    by (vm_compute; reflexivity).
  exact (@get_problem_by_id_without_block (serve [page_not_found]) 1 false
           (Some (u "oge")) None client (u "1") Hpage Hnone).
Defined.

Lemma first_bad_image_fails_the_call_witness :
  get_problem_by_id (serve [page_no_src]) 1 true None None client
  = (Raise KeyError,
     after_request (serve [page_no_src]) (overridden None None client) 1) /\
  get_problem_by_id (serve [page_bad_src]) 1 false None None client
  = (Raise ValueError,
     after_request (serve [page_bad_src]) (overridden None None client) 1).
Proof.
  split.
  - assert (Hpage : http_get (serve [page_no_src])
                      (problem_url (serve [page_no_src])
                         (overridden None None client) 1) [] = Ok (u "1"))
      by (vm_compute; reflexivity).
    assert (Hblock : find (tag_class "div" "prob_maindiv")
                       (soup_of (serve [page_no_src]) (u "1"))
                     = Some ([0], deref page_no_src [0]))
      by (vm_compute; reflexivity).
    assert (Himgs : find_all (is_tag "img") (deref page_no_src [0])
                    = [] ++ ([0; 1], Elem "img" [] [] []) :: [])
      by (vm_compute; reflexivity).
    assert (Hbad : src_error (serve [page_no_src])
                     (base_url (overridden None None client))
                     (Elem "img" [] [] []) = Some KeyError)
      by reflexivity.
    exact (@first_bad_image_fails_the_call (serve [page_no_src]) 1 true
             None None client (u "1") [0] [0; 1] (deref page_no_src [0])
             (Elem "img" [] [] []) [] [] KeyError Hpage Hblock Himgs
             (Forall_nil _) Hbad).
  - assert (Hpage : http_get (serve [page_bad_src])
                      (problem_url (serve [page_bad_src])
                         (overridden None None client) 1) [] = Ok (u "1"))
      by (vm_compute; reflexivity).
    assert (Hblock : find (tag_class "div" "prob_maindiv")
                       (soup_of (serve [page_bad_src]) (u "1"))
                     = Some ([0], deref page_bad_src [0]))
      by (vm_compute; reflexivity).
    assert (Himgs : find_all (is_tag "img") (deref page_bad_src [0])
                    = [([0; 0], img [] "/pic.png")]
                      ++ ([0; 1], img [] "//[")
                      :: [([0; 2], Elem "img" [] [] [])])
      by (vm_compute; reflexivity).
    assert (Hbefore : Forall
                        (fun y => src_error (serve [page_bad_src])
                                    (base_url (overridden None None client))
                                    (snd y) = None)
                        [([0; 0], img [] "/pic.png")])
      by (constructor; [vm_compute; reflexivity | constructor]).
    assert (Hbad : src_error (serve [page_bad_src])
                     (base_url (overridden None None client))
                     (img [] "//[") = Some ValueError)
      by (vm_compute; reflexivity).
    exact (@first_bad_image_fails_the_call (serve [page_bad_src]) 1 false
             None None client (u "1") [0] [0; 1] (deref page_bad_src [0])
             (img [] "//[") _ _ ValueError Hpage Hblock Himgs Hbefore Hbad).
Defined.

Lemma plain_topic_call :
  get_problem_by_id (serve [page_topic]) 26664 false (Some (u "oge")) None client
  = (Ok (problem_of plain_topic), snd plain_topic).
Proof. vm_compute. reflexivity. Qed.

Lemma plain_topic_page :
  http_get (serve [page_topic])
    (problem_url (serve [page_topic]) (overridden (Some (u "oge")) None client)
       26664) [] = Ok (u "1").
Proof. vm_compute. reflexivity. Qed.

Lemma plain_topic_block :
  find (tag_class "div" "prob_maindiv") (soup_of (serve [page_topic]) (u "1"))
  = Some ([0], deref page_topic [0]).
Proof. vm_compute. reflexivity. Qed.

Lemma plain_call_sends_one_request_witness :
  snd plain_topic
  = with_sent
      (sent client ++
       [(problem_url (serve [page_topic])
           (overridden (Some (u "oge")) None client) 26664, [])]) client
  /\ (forall part, condition (problem_of plain_topic) = Some part ->
      text_ part = [])
  /\ (forall part, solution (problem_of plain_topic) = Some part ->
      text_ part = []).
Proof.
  exact (@plain_call_sends_one_request (serve [page_topic]) 26664
           (Some (u "oge")) None client (snd plain_topic)
           (problem_of plain_topic) plain_topic_call).
Defined.

Lemma problem_records_scope_of_call_witness :
  p_gia_type (problem_of plain_topic) = u "oge" /\
  p_subject (problem_of plain_topic) = subject client /\
  problem_id (problem_of plain_topic) = 26664%Z /\
  gia_type (snd plain_topic) = gia_type client /\
  subject (snd plain_topic) = subject client.
Proof.
  exact (@problem_records_scope_of_call (serve [page_topic]) 26664 false
           (Some (u "oge")) None client (snd plain_topic)
           (problem_of plain_topic) plain_topic_call).
Defined.

Lemma answer_is_trimmed_witness :
  (forall c, hd_error (answer (problem_of plain_topic)) = Some c ->
             isspace c = false) /\
  (forall c, last_error (answer (problem_of plain_topic)) = Some c ->
             isspace c = false).
Proof.
  exact (@answer_is_trimmed (serve [page_topic]) 26664 false
           (Some (u "oge")) None client (snd plain_topic)
           (problem_of plain_topic) plain_topic_call).
Defined.

Lemma topic_id_is_second_token_of_label_witness :
  topic_id (problem_of plain_topic)
  = match find (tag_class "span" "prob_nums") (deref page_topic [0]) with
    | None => None
    | Some span =>
      match nth_error (split_ws (text (snd span))) 1 with
      | None => None
      | Some tok => int_of_str (serve [page_topic]) tok
      end
    end.
Proof.
  exact (@topic_id_is_second_token_of_label (serve [page_topic]) 26664 false
           (Some (u "oge")) None client (snd plain_topic)
           (problem_of plain_topic) (u "1") [0] (deref page_topic [0])
           plain_topic_page plain_topic_block plain_topic_call).
Defined.

Lemma plain_answer_from_fetched_block_witness :
  answer (problem_of plain_topic)
  = match find (tag_class "div" "answer") (deref page_topic [0]) with
    | None => []
    | Some d => strip (lstrip_chars (u "Ответ:") (text (snd d)))
    end.
Proof.
  exact (@plain_answer_from_fetched_block (serve [page_topic]) 26664
           (Some (u "oge")) None client (snd plain_topic)
           (problem_of plain_topic) (u "1") [0] (deref page_topic [0])
           plain_topic_page plain_topic_block plain_topic_call).
Defined.

(** ** Recognition *)

Lemma keeps_ret {A X} (field : SdamGIA -> X) (a : A) : keeps field (ret a).
Proof. intros self. reflexivity. Qed.

Lemma keeps_lift {A X} (field : SdamGIA -> X) (r : result A) :
  keeps field (lift r).
Proof. intros self. reflexivity. Qed.

Lemma keeps_bind {A B X} (field : SdamGIA -> X) (m : M A) (k : A -> M B) :
  keeps field m -> (forall a, keeps field (k a)) -> keeps field (bind m k).
Proof.
  intros Hm Hk self. unfold bind. specialize (Hm self).
  destruct (m self) as [[a | e |] s1]; simpl in *; auto.
  rewrite (Hk a s1). exact Hm.
Qed.

Lemma keeps_mapM {A B X} (field : SdamGIA -> X) (f : A -> M B) (l : list A) :
  (forall a, keeps field (f a)) -> keeps field (mapM f l).
Proof.
  intros Hf. induction l as [| a r IH]; simpl.
  - apply keeps_ret.
  - apply keeps_bind; [apply Hf |]. intros b.
    apply keeps_bind; [exact IH |]. intros bs. apply keeps_ret.
Qed.

Lemma mapM_length {A B} (f : A -> M B) (l : list A) :
  forall l' self self', mapM f l self = (Ok l', self') -> length l' = length l.
Proof.
  induction l as [| a r IH]; intros l' self self' H; simpl in H.
  - apply ret_Ok in H. destruct H as [-> _]. reflexivity.
  - apply bind_Ok in H. destruct H as [b [s1 [_ H]]].
    apply bind_Ok in H. destruct H as [bs [s2 [Hbs H]]].
    apply ret_Ok in H. destruct H as [-> _]. simpl. f_equal. eapply IH; eauto.
Qed.

Lemma dict_get_combine (ks : list (option ustring)) :
  forall (vs : list ustring) (k : option ustring),
  length vs = length ks -> In k ks -> dict_get k (combine ks vs) <> None.
Proof.
  induction ks as [| k' r IH]; intros [| v vs] k Hlen Hin; simpl in *;
    try contradiction; try discriminate.
  destruct (dict_get k (combine r vs)) eqn:Hd; [discriminate |].
  destruct Hin as [-> | Hin].
  - rewrite (proj2 (option_eqb_eq k k) eq_refl). discriminate.
  - exfalso. eapply IH; eauto.
Qed.

Lemma descendants_from_child (k : nat) (ch : list node) :
  forall j c, nth_error ch j = Some c ->
  In ([k + j], c) (descendants_from descendants k ch) /\
  (forall q x, In (q, x) (descendants c) ->
     In ((k + j) :: q, x) (descendants_from descendants k ch)).
Proof.
  revert k. induction ch as [| c0 r IH]; intros k [| j] c H; simpl in H;
    try discriminate.
  - inversion H; subst. rewrite Nat.add_0_r. simpl. split; [auto |].
    intros q x Hin. right. apply in_or_app. left.
    apply (in_map (under k)) in Hin. exact Hin.
  - destruct (IH (S k) j c H) as [H1 H2].
    replace (k + S j) with (S k + j) by lia. simpl. split.
    + right. apply in_or_app. right. exact H1.
    + intros q x Hin. right. apply in_or_app. right. apply H2. exact Hin.
Qed.

Lemma find_all_child (P : node -> bool) (nm : string) (cls : list string)
  (a : list (string * ustring)) (ch : list node) (j : nat) (c : node) :
  nth_error ch j = Some c ->
  (P c = true -> In ([j], c) (find_all P (Elem nm cls a ch))) /\
  (forall q x, In (q, x) (find_all P c) ->
     In (j :: q, x) (find_all P (Elem nm cls a ch))).
Proof.
  intros H. destruct (descendants_from_child 0 ch j H) as [H1 H2].
  unfold find_all. simpl. split.
  - intros HP. apply filter_In. auto.
  - intros q x Hin. apply filter_In in Hin. destruct Hin as [Hin HP].
    apply filter_In. split; [apply H2; exact Hin | exact HP].
Qed.

Lemma nth_error_Forall {A} (P : A -> Prop) (l : list A) :
  (forall j c, nth_error l j = Some c -> P c) -> Forall P l.
Proof.
  intros H. apply Forall_forall. intros x Hin.
  apply In_nth_error in Hin. destruct Hin as [j Hj]. eauto.
Qed.

Lemma rmap_total {A B} (f : A -> result B) (l : list A) :
  Forall (fun x => exists y, f x = Ok y) l -> exists l', rmap f l = Ok l'.
Proof.
  intros H. induction H as [| x r [y Hy] Hr [l' IH]]; simpl; [eauto |].
  rewrite Hy, IH. simpl. eauto.
Qed.

Lemma rmap_same {A} (f : A -> result A) (l : list A) :
  Forall (fun x => f x = Ok x) l -> rmap f l = Ok l.
Proof.
  intros H. induction H as [| x r Hx Hr IH]; simpl; [reflexivity |].
  rewrite Hx, IH. reflexivity.
Qed.

Lemma no_element_nil {A} (l : list A) : (forall x, ~ In x l) -> l = [].
Proof.
  destruct l as [| a r]; [reflexivity |]. intros H. exfalso.
  apply (H a). left. reflexivity.
Qed.

Section Replace.

Variable d : list (option ustring * ustring).

Lemma replace_tex_selector (name c : string) (n n' : node) :
  replace_tex d n = Ok n' -> tag_class name c n' = tag_class name c n.
Proof.
  destruct n as [s | nm cls a ch]; simpl; intros H.
  - inversion H. reflexivity.
  - apply rbind_Ok in H. destruct H as [ch' [_ H]]. inversion H. reflexivity.
Qed.

Lemma replace_tex_total (n : node) :
  (forall p x, In (p, x) (find_all (tag_class "img" "tex") n) ->
     dict_get (tag_get x "src") d <> None) ->
  exists n', replace_tex d n = Ok n'.
Proof.
  induction n as [s | nm cls a ch IH] using node_ind; intros H; simpl;
    [eauto |].
  assert (Hch : Forall (fun c => exists y,
                          (if tag_class "img" "tex" c
                           then t <~ of_option (dict_get (tag_get c "src") d)
                                       ValueError ;; Ok (Text t)
                           else replace_tex d c) = Ok y) ch).
  { apply nth_error_Forall. intros j c Hc.
    destruct (@find_all_child (tag_class "img" "tex") nm cls a ch j c Hc)
      as [H1 H2].
    destruct (tag_class "img" "tex" c) eqn:Hx.
    - specialize (H _ _ (H1 eq_refl)).
      destruct (dict_get (tag_get c "src") d); [simpl; eauto | congruence].
    - rewrite Forall_forall in IH. apply IH.
      + eapply nth_error_In; eauto.
      + intros q x Hin. eapply H. apply H2. exact Hin. }
  destruct (rmap_total _ Hch) as [ch' Hch']. rewrite Hch'. simpl. eauto.
Qed.

Lemma replace_tex_same (n : node) :
  find_all (tag_class "img" "tex") n = [] -> replace_tex d n = Ok n.
Proof.
  induction n as [s | nm cls a ch IH] using node_ind; intros H; simpl;
    [reflexivity |].
  rewrite rmap_same; [reflexivity |].
  apply nth_error_Forall. intros j c Hc.
  destruct (@find_all_child (tag_class "img" "tex") nm cls a ch j c Hc)
    as [H1 H2]. rewrite H in H1, H2.
  destruct (tag_class "img" "tex" c) eqn:Hx; [destruct (H1 eq_refl) |].
  rewrite Forall_forall in IH. apply IH; [eapply nth_error_In; eauto |].
  apply no_element_nil. intros [q x] Hin. exact (H2 q x Hin).
Qed.

Lemma replace_tex_leaves_none (n : node) :
  forall n', replace_tex d n = Ok n' ->
  find_all (tag_class "img" "tex") n' = [].
Proof.
  induction n as [s | nm cls a ch IH] using node_ind; intros n' H; simpl in H.
  - inversion H. reflexivity.
  - apply rbind_Ok in H. destruct H as [ch' [Hch H]]. inversion H; subst n'.
    apply rmap_Ok in Hch. apply no_element_nil. intros [p x] Hin.
    apply find_all_get in Hin as Hg. destruct Hg as [_ HP].
    unfold find_all in Hin. apply filter_In in Hin. destruct Hin as [Hin _].
    simpl in Hin. apply descendants_from_In in Hin.
    destruct Hin as [j [y [Hy Hcase]]].
    pose proof (Forall2_nth_error j Hch) as Hrel. rewrite Hy in Hrel.
    destruct (nth_error ch j) as [c |] eqn:Hc; [| contradiction].
    assert (Hc' : In c ch) by (eapply nth_error_In; eauto).
    rewrite Forall_forall in IH. specialize (IH c Hc').
    destruct (tag_class "img" "tex" c) eqn:Hx.
    + apply rbind_Ok in Hrel. destruct Hrel as [t [_ Ht]]. inversion Ht; subst y.
      destruct Hcase as [[_ ->] | [q [_ Hq]]]; [discriminate | contradiction].
    + destruct Hcase as [[_ ->] | [q [_ Hq]]].
      * rewrite (replace_tex_selector "img" "tex" _ Hrel) in HP. congruence.
      * specialize (IH y Hrel).
        assert (Hq' : In (q, x) (find_all (tag_class "img" "tex") y)).
        { unfold find_all. apply filter_In. auto. }
        rewrite IH in Hq'. contradiction.
Qed.

End Replace.

Lemma all_results_length {A} (outcomes : list (result A)) :
  forall results, all_results outcomes = Some results ->
  length results = length outcomes.
Proof.
  induction outcomes as [| [a | e |] r IH]; intros results H; simpl in H;
    try discriminate.
  - inversion H. reflexivity.
  - destruct (all_results r) as [l |]; [| discriminate]. inversion H.
    simpl. rewrite (IH l eq_refl). reflexivity.
Qed.

Lemma run_tasks_length {A} (tasks : list (M A)) :
  forall self, length (fst (run_tasks tasks self)) = length tasks.
Proof.
  induction tasks as [| t r IH]; intros self; simpl; [reflexivity |].
  destruct (t self) as [o s1]. specialize (IH s1).
  destruct (run_tasks r s1) as [os s2]. simpl in *. rewrite IH. reflexivity.
Qed.

Lemma gathered_Ok {A} (first : nat) (outcomes : list (result A))
  (results : list A) :
  gathered first outcomes = Ok results -> all_results outcomes = Some results.
Proof.
  unfold gathered. destruct (all_results outcomes) as [l |].
  - intros H. inversion H. reflexivity.
  - destruct (failures outcomes); discriminate.
Qed.

Lemma gather_Ok_length {A} (first : nat) (tasks : list (M A))
  (self self' : SdamGIA) (results : list A) :
  gather first tasks self = (Ok results, self') ->
  length results = length tasks.
Proof.
  unfold gather. pose proof (run_tasks_length tasks self) as Hl.
  destruct (run_tasks tasks self) as [os s1]. intros H. inversion H.
  match goal with Hg : gathered _ _ = Ok _ |- _ => apply gathered_Ok in Hg;
    apply all_results_length in Hg; rewrite Hg end.
  exact Hl.
Qed.

Lemma keeps_gather {A X} (field : SdamGIA -> X) (first : nat)
  (tasks : list (M A)) :
  Forall (keeps field) tasks -> keeps field (gather first tasks).
Proof.
  intros H self. unfold gather.
  assert (Hk : field (snd (run_tasks tasks self)) = field self).
  { revert self. induction H as [| t r Ht Hr IH]; intros self; simpl;
      [reflexivity |].
    specialize (Ht self). destruct (t self) as [o s1]. specialize (IH s1).
    destruct (run_tasks r s1) as [os s2]. simpl in *. congruence. }
  destruct (run_tasks tasks self) as [os s1]. exact Hk.
Qed.

Lemma with_sent_same (self : SdamGIA) : with_sent (sent self) self = self.
Proof. destruct self; reflexivity. Qed.

Section Recognition.

Variable E : Env.

Lemma get_latex_Ok_keys (links : list (option ustring)) (self self' : SdamGIA)
  (d : list (option ustring * ustring)) :
  get_latex_from_url_list E links self = (Ok d, self') ->
  forall k, In k links -> dict_get k d <> None.
Proof.
  unfold get_latex_from_url_list. intros H k Hin.
  apply bind_Ok in H. destruct H as [imgs [s1 [Hi H]]].
  apply bind_Ok in H. destruct H as [texts [s2 [Ht H]]].
  apply ret_Ok in H. destruct H as [-> _].
  apply gather_Ok_length in Hi. rewrite length_map in Hi.
  apply mapM_length in Ht.
  apply dict_get_combine; [congruence | exact Hin].
Qed.

(** With recognition the part fails exactly when the formula pipeline
    fails, with the exception of the pipeline: once the formulas are
    recognized, every formula image finds its text and the part is built. *)
Theorem recognition_fails_only_in_pipeline (tag : node) (self : SdamGIA) :
  match get_latex_from_url_list E (tex_links tag) self with
  | (Ok d, s1) =>
    exists t', replace_tex d tag = Ok t' /\
      _get_problem_part E (Some tag) true self
      = (Ok ({| text_ := normalize_text E (get_text_strip t'); html := t';
                image_links := all_links t' (tex_links tag) |}, t'), s1)
  | (Raise e, s1) => _get_problem_part E (Some tag) true self = (Raise e, s1)
  | (OutOfFuel, s1) => _get_problem_part E (Some tag) true self = (OutOfFuel, s1)
  end.
Proof.
  unfold _get_problem_part, bind.
  destruct (get_latex_from_url_list E (tex_links tag) self)
    as [[d | e |] s1] eqn:Hd; try reflexivity.
  destruct (@replace_tex_total d tag) as [t' Ht'].
  { intros p x Hin. eapply get_latex_Ok_keys; [exact Hd |].
    unfold tex_links.
    apply (in_map (fun img => tag_get (snd img) "src")) in Hin. exact Hin. }
  exists t'. split; [exact Ht' |]. unfold lift. rewrite Ht'. reflexivity.
Qed.

(** After recognition the rendered fragment holds no formula image. *)
Theorem recognition_leaves_no_formula_image
  (tag t' : node) (self self' : SdamGIA) (part : ProblemPart)
  (Hcall : _get_problem_part E (Some tag) true self = (Ok (part, t'), self')) :
  find_all (tag_class "img" "tex") (html part) = [].
Proof.
  apply get_problem_part_Ok in Hcall. destruct Hcall as [-> [_ [_ Hr]]].
  destruct (Hr eq_refl) as [d Hd]. eapply replace_tex_leaves_none; eauto.
Qed.

(** Recognition of a fragment without formula images sends no request
    and does not construct the recognition model: the text is the
    normalized text of the fragment. *)
Theorem recognition_without_formulas (tag : node) (self : SdamGIA)
  (Hnone : find_all (tag_class "img" "tex") tag = []) :
  _get_problem_part E (Some tag) true self
  = (Ok ({| text_ := normalize_text E (get_text_strip tag); html := tag;
            image_links := all_links tag [] |}, tag), self).
Proof.
  unfold _get_problem_part, tex_links. rewrite Hnone. simpl.
  unfold bind, get_latex_from_url_list, bind, ret, lift. simpl.
  rewrite (replace_tex_same [] tag Hnone). reflexivity.
Qed.

Lemma keeps_model_get_image (url : option ustring) :
  keeps _latex_ocr_model (get_image_from_url E url).
Proof.
  unfold get_image_from_url. apply keeps_bind; [intros s; reflexivity |].
  intros b. apply keeps_lift.
Qed.

Lemma keeps_sent_image_to_tex (i : image) : keeps sent (image_to_tex E i).
Proof.
  unfold image_to_tex. apply keeps_bind; [intros s; reflexivity |].
  intros self. apply keeps_bind.
  - destruct (_latex_ocr_model self); [apply keeps_ret |].
    destruct (LatexOCR E); [| apply keeps_lift].
    apply keeps_bind; [intros s; reflexivity | intros; apply keeps_ret].
  - intros m. apply keeps_bind; [apply keeps_lift |].
    intros t. apply keeps_ret.
Qed.

Lemma image_to_tex_without_ocr (i : image) (self : SdamGIA) :
  LatexOCR E = None -> _latex_ocr_model self = None ->
  image_to_tex E i self = (Raise RuntimeError, self).
Proof.
  intros H1 H2. unfold image_to_tex, bind, get_self. rewrite H2, H1.
  reflexivity.
Qed.

(** Where [pix2tex] cannot be imported, recognition of a fragment that
    holds a formula image never gives a part: it raises what gathering the
    images raises, and [RuntimeError] once they are all fetched. *)
Theorem recognition_needs_pix2tex (tag : node) (self : SdamGIA)
  (Hocr : LatexOCR E = None)
  (Hmodel : _latex_ocr_model self = None)
  (Hsome : find_all (tag_class "img" "tex") tag <> []) :
  fst (_get_problem_part E (Some tag) true self)
  = match fst (gather_images E (tex_links tag) self) with
    | Ok _ => Raise RuntimeError
    | Raise e => Raise e
    | OutOfFuel => OutOfFuel
    end.
Proof.
  unfold _get_problem_part, get_latex_from_url_list.
  assert (Hk : keeps _latex_ocr_model (gather_images E (tex_links tag))).
  { unfold gather_images. apply keeps_gather. apply Forall_forall.
    intros t Ht. apply in_map_iff in Ht. destruct Ht as [url [<- _]].
    apply keeps_model_get_image. }
  specialize (Hk self).
  unfold bind at 1 2 3.
  destruct (gather_images E (tex_links tag) self)
    as [[imgs | e |] s1] eqn:Hi; try reflexivity.
  simpl in Hk. unfold gather_images in Hi. apply gather_Ok_length in Hi.
  rewrite length_map in Hi.
  destruct imgs as [| i r].
  - unfold tex_links in Hi. rewrite length_map in Hi.
    destruct (find_all (tag_class "img" "tex") tag); [congruence | discriminate].
  - cbn [mapM]. unfold bind.
    rewrite image_to_tex_without_ocr by congruence. reflexivity.
Qed.

Lemma run_tasks_get_image_sent (self : SdamGIA) (links : list (option ustring)) :
  forall sent0,
  sent (snd (run_tasks (map (get_image_from_url E) links)
               (with_sent sent0 self)))
  = sent0 ++ map (fun l => (image_url E self l, [])) links.
Proof.
  induction links as [| a rest IH]; intros sent0; simpl.
  - rewrite app_nil_r. reflexivity.
  - unfold get_image_from_url at 1. unfold bind at 1. unfold _get at 1.
    fold (image_url E (with_sent sent0 self) a).
    change (image_url E (with_sent sent0 self) a) with (image_url E self a).
    cbn [sent with_sent].
    change (with_sent (sent0 ++ [(image_url E self a, [])])
              (with_sent sent0 self))
      with (with_sent (sent0 ++ [(image_url E self a, [])]) self).
    specialize (IH (sent0 ++ [(image_url E self a, [])])).
    destruct (http_get E (image_url E self a) []) as [bytes | e |];
      [unfold lift at 1; destruct (svg2png E bytes) | |];
      destruct (run_tasks (map (get_image_from_url E) rest)
                  (with_sent (sent0 ++ [(image_url E self a, [])]) self))
        as [os s2]; simpl in *; rewrite IH, <- app_assoc; reflexivity.
Qed.

Lemma gather_images_sent (links : list (option ustring)) (self : SdamGIA) :
  sent (snd (gather_images E links self))
  = sent self ++ map (fun l => (image_url E self l, [])) links.
Proof.
  unfold gather_images, gather.
  pose proof (run_tasks_get_image_sent self links (sent self)) as H.
  rewrite with_sent_same in H.
  destruct (run_tasks (map (get_image_from_url E) links) self) as [os s1].
  exact H.
Qed.

(** A recognition that succeeds has sent one request for each formula
    image of the fragment, in document order, a repeated URL being
    requested again, and no other request. *)
Theorem recognition_fetches_each_formula
  (tag t' : node) (self self' : SdamGIA) (part : ProblemPart)
  (Hcall : _get_problem_part E (Some tag) true self = (Ok (part, t'), self')) :
  sent self'
  = sent self ++ map (fun l => (image_url E self l, [])) (tex_links tag).
Proof.
  unfold _get_problem_part in Hcall.
  apply bind_Ok in Hcall. destruct Hcall as [x [s1 [Hx H]]].
  apply ret_Ok in H. destruct H as [_ ->].
  apply bind_Ok in Hx. destruct Hx as [d [s2 [Hd Hx]]].
  apply bind_Ok in Hx. destruct Hx as [t [s3 [Ht Hx]]].
  apply lift_Ok in Ht. destruct Ht as [_ ->].
  apply ret_Ok in Hx. destruct Hx as [_ ->].
  unfold get_latex_from_url_list in Hd.
  apply bind_Ok in Hd. destruct Hd as [imgs [s4 [Hi Hd]]].
  apply bind_Ok in Hd. destruct Hd as [texts [s5 [Htx Hd]]].
  apply ret_Ok in Hd. destruct Hd as [_ ->].
  pose proof (@keeps_mapM _ _ _ sent (image_to_tex E) imgs
                keeps_sent_image_to_tex s4) as Hk.
  rewrite Htx in Hk. simpl in Hk. rewrite Hk.
  pose proof (gather_images_sent (tex_links tag) self) as Hs.
  rewrite Hi in Hs. exact Hs.
Qed.

(** With recognition every formula image of the fragment is requested,
    in document order, whatever becomes of the part: the tasks have all
    started when [gather] raises, so a fetch that fails does not keep the
    later ones from being sent. *)
Theorem recognition_requests_every_formula (tag : node) (self : SdamGIA) :
  sent (snd (_get_problem_part E (Some tag) true self))
  = sent self ++ map (fun l => (image_url E self l, [])) (tex_links tag).
Proof.
  unfold _get_problem_part, get_latex_from_url_list.
  pose proof (gather_images_sent (tex_links tag) self) as Hs.
  unfold bind at 1 2 3.
  destruct (gather_images E (tex_links tag) self) as [[imgs | e |] s1];
    simpl in Hs; try exact Hs.
  pose proof (@keeps_mapM _ _ _ sent (image_to_tex E) imgs
                keeps_sent_image_to_tex s1) as Hk.
  unfold bind at 1.
  destruct (mapM (image_to_tex E) imgs s1) as [[texts | e |] s2];
    simpl in Hk; try (simpl; congruence).
  unfold ret at 1. unfold bind at 1. unfold lift at 1.
  destruct (replace_tex (combine (tex_links tag) texts) tag);
    simpl; congruence.
Qed.

End Recognition.

Lemma recognized_mixed_call :
  _get_problem_part (serve []) (Some part_mixed) true client
  = (Ok (part_of_mixed, tag_of_mixed), snd recognized_mixed).
Proof. vm_compute. reflexivity. Qed.

Lemma recognition_leaves_no_formula_image_witness :
  find_all (tag_class "img" "tex") (html part_of_mixed) = [].
Proof.
  exact (@recognition_leaves_no_formula_image (serve []) part_mixed tag_of_mixed
           client (snd recognized_mixed) part_of_mixed recognized_mixed_call).
Defined.

Lemma recognition_fetches_each_formula_witness :
  sent (snd recognized_mixed)
  = sent client
    ++ map (fun l => (image_url (serve []) client l, [])) (tex_links part_mixed).
Proof.
  exact (@recognition_fetches_each_formula (serve []) part_mixed tag_of_mixed
           client (snd recognized_mixed) part_of_mixed recognized_mixed_call).
Defined.

Lemma recognition_without_formulas_witness :
  _get_problem_part (serve []) (Some part_plain) true client
  = (Ok ({| text_ := normalize_text (serve []) (get_text_strip part_plain);
            html := part_plain; image_links := all_links part_plain [] |},
         part_plain), client).
Proof.
  assert (Hnone : find_all (tag_class "img" "tex") part_plain = [])
    by (vm_compute; reflexivity).
  exact (@recognition_without_formulas (serve []) part_plain client Hnone).
Defined.

Lemma recognition_needs_pix2tex_witness :
  fst (_get_problem_part (serve_without_ocr []) (Some part_mixed) true client)
  = match fst (gather_images (serve_without_ocr []) (tex_links part_mixed)
                 client) with
    | Ok _ => Raise RuntimeError
    | Raise e => Raise e
    | OutOfFuel => OutOfFuel
    end.
Proof.
  assert (Hocr : LatexOCR (serve_without_ocr []) = None) by reflexivity.
  assert (Hmodel : _latex_ocr_model client = None) by reflexivity.
  assert (Hsome : find_all (tag_class "img" "tex") part_mixed <> [])
    by (vm_compute; discriminate).
  exact (@recognition_needs_pix2tex (serve_without_ocr []) part_mixed client
           Hocr Hmodel Hsome).
Defined.

(** ** Paginated collections that do not end well *)

Lemma handle_params_out_of_fuel {A} (method : M A) (kg ks : option ustring)
  (self s2 : SdamGIA) :
  method (overridden kg ks self) = (OutOfFuel, s2) ->
  handle_params method kg ks self = (OutOfFuel, s2).
Proof.
  intros H. unfold handle_params, bind, get_self, modify, ret, overridden in *.
  rewrite H. reflexivity.
Qed.

Lemma sent_overridden (kg ks : option ustring) (self : SdamGIA) :
  sent (overridden kg ks self) = sent self.
Proof. destruct kg, ks; reflexivity. Qed.

Section Failures.

Variable E : Env.

Lemma search_loop_aborts (query : ustring) (e : exn) (k : nat) :
  forall (ids : nat -> list Z) (fuel : nat) (first : Z) (acc : list Z)
         (self : SdamGIA),
  k < fuel ->
  (forall i, i < k ->
     search_page E self query (first + Z.of_nat i) = Ok (ids i) /\ ids i <> []) ->
  search_page E self query (first + Z.of_nat k) = Raise e ->
  search_loop E fuel query first acc self
  = (Raise e,
     with_sent (sent self ++ map (search_request E self query) (pages first (S k)))
       self).
Proof.
  induction k as [| k IH]; intros ids fuel first acc self Hfuel Hids Hlast;
    (destruct fuel as [| fuel]; [lia |]).
  - simpl in Hlast. rewrite Z.add_0_r in Hlast. unfold search_page in Hlast.
    simpl in Hlast. simpl. unfold bind, _get, lift. rewrite Z.add_0_r.
    destruct (http_get E (urljoin E (base_url self) (u "/search"))
                [("search", query); ("page", str_of_int first)])
      as [h | e' |]; simpl in Hlast; try discriminate.
    + rewrite Hlast. reflexivity.
    + inversion Hlast. reflexivity.
  - destruct (Hids 0 ltac:(lia)) as [H0 Hne]. simpl in H0.
    rewrite Z.add_0_r in H0. unfold search_page in H0.
    apply rbind_Ok in H0. destruct H0 as [h [Hh Hl]]. simpl in Hh.
    rewrite pages_S. cbn [search_loop].
    unfold bind at 1. unfold _get at 1. rewrite Hh.
    unfold bind at 1. unfold lift at 1. rewrite Hl.
    destruct (ids 0) as [| x r] eqn:Hi; [congruence |].
    rewrite (IH (fun i => ids (S i))).
    + simpl. rewrite <- !app_assoc. reflexivity.
    + lia.
    + intros i Hlt. replace (first + 1 + Z.of_nat i)%Z
        with (first + Z.of_nat (S i))%Z by lia.
      apply (Hids (S i)). lia.
    + replace (first + 1 + Z.of_nat k)%Z with (first + Z.of_nat (S k))%Z by lia.
      exact Hlast.
Qed.

Lemma theme_loop_aborts (theme_id : Z) (e : exn) (k : nat) :
  forall (ids : nat -> list ustring) (fuel : nat) (first : Z)
         (acc : list ustring) (self : SdamGIA),
  k < fuel ->
  (forall i, i < k ->
     theme_page E self theme_id (first + Z.of_nat i) = Ok (ids i) /\ ids i <> []) ->
  theme_page E self theme_id (first + Z.of_nat k) = Raise e ->
  theme_loop E fuel theme_id first acc self
  = (Raise e,
     with_sent (sent self ++ map (theme_request E self theme_id) (pages first (S k)))
       self).
Proof.
  induction k as [| k IH]; intros ids fuel first acc self Hfuel Hids Hlast;
    (destruct fuel as [| fuel]; [lia |]).
  - simpl in Hlast. rewrite Z.add_0_r in Hlast. unfold theme_page in Hlast.
    cbn [theme_request fst snd] in Hlast. cbn [theme_loop pages seq map].
    unfold bind at 1. unfold _get at 1. rewrite Z.add_0_r.
    destruct (http_get E (urljoin E (base_url self) (u "/test"))
                [("theme", str_of_int theme_id); ("page", str_of_int first)])
      as [h | e' |]; cbn [rbind] in Hlast; try discriminate.
    + destruct (find_all (tag_class "span" "prob_nums") (soup_of E h))
        as [| x r]; [discriminate |].
      unfold bind, lift. rewrite Hlast. reflexivity.
    + inversion Hlast. reflexivity.
  - destruct (Hids 0 ltac:(lia)) as [H0 Hne]. simpl in H0.
    rewrite Z.add_0_r in H0. unfold theme_page in H0.
    apply rbind_Ok in H0. destruct H0 as [h [Hh Hl]]. simpl in Hh.
    rewrite pages_S. cbn [theme_loop].
    unfold bind at 1. unfold _get at 1. rewrite Hh.
    destruct (find_all (tag_class "span" "prob_nums") (soup_of E h))
      as [| x r] eqn:Hf.
    + simpl in Hl. inversion Hl. congruence.
    + unfold bind at 1. unfold lift at 1. rewrite Hl.
      rewrite (IH (fun i => ids (S i))).
      * simpl. rewrite <- !app_assoc. reflexivity.
      * lia.
      * intros i Hlt. replace (first + 1 + Z.of_nat i)%Z
          with (first + Z.of_nat (S i))%Z by lia.
        apply (Hids (S i)). lia.
      * replace (first + 1 + Z.of_nat k)%Z with (first + Z.of_nat (S k))%Z by lia.
        exact Hlast.
Qed.

Lemma search_loop_runs_on (query : ustring) (n : nat) :
  forall (ids : nat -> list Z) (first : Z) (acc : list Z) (self : SdamGIA),
  (forall i, i < n ->
     search_page E self query (first + Z.of_nat i) = Ok (ids i) /\ ids i <> []) ->
  search_loop E n query first acc self
  = (OutOfFuel,
     with_sent (sent self ++ map (search_request E self query) (pages first n))
       self).
Proof.
  induction n as [| n IH]; intros ids first acc self Hids.
  - simpl. unfold lift, pages. simpl. rewrite app_nil_r.
    destruct self; reflexivity.
  - destruct (Hids 0 ltac:(lia)) as [H0 Hne]. simpl in H0.
    rewrite Z.add_0_r in H0. unfold search_page in H0.
    apply rbind_Ok in H0. destruct H0 as [h [Hh Hl]]. simpl in Hh.
    rewrite pages_S. cbn [search_loop].
    unfold bind at 1. unfold _get at 1. rewrite Hh.
    unfold bind at 1. unfold lift at 1. rewrite Hl.
    destruct (ids 0) as [| x r] eqn:Hi; [congruence |].
    rewrite (IH (fun i => ids (S i))).
    + simpl. rewrite <- !app_assoc. reflexivity.
    + intros i Hlt. replace (first + 1 + Z.of_nat i)%Z
        with (first + Z.of_nat (S i))%Z by lia.
      apply (Hids (S i)). lia.
Qed.

Lemma theme_loop_runs_on (theme_id : Z) (n : nat) :
  forall (ids : nat -> list ustring) (first : Z) (acc : list ustring)
         (self : SdamGIA),
  (forall i, i < n ->
     theme_page E self theme_id (first + Z.of_nat i) = Ok (ids i) /\ ids i <> []) ->
  theme_loop E n theme_id first acc self
  = (OutOfFuel,
     with_sent (sent self ++ map (theme_request E self theme_id) (pages first n))
       self).
Proof.
  induction n as [| n IH]; intros ids first acc self Hids.
  - simpl. unfold lift, pages. simpl. rewrite app_nil_r.
    destruct self; reflexivity.
  - destruct (Hids 0 ltac:(lia)) as [H0 Hne]. simpl in H0.
    rewrite Z.add_0_r in H0. unfold theme_page in H0.
    apply rbind_Ok in H0. destruct H0 as [h [Hh Hl]]. simpl in Hh.
    rewrite pages_S. cbn [theme_loop].
    unfold bind at 1. unfold _get at 1. rewrite Hh.
    destruct (find_all (tag_class "span" "prob_nums") (soup_of E h))
      as [| x r] eqn:Hf.
    + simpl in Hl. inversion Hl. congruence.
    + unfold bind at 1. unfold lift at 1. rewrite Hl.
      rewrite (IH (fun i => ids (S i))).
      * simpl. rewrite <- !app_assoc. reflexivity.
      * intros i Hlt. replace (first + 1 + Z.of_nat i)%Z
          with (first + Z.of_nat (S i))%Z by lia.
        apply (Hids (S i)). lia.
Qed.

End Failures.

(** When pages 1 to k of a search or of a theme listing each yield an id
    and page k+1 fails, in its request or in the reading of a label, the
    call raises that exception: the ids collected so far are lost, the
    requests sent are those of pages 1 to k+1, and the scope given with the
    call stays in the client. *)
Theorem paginated_collection_aborts_on_failure
  (E : Env) (kg ks : option ustring) (self : SdamGIA) (k fuel : nat) (e : exn)
  (Hfuel : k < fuel) :
  (forall (query : ustring) (ids : nat -> list Z),
     (forall i, i < k ->
        search_page E (overridden kg ks self) query (1 + Z.of_nat i) = Ok (ids i)
        /\ ids i <> []) ->
     search_page E (overridden kg ks self) query (1 + Z.of_nat k) = Raise e ->
     search E fuel query kg ks self
     = (Raise e,
        with_sent
          (sent self ++
           map (search_request E (overridden kg ks self) query) (pages 1 (S k)))
          (overridden kg ks self))) /\
  (forall (theme_id : Z) (ids : nat -> list ustring),
     (forall i, i < k ->
        theme_page E (overridden kg ks self) theme_id (1 + Z.of_nat i) = Ok (ids i)
        /\ ids i <> []) ->
     theme_page E (overridden kg ks self) theme_id (1 + Z.of_nat k) = Raise e ->
     get_theme_by_id E fuel theme_id kg ks self
     = (Raise e,
        with_sent
          (sent self ++
           map (theme_request E (overridden kg ks self) theme_id) (pages 1 (S k)))
          (overridden kg ks self))).
Proof.
  split.
  - intros query ids Hids Hlast. unfold search.
    erewrite handle_params_raises.
    2: { apply search_loop_aborts with (ids := ids); eassumption. }
    rewrite sent_overridden. reflexivity.
  - intros theme_id ids Hids Hlast. unfold get_theme_by_id.
    erewrite handle_params_raises.
    2: { apply theme_loop_aborts with (ids := ids); eassumption. }
    rewrite sent_overridden. reflexivity.
Qed.

(** The loops have no bound of their own: while every page yields an
    id they go on, having sent exactly n requests after n pages without
    returning. *)
Theorem paginated_collection_runs_while_pages_yield
  (E : Env) (kg ks : option ustring) (self : SdamGIA) (n : nat) :
  (forall (query : ustring) (ids : nat -> list Z),
     (forall i, i < n ->
        search_page E (overridden kg ks self) query (1 + Z.of_nat i) = Ok (ids i)
        /\ ids i <> []) ->
     search E n query kg ks self
     = (OutOfFuel,
        with_sent
          (sent self ++
           map (search_request E (overridden kg ks self) query) (pages 1 n))
          (overridden kg ks self))) /\
  (forall (theme_id : Z) (ids : nat -> list ustring),
     (forall i, i < n ->
        theme_page E (overridden kg ks self) theme_id (1 + Z.of_nat i) = Ok (ids i)
        /\ ids i <> []) ->
     get_theme_by_id E n theme_id kg ks self
     = (OutOfFuel,
        with_sent
          (sent self ++
           map (theme_request E (overridden kg ks self) theme_id) (pages 1 n))
          (overridden kg ks self))).
Proof.
  split.
  - intros query ids Hids. unfold search.
    erewrite handle_params_out_of_fuel.
    2: { apply search_loop_runs_on with (ids := ids); eassumption. }
    rewrite sent_overridden. reflexivity.
  - intros theme_id ids Hids. unfold get_theme_by_id.
    erewrite handle_params_out_of_fuel.
    2: { apply theme_loop_runs_on with (ids := ids); eassumption. }
    rewrite sent_overridden. reflexivity.
Qed.


Lemma paginated_collection_aborts_on_failure_witness :
  fst (search (serve_then_fail [page_list1]) 3 (u "x") (Some (u "oge")) None client)
  = Raise ClientError /\
  gia_type
    (snd (get_theme_by_id (serve_then_fail [page_list1]) 3 7 (Some (u "oge")) None
            client))
  = u "oge".
Proof.
  pose proof (@paginated_collection_aborts_on_failure
                (serve_then_fail [page_list1]) (Some (u "oge")) None client 1 3
                ClientError ltac:(lia)) as [Hs Ht].
  split.
  - rewrite (Hs (u "x")
               (fun i => match i with 0 => [101; 102]%Z | _ => [] end)).
    + reflexivity.
    + intros [| i] Hi;
        [vm_compute; split; [reflexivity | discriminate] | lia].
    + vm_compute. reflexivity.
  - rewrite (Ht 7%Z
               (fun i => match i with 0 => [u "101"; u "102"] | _ => [] end)).
    + reflexivity.
    + intros [| i] Hi;
        [vm_compute; split; [reflexivity | discriminate] | lia].
    + vm_compute. reflexivity.
Defined.

Lemma paginated_collection_runs_while_pages_yield_witness :
  fst (search serve_endless 3 (u "x") None None client) = OutOfFuel /\
  length (sent (snd (get_theme_by_id serve_endless 3 7 None None client))) = 3.
Proof.
  pose proof (@paginated_collection_runs_while_pages_yield
                serve_endless None None client 3) as [Hs Ht].
  split.
  - rewrite (Hs (u "x") (fun _ => [205]%Z)).
    + reflexivity.
    + intros i Hi. vm_compute. split; [reflexivity | discriminate].
  - rewrite (Ht 7%Z (fun _ => [u "205"])).
    + reflexivity.
    + intros i Hi. vm_compute. split; [reflexivity | discriminate].
Defined.


(** ** Labels of a listing and the listing of a test *)




Lemma Forall2_rmap {A B} (f : A -> result B) (l : list A) (l' : list B) :
  Forall2 (fun x y => f x = Ok y) l l' -> rmap f l = Ok l'.
Proof.
  intros H. induction H as [| x y r r' Hxy Hr IH]; simpl; [reflexivity |].
  rewrite Hxy, IH. reflexivity.
Qed.





(** The listing of a test is read from one page, asked for once: the call
    returns exactly when every label of that page yields a number, with
    one number per label in document order, and the client is then as
    before but for the request. *)
Theorem get_test_by_id_reads_one_page (E : Env) (test_id : Z)
  (kg ks : option ustring) (self : SdamGIA) (page : ustring)
  (Hpage : http_get E (fst (test_request E (overridden kg ks self) test_id)) []
           = Ok page) :
  forall ids : list Z,
    Forall2 (fun label id => prob_num E label = Ok id)
      (find_all (tag_class "span" "prob_nums") (soup_of E page)) ids <->
    get_test_by_id E test_id kg ks self
    = (Ok ids,
       with_sent (sent self ++ [test_request E (overridden kg ks self) test_id])
         self).
Proof.
  intros ids. unfold test_request in *. cbn [fst] in Hpage. split.
  - intros H. apply Forall2_rmap in H. unfold get_test_by_id.
    erewrite handle_params_returns.
    2: { unfold get_test_by_id_body, bind, _get, lift. rewrite Hpage, H.
         reflexivity. }
    rewrite restore_with_sent, sent_overridden. reflexivity.
  - intros H. apply handle_params_Ok in H. destruct H as [s2 [H _]].
    unfold get_test_by_id_body, bind, _get, lift in H. rewrite Hpage in H.
    apply rmap_Ok. inversion H. reflexivity.
Qed.

Lemma get_test_by_id_reads_one_page_witness :
  get_test_by_id (serve [page_test]) 1 (Some (u "oge")) None client
  = (Ok [31; 7]%Z,
     with_sent [(u "https://math-oge.sdamgia.ru/test?id=1", [])] client).
Proof.
  assert (Hpage : http_get (serve [page_test])
                    (fst (test_request (serve [page_test])
                            (overridden (Some (u "oge")) None client) 1)) []
                  = Ok (u "1")) by (vm_compute; reflexivity).
  apply (proj1 (@get_test_by_id_reads_one_page (serve [page_test]) 1
                  (Some (u "oge")) None client (u "1") Hpage [31; 7]%Z)).
  repeat constructor.
Defined.

(** A label that does not yield a number fails the whole listing with the
    label's exception: no number is returned, and the scope given with the
    call stays in the client. *)
Theorem get_test_by_id_fails_with_label (E : Env) (test_id : Z)
  (kg ks : option ustring) (self : SdamGIA) (page : ustring) (e : exn)
  (Hpage : http_get E (fst (test_request E (overridden kg ks self) test_id)) []
           = Ok page)
  (Hlabels : rmap (prob_num E)
               (find_all (tag_class "span" "prob_nums") (soup_of E page))
             = Raise e) :
  get_test_by_id E test_id kg ks self
  = (Raise e,
     with_sent (sent self ++ [test_request E (overridden kg ks self) test_id])
       (overridden kg ks self)).
Proof.
  unfold test_request in *. cbn [fst] in Hpage. unfold get_test_by_id.
  erewrite handle_params_raises.
  2: { unfold get_test_by_id_body, bind, _get, lift. rewrite Hpage, Hlabels.
       reflexivity. }
  rewrite sent_overridden. reflexivity.
Qed.

Lemma get_test_by_id_fails_with_label_witness :
  fst (get_test_by_id (serve [page_test_blank]) 1 (Some (u "oge")) None client)
  = Raise IndexError /\
  gia_type
    (snd (get_test_by_id (serve [page_test_blank]) 1 (Some (u "oge")) None client))
  = u "oge".
Proof.
  assert (Hpage : http_get (serve [page_test_blank])
                    (fst (test_request (serve [page_test_blank])
                            (overridden (Some (u "oge")) None client) 1)) []
                  = Ok (u "1")) by (vm_compute; reflexivity).
  assert (Hlabels : rmap (prob_num (serve [page_test_blank]))
                      (find_all (tag_class "span" "prob_nums")
                         (soup_of (serve [page_test_blank]) (u "1")))
                    = Raise IndexError) by (vm_compute; reflexivity).
  rewrite (@get_test_by_id_fails_with_label (serve [page_test_blank]) 1
             (Some (u "oge")) None client (u "1") IndexError Hpage Hlabels).
  split; reflexivity.
Defined.


(** ** The catalog, whatever the page *)

Lemma collect_topics_outcome (blocks : list (path * node)) :
  forall catalog,
  collect_topics blocks catalog
  = if forallb (has_attr "data-id") blocks then Ok catalog else Raise KeyError.
Proof.
  induction blocks as [| i r IH]; intros catalog; [reflexivity |].
  cbn [collect_topics forallb]. unfold has_attr at 1, tag_getitem.
  destruct (tag_get (snd i) "data-id"); simpl; [apply IH | reflexivity].
Qed.

(** Once the catalog page has been received, [get_catalog] has two
    outcomes only: the empty catalog when every category block of the page
    carries [data-id], and [KeyError], with the scope of the call left in
    the client, when one does not. *)
Theorem get_catalog_empty_or_KeyError (E : Env) (kg ks : option ustring)
  (self : SdamGIA) (page : ustring)
  (Hpage : http_get E (fst (catalog_request E (overridden kg ks self))) []
           = Ok page) :
  get_catalog E kg ks self
  = if forallb (has_attr "data-id")
         (find_all (tag_class "div" "cat_category") (soup_of E page))
    then (Ok [],
          with_sent (sent self ++ [catalog_request E (overridden kg ks self)])
            self)
    else (Raise KeyError,
          with_sent (sent self ++ [catalog_request E (overridden kg ks self)])
            (overridden kg ks self)).
Proof.
  unfold catalog_request in *. cbn [fst] in Hpage. unfold get_catalog.
  destruct (forallb (has_attr "data-id")
              (find_all (tag_class "div" "cat_category") (soup_of E page)))
    eqn:Hall.
  - erewrite handle_params_returns.
    2: { unfold get_catalog_body, bind, _get, lift. rewrite Hpage.
         rewrite collect_topics_outcome, Hall. reflexivity. }
    rewrite restore_with_sent, sent_overridden. reflexivity.
  - erewrite handle_params_raises.
    2: { unfold get_catalog_body, bind, _get, lift. rewrite Hpage.
         rewrite collect_topics_outcome, Hall. reflexivity. }
    rewrite sent_overridden. reflexivity.
Qed.

Lemma get_catalog_empty_or_KeyError_witness :
  get_catalog (serve [page_categories]) None None client
  = (Ok [], with_sent [(u "https://math-ege.sdamgia.ru/prob_catalog", [])] client).
Proof.
  assert (Hpage : http_get (serve [page_categories])
                    (fst (catalog_request (serve [page_categories])
                            (overridden None None client))) []
                  = Ok (u "1")) by (vm_compute; reflexivity).
  exact (@get_catalog_empty_or_KeyError (serve [page_categories]) None None
           client (u "1") Hpage).
Defined.

(** ** Separators *)



Lemma split_from_absent (c : char) (sep' s : ustring) :
  ~ In c s -> forall cur, split_from (c :: sep') 0 cur s = [rev cur ++ s].
Proof.
  induction s as [| x s IH]; intros Hin cur.
  - cbn [split_from]. rewrite app_nil_r. reflexivity.
  - cbn [split_from startswith].
    destruct (N.eqb_spec c x) as [-> | Hne]; [exfalso; apply Hin; left; reflexivity |].
    cbn [andb]. rewrite IH by (intros H; apply Hin; right; exact H).
    cbn [rev]. rewrite <- app_assoc. reflexivity.
Qed.














Lemma split_without (c : char) (sep' s : ustring) :
  ~ In c s -> nth_error (split (c :: sep') s) 1 = None.
Proof.
  intros H. unfold split. rewrite split_from_absent by exact H. reflexivity.
Qed.


(** ** Generated tests *)

Lemma generate_test_body_explicit (E : Env) (R : Redirects)
  (problems : list (string * Z)) (self : SdamGIA) :
  dict_find "full" problems = None ->
  generate_test_body E R (Some problems) self
  = (header <~ (h <~ location R (generate_url self) (count_params problems) ;;
                of_option h KeyError) ;;
     rest <~ of_option (nth_error (split (u "id=") header) 1) IndexError ;;
     of_option (nth_error (split (u "&nt") rest) 0) IndexError,
     with_sent (sent self ++ [(generate_url self, count_params problems)]) self).
Proof.
  intros Hfull. unfold generate_test_body. rewrite Hfull.
  unfold bind, ret, get_self, get_location, lift, generate_url, count_params.
  destruct (location R _ _) as [[h |] | e |]; cbn [rbind of_option];
    try reflexivity.
  destruct (nth_error (split (u "id=") h) 1); cbn [rbind of_option];
    reflexivity.
Qed.



(** A response without a [Location] header raises [KeyError], and a
    header in which no "i" occurs, so that it holds no "id=", raises
    [IndexError]; in both cases the scope given with the call stays in the
    client. *)
Theorem generate_test_raises_on_location (E : Env) (R : Redirects)
  (problems : list (string * Z)) (kg ks : option ustring) (self : SdamGIA)
  (Hfull : dict_find "full" problems = None) :
  let request :=
    (generate_url (overridden kg ks self), count_params problems) in
  (location R (fst request) (snd request) = Ok None ->
   generate_test E R (Some problems) kg ks self
   = (Raise KeyError,
      with_sent (sent self ++ [request]) (overridden kg ks self))) /\
  (forall header,
     location R (fst request) (snd request) = Ok (Some header) ->
     ~ In letter_i header ->
     generate_test E R (Some problems) kg ks self
     = (Raise IndexError,
        with_sent (sent self ++ [request]) (overridden kg ks self))).
Proof.
  cbn [fst snd]. split.
  - intros Hloc. unfold generate_test. erewrite handle_params_raises.
    2: { rewrite generate_test_body_explicit by exact Hfull. rewrite Hloc.
         reflexivity. }
    rewrite sent_overridden. reflexivity.
  - intros header Hloc Hin. unfold generate_test.
    assert (Hid : u "id=" = letter_i :: [100; 61]%N) by (vm_compute; reflexivity).
    erewrite handle_params_raises.
    2: { rewrite generate_test_body_explicit by exact Hfull. rewrite Hloc.
         cbn [rbind of_option]. rewrite Hid, split_without by exact Hin.
         reflexivity. }
    rewrite sent_overridden. reflexivity.
Qed.

Lemma generate_test_raises_on_location_witness :
  fst (generate_test (serve []) (redirects None) (Some [("3", 2%Z)])
         (Some (u "oge")) None client)
  = Raise KeyError /\
  fst (generate_test (serve []) (redirects (Some (u "/test"))) (Some [("3", 2%Z)])
         (Some (u "oge")) None client)
  = Raise IndexError.
Proof.
  assert (Hfull : dict_find "full" [("3", 2%Z)] = None) by reflexivity.
  split.
  - rewrite (proj1 (@generate_test_raises_on_location (serve []) (redirects None)
                      _ (Some (u "oge")) None client Hfull)); reflexivity.
  - rewrite (proj2 (@generate_test_raises_on_location (serve [])
                      (redirects (Some (u "/test")))
                      _ (Some (u "oge")) None client Hfull) (u "/test")).
    + reflexivity.
    + reflexivity.
    + vm_compute. intros H. repeat destruct H as [H | H]; discriminate || exact H.
Defined.

(** With "full" among the problems, and so by default, the counts are
    laid out over the topics of the catalog; as a catalog that is returned
    is empty, a call that returns has asked for the catalog and then sent
    the generation request without any count. *)
Theorem generate_test_full_sends_no_counts (E : Env) (R : Redirects)
  (problems : option (list (string * Z))) (kg ks : option ustring)
  (self self' : SdamGIA) (id : ustring)
  (Hfull : dict_find "full"
             (match problems with Some p => p | None => [("full", 1%Z)] end)
           <> None)
  (Hret : generate_test E R problems kg ks self = (Ok id, self')) :
  sent self'
  = sent self ++
    [catalog_request E (overridden kg ks self);
     (generate_url (overridden kg ks self), [])].
Proof.
  apply handle_params_Ok in Hret. destruct Hret as [s2 [H ->]].
  cbn [sent with_subject with_gia_type].
  unfold generate_test_body in H.
  destruct (dict_find "full" _) as [full |]; [| congruence].
  apply bind_Ok in H. destruct H as [params [s1 [Hp H]]].
  apply bind_Ok in Hp. destruct Hp as [catalog [s0 [Hc Hp]]].
  apply ret_Ok in Hp. destruct Hp as [-> ->].
  pose proof (@get_catalog_returns_nothing E None None _ _ _ Hc) as ->.
  apply handle_params_Ok in Hc. destruct Hc as [s3 [Hc ->]].
  unfold get_catalog_body in Hc.
  apply bind_Ok in Hc. destruct Hc as [page [s4 [Hg Hc]]].
  apply bind_Ok in Hc. destruct Hc as [cat [s5 [Hl Hc]]].
  apply lift_Ok in Hl. destruct Hl as [_ ->].
  apply lift_Ok in Hc. destruct Hc as [_ ->].
  unfold _get in Hg. injection Hg as _ <-.
  cbn [length seq map] in H.
  apply bind_Ok in H. destruct H as [me [s6 [Hme H]]].
  unfold get_self in Hme. injection Hme as <- <-.
  apply bind_Ok in H. destruct H as [header [s7 [Hh H]]].
  apply bind_Ok in H. destruct H as [rest [s8 [Hr H]]].
  apply lift_Ok in Hr. destruct Hr as [_ ->].
  apply lift_Ok in H. destruct H as [_ ->].
  unfold get_location in Hh. injection Hh as _ <-.
  cbn [sent with_sent with_subject with_gia_type overridden].
  unfold catalog_request, generate_url. rewrite <- app_assoc.
  destruct kg, ks; reflexivity.
Qed.

Lemma generate_test_full_sends_no_counts_witness :
  sent (snd (generate_test (serve [page_categories])
               (redirects (Some (u "/test?id=4321&nt=True"))) None None None
               client))
  = [(u "https://math-ege.sdamgia.ru/prob_catalog", []);
     (u "https://math-ege.sdamgia.ru/test?a=generate", [])].
Proof.
  assert (Hfull : dict_find "full" [("full", 1%Z)] <> None)
    by (vm_compute; discriminate).
  assert (Hret : generate_test (serve [page_categories])
                   (redirects (Some (u "/test?id=4321&nt=True"))) None None None
                   client
                 = (Ok (u "4321"),
                    snd (generate_test (serve [page_categories])
                           (redirects (Some (u "/test?id=4321&nt=True"))) None
                           None None client)))
    by (vm_compute; reflexivity).
  exact (@generate_test_full_sends_no_counts (serve [page_categories]) _ None
           None None client _ _ Hfull Hret).
Defined.

(** ** The PDF version of a test *)

(** [generate_pdf] sends one request, which follows no redirect, and
    returns the [Location] header of the answer joined to the base URL of
    the scope of the call; where [urljoin] raises on that header the call
    raises [ValueError], and without the header it raises [KeyError]; a
    call that raises leaves its scope in the client. *)
Theorem generate_pdf_joins_location (E : Env) (R : Redirects) (test_id : Z)
  (solution nums answers key crit instruction : bool) (col tt pdf : ustring)
  (kg ks : option ustring) (self : SdamGIA) :
  let scoped := overridden kg ks self in
  let request :=
    (base_url scoped ++ u "/test",
     pdf_params test_id solution nums answers key crit instruction col tt pdf) in
  (forall header,
     location R (fst request) (snd request) = Ok (Some header) ->
     generate_pdf E R test_id solution nums answers key crit instruction col tt
       pdf kg ks self
     = if urljoin_raises E (base_url scoped) header
       then (Raise ValueError, with_sent (sent self ++ [request]) scoped)
       else (Ok (urljoin E (base_url scoped) header),
             with_sent (sent self ++ [request]) self)) /\
  (location R (fst request) (snd request) = Ok None ->
   generate_pdf E R test_id solution nums answers key crit instruction col tt
     pdf kg ks self
   = (Raise KeyError, with_sent (sent self ++ [request]) scoped)).
Proof.
  cbn [fst snd]. unfold pdf_params. split.
  - intros header Hloc. unfold generate_pdf.
    destruct (urljoin_raises E (base_url (overridden kg ks self)) header)
      eqn:Hj.
    + erewrite handle_params_raises.
      2: { unfold generate_pdf_body, bind, get_self, get_location, lift,
             checked_urljoin.
           rewrite Hloc. cbn [rbind of_option].
           change (base_url (with_sent _ (overridden kg ks self)))
             with (base_url (overridden kg ks self)).
           rewrite Hj. reflexivity. }
      rewrite sent_overridden. reflexivity.
    + erewrite handle_params_returns.
      2: { unfold generate_pdf_body, bind, get_self, get_location, lift,
             checked_urljoin.
           rewrite Hloc. cbn [rbind of_option].
           change (base_url (with_sent _ (overridden kg ks self)))
             with (base_url (overridden kg ks self)).
           rewrite Hj. reflexivity. }
      rewrite restore_with_sent, sent_overridden. reflexivity.
  - intros Hloc. unfold generate_pdf. erewrite handle_params_raises.
    2: { unfold generate_pdf_body, bind, get_self, get_location, ret.
         rewrite Hloc. reflexivity. }
    rewrite sent_overridden. reflexivity.
Qed.

Lemma generate_pdf_joins_location_witness :
  fst (generate_pdf (serve []) (redirects (Some (u "/pdf/abc.pdf"))) 4321
         true false false false false false [] [] (u "h") (Some (u "oge")) None
         client)
  = Ok (u "https://math-oge.sdamgia.ru/pdf/abc.pdf") /\
  generate_pdf (serve []) (redirects (Some (u "//["))) 4321
    true false false false false false [] [] (u "h") (Some (u "oge")) None
    client
  = (Raise ValueError,
     with_sent
       [(u "https://math-oge.sdamgia.ru/test",
         pdf_params 4321 true false false false false false [] [] (u "h"))]
       (overridden (Some (u "oge")) None client)) /\
  fst (generate_pdf (serve []) (redirects None) 4321
         true false false false false false [] [] (u "h") (Some (u "oge")) None
         client)
  = Raise KeyError.
Proof.
  split; [| split].
  - rewrite (proj1 (@generate_pdf_joins_location (serve [])
                      (redirects (Some (u "/pdf/abc.pdf"))) 4321
                      true false false false false false [] [] (u "h")
                      (Some (u "oge")) None client) (u "/pdf/abc.pdf"));
      reflexivity.
  - rewrite (proj1 (@generate_pdf_joins_location (serve [])
                      (redirects (Some (u "//["))) 4321
                      true false false false false false [] [] (u "h")
                      (Some (u "oge")) None client) (u "//["));
      reflexivity.
  - rewrite (proj2 (@generate_pdf_joins_location (serve []) (redirects None) 4321
                      true false false false false false [] [] (u "h")
                      (Some (u "oge")) None client)); reflexivity.
Defined.

Lemma guarded_fields_never_fail_witness :
  exists pr self',
    get_problem_by_id (serve [page_topic]) 26664 false (Some (u "oge")) None client
    = (Ok pr, self') /\
    analogs pr = [26665%Z].
Proof.
  assert (Himgs : Forall
                    (fun img => src_error (serve [page_topic])
                                  (base_url (overridden (Some (u "oge")) None
                                               client)) (snd img) = None)
                    (find_all (is_tag "img") (deref page_topic [0])))
    by (vm_compute; repeat constructor).
  assert (Han : analogs_of (serve [page_topic]) 26664 (deref page_topic [0])
                = Ok [26665%Z]) by (vm_compute; reflexivity).
  exact (@guarded_fields_never_fail (serve [page_topic]) 26664 (Some (u "oge"))
           None client (u "1") [0] (deref page_topic [0]) [26665%Z]
           plain_topic_page plain_topic_block Himgs Han).
Defined.
